(** * CPReconcile: the reconciliation matching engine

    A shallow embedding of [src/services/reconciliation.service.ts]
    (class [ReconciliationService]) and of the status constants of
    [src/types/reconciliation.types.ts].

    Conventions of the embedding:
    - a JavaScript [number] holding an amount or a confidence is an exact
      rational ([Q]); comparisons are those of the rationals;
    - a [Date] is the integer number of milliseconds of [getTime()] ([Z]);
    - an optional property ([string | null | undefined]) is an [option];
      JavaScript truthiness of such a property is [truthy] below (a stored
      empty string is falsy);
    - a [Set<string>] is a [gset string];
    - the asynchronous, effectful [reconcile] is a function in a small
      state-and-error monad over the two tables it writes. *)

From Stdlib Require Import Ascii QArith Qminmax Qabs Qround Lqa.
From stdpp Require Import base gmap sets list strings pretty.

(** ** Status constants (reconciliation.types.ts) *)

Inductive ReconciliationStatusType : Set :=
  | MATCHED
  | PARTIAL_MATCH
  | UNMATCHED
  | DISCREPANCY
  | UNDER_REVIEW
  | RESOLVED.

#[global] Instance ReconciliationStatusType_eq_dec : EqDecision ReconciliationStatusType.
Proof. solve_decision. Defined.

(** ** Records read from the three platforms

    The Prisma schema is not part of the sources at hand; the records carry
    exactly the properties the service reads. *)

Record ShopifyOrder : Type := {
  so_id : string;                    (* shopifyOrder.id *)
  shopifyOrderId : string;
  shopifyOrderNumber : string;
  so_email : option string;          (* shopifyOrder.email *)
  totalPrice : Q;
  so_createdAt : Z                   (* new Date(createdAt).getTime() *)
}.

Record RazorpayPayment : Type := {
  rp_id : string;                    (* payment.id *)
  rp_email : option string;          (* payment.email *)
  amount : Q;
  rp_createdAt : Z
}.

Record EasyecomOrder : Type := {
  eo_id : string;                    (* easyecomOrder.id *)
  marketplaceOrderId : option string;
  totalAmount : Q;
  eo_createdAt : Z
}.

(** interface MatchResult; its [shopifyOrderId] is [mr_shopifyOrderId]
    here, the plain name being that of the order's own property. *)
Record MatchResult : Type := {
  mr_shopifyOrderId : option string;
  razorpayPaymentId : option string;
  easyecomOrderId : option string;
  matchConfidence : Q;
  status : ReconciliationStatusType;
  amountDifference : option Q;
  discrepancyNotes : option string
}.

(** ** JavaScript helpers *)

Open Scope Q_scope.

(** Truthiness of an optional string: present and not the empty string. *)
Definition truthy (s : option string) : bool :=
  match s with
  | Some EmptyString => false
  | Some _ => true
  | None => false
  end.

(** [String.prototype.toLowerCase], on the ASCII letters. *)
Definition lower_ascii (c : ascii) : ascii :=
  let n := nat_of_ascii c in
  if Nat.leb 65 n && Nat.leb n 90 then ascii_of_nat (n + 32)%nat else c.

Fixpoint toLowerCase (s : string) : string :=
  match s with
  | EmptyString => EmptyString
  | String c r => String (lower_ascii c) (toLowerCase r)
  end.

(** Strict comparison [x < y] of two numbers. *)
Definition Qlt_bool (x y : Q) : bool := negb (Qle_bool y x).

(** [Math.max(...amounts)] and [Math.min(...amounts)] for the non-empty
    array [a :: rest]. *)
Definition Math_max (a : Q) (rest : list Q) : Q := fold_left Qmax rest a.
Definition Math_min (a : Q) (rest : list Q) : Q := fold_left Qmin rest a.

(** [Number.prototype.toFixed(2)]: the sign, then the magnitude rounded to
    the nearest hundredth (the larger one on a tie) with two decimals. *)
Definition two_digits (n : Z) : string :=
  if (n <? 10)%Z then "0" +:+ pretty n else pretty n.

Definition toFixed2 (x : Q) : string :=
  let n := Qfloor (Qabs x * 100 + (1 # 2)) in
  let body := pretty (n / 100)%Z +:+ "." +:+ two_digits (n mod 100)%Z in
  if Qlt_bool x 0 then "-" +:+ body else body.

(** [timeDiff / (1000 * 60 * 60)] for
    [timeDiff = Math.abs(t1.getTime() - t2.getTime())]. *)
Definition hoursDiff (t1 t2 : Z) : Q :=
  inject_Z (Z.abs (t1 - t2)) / inject_Z (1000 * 60 * 60).

(** ** Pairwise confidence and best-match selection *)

(** The body of the loop of [matchRazorpayPayment] up to the comparison
    with [bestConfidence]: the confidence of one payment. *)
Definition razorpayConfidence (shopifyOrder : ShopifyOrder) (payment : RazorpayPayment) : Q :=
  let confidence := 0 in
  (* Match by email *)
  let confidence :=
    if truthy (so_email shopifyOrder) && truthy (rp_email payment) &&
       bool_decide (toLowerCase <$> so_email shopifyOrder = toLowerCase <$> rp_email payment)
    then confidence + 40 else confidence in
  (* Match by amount (with 1% tolerance) *)
  let amountDiff := Qabs (totalPrice shopifyOrder - amount payment) in
  let amountTolerance := totalPrice shopifyOrder * (1 # 100) in
  let confidence :=
    if Qle_bool amountDiff amountTolerance then confidence + 40 else confidence in
  (* Match by date proximity (within 24 hours) *)
  let hours := hoursDiff (so_createdAt shopifyOrder) (rp_createdAt payment) in
  let confidence :=
    if Qle_bool hours 24 then confidence + 20 * (1 - hours / 24) else confidence in
  confidence.

Definition matchRazorpayPayment (shopifyOrder : ShopifyOrder)
    (razorpayPayments : list RazorpayPayment) : option RazorpayPayment * Q :=
  fold_left
    (fun '(bestMatch, bestConfidence) payment =>
       let confidence := razorpayConfidence shopifyOrder payment in
       if Qlt_bool bestConfidence confidence
       then (Some payment, confidence)
       else (bestMatch, bestConfidence))
    razorpayPayments (None, 0).

(** The body of the loop of [matchEasyecomOrder]. *)
Definition easyecomConfidence (shopifyOrder : ShopifyOrder) (easyecomOrder : EasyecomOrder) : Q :=
  let confidence := 0 in
  (* Try to match by Shopify order ID in marketplace_order_id *)
  let confidence :=
    if truthy (marketplaceOrderId easyecomOrder) &&
       (bool_decide (marketplaceOrderId easyecomOrder = Some (shopifyOrderId shopifyOrder)) ||
        bool_decide (marketplaceOrderId easyecomOrder = Some (shopifyOrderNumber shopifyOrder)))
    then confidence + 60 else confidence in
  (* Match by amount (with 1% tolerance) *)
  let amountDiff := Qabs (totalPrice shopifyOrder - totalAmount easyecomOrder) in
  let amountTolerance := totalPrice shopifyOrder * (1 # 100) in
  let confidence :=
    if Qle_bool amountDiff amountTolerance then confidence + 30 else confidence in
  (* Match by date proximity (within 48 hours) *)
  let hours := hoursDiff (so_createdAt shopifyOrder) (eo_createdAt easyecomOrder) in
  let confidence :=
    if Qle_bool hours 48 then confidence + 10 * (1 - hours / 48) else confidence in
  confidence.

Definition matchEasyecomOrder (shopifyOrder : ShopifyOrder)
    (easyecomOrders : list EasyecomOrder) : option EasyecomOrder * Q :=
  fold_left
    (fun '(bestMatch, bestConfidence) easyecomOrder =>
       let confidence := easyecomConfidence shopifyOrder easyecomOrder in
       if Qlt_bool bestConfidence confidence
       then (Some easyecomOrder, confidence)
       else (bestMatch, bestConfidence))
    easyecomOrders (None, 0).

(** ** Classification: the [if / else if] cascade that ends [findMatches] *)

Definition determineStatus (matchConfidence amountDifference : Q)
    : ReconciliationStatusType * option string :=
  if Qle_bool 80 matchConfidence && Qlt_bool amountDifference 1 then
    (MATCHED, None)
  else if Qle_bool 50 matchConfidence && Qlt_bool amountDifference 10 then
    (PARTIAL_MATCH,
     Some ("Partial match with " +:+ toFixed2 amountDifference +:+ " amount difference"))
  else if Qle_bool 10 amountDifference then
    (DISCREPANCY,
     Some ("Significant amount difference: " +:+ toFixed2 amountDifference))
  else
    (UNMATCHED, Some "Could not find confident matches").

(** ** findMatches *)

Definition findMatches (shopifyOrder : ShopifyOrder)
    (razorpayPayments : list RazorpayPayment) (easyecomOrders : list EasyecomOrder)
    : MatchResult :=
  let razorpayMatch := matchRazorpayPayment shopifyOrder razorpayPayments in
  let easyecomMatch := matchEasyecomOrder shopifyOrder easyecomOrders in
  (* the two accumulations into result.matchConfidence, which starts at 0 *)
  let confidence := 0 in
  let confidence :=
    match razorpayMatch.1 with Some _ => confidence + razorpayMatch.2 | None => confidence end in
  let confidence :=
    match easyecomMatch.1 with Some _ => confidence + easyecomMatch.2 | None => confidence end in
  (* Calculate average confidence if we have matches *)
  let matchCount :=
    ((if razorpayMatch.1 is Some _ then 1 else 0) +
     (if easyecomMatch.1 is Some _ then 1 else 0))%Z in
  let confidence :=
    if (0 <? matchCount)%Z then confidence / inject_Z matchCount else confidence in
  (* Check for amount discrepancies *)
  let pushed :=
    (if razorpayMatch.1 is Some payment then [amount payment] else []) ++
    (if easyecomMatch.1 is Some order then [totalAmount order] else []) in
  let maxAmount := Math_max (totalPrice shopifyOrder) pushed in
  let minAmount := Math_min (totalPrice shopifyOrder) pushed in
  let difference := maxAmount - minAmount in
  (* Determine status *)
  let verdict := determineStatus confidence difference in
  {| mr_shopifyOrderId := Some (so_id shopifyOrder);
     razorpayPaymentId := rp_id <$> razorpayMatch.1;
     easyecomOrderId := eo_id <$> easyecomMatch.1;
     matchConfidence := confidence;
     status := verdict.1;
     amountDifference := Some difference;
     discrepancyNotes := verdict.2 |}.

Close Scope Q_scope.

(** ** The run: the three loops of [reconcile] (lines 56 to 98) *)

Record RunState : Type := {
  matches : list MatchResult;
  matchedCount : nat;
  unmatchedCount : nat
}.

(** One iteration of the loop over [shopifyOrders]. *)
Definition matchStep (razorpayPayments : list RazorpayPayment)
    (easyecomOrders : list EasyecomOrder) (st : RunState) (shopifyOrder : ShopifyOrder)
    : RunState :=
  let match_ := findMatches shopifyOrder razorpayPayments easyecomOrders in
  if decide (status match_ = MATCHED) then
    {| matches := matches st ++ [match_];
       matchedCount := S (matchedCount st);
       unmatchedCount := unmatchedCount st |}
  else
    {| matches := matches st ++ [match_];
       matchedCount := matchedCount st;
       unmatchedCount := S (unmatchedCount st) |}.

(** [new Set(matches.map(m => m.razorpayPaymentId).filter(Boolean))] *)
Definition matchedRazorpayIds (ms : list MatchResult) : gset string :=
  list_to_set (omap (fun m => if truthy (razorpayPaymentId m) then razorpayPaymentId m else None) ms).

(** [new Set(matches.map(m => m.easyecomOrderId).filter(Boolean))] *)
Definition matchedEasyecomIds (ms : list MatchResult) : gset string :=
  list_to_set (omap (fun m => if truthy (easyecomOrderId m) then easyecomOrderId m else None) ms).

Definition razorpayOrphan (payment : RazorpayPayment) : MatchResult :=
  {| mr_shopifyOrderId := None;
     razorpayPaymentId := Some (rp_id payment);
     easyecomOrderId := None;
     matchConfidence := 0;
     status := UNMATCHED;
     amountDifference := None;
     discrepancyNotes := Some "No matching Shopify order found" |}.

Definition easyecomOrphan (order : EasyecomOrder) : MatchResult :=
  {| mr_shopifyOrderId := None;
     razorpayPaymentId := None;
     easyecomOrderId := Some (eo_id order);
     matchConfidence := 0;
     status := UNMATCHED;
     amountDifference := None;
     discrepancyNotes := Some "No matching Shopify order found" |}.

(** One iteration of the loop over [razorpayPayments]; [ids] is the set
    built before the loop. *)
Definition razorpayOrphanStep (ids : gset string) (st : RunState) (payment : RazorpayPayment)
    : RunState :=
  if decide (rp_id payment ∈ ids) then st
  else {| matches := matches st ++ [razorpayOrphan payment];
          matchedCount := matchedCount st;
          unmatchedCount := S (unmatchedCount st) |}.

(** One iteration of the loop over [easyecomOrders]. *)
Definition easyecomOrphanStep (ids : gset string) (st : RunState) (order : EasyecomOrder)
    : RunState :=
  if decide (eo_id order ∈ ids) then st
  else {| matches := matches st ++ [easyecomOrphan order];
          matchedCount := matchedCount st;
          unmatchedCount := S (unmatchedCount st) |}.

Definition matchShopifyOrders (shopifyOrders : list ShopifyOrder)
    (razorpayPayments : list RazorpayPayment) (easyecomOrders : list EasyecomOrder)
    : RunState :=
  fold_left (matchStep razorpayPayments easyecomOrders) shopifyOrders
    {| matches := []; matchedCount := 0; unmatchedCount := 0 |}.

Definition addRazorpayOrphans (razorpayPayments : list RazorpayPayment) (st : RunState)
    : RunState :=
  fold_left (razorpayOrphanStep (matchedRazorpayIds (matches st))) razorpayPayments st.

Definition addEasyecomOrphans (easyecomOrders : list EasyecomOrder) (st : RunState)
    : RunState :=
  fold_left (easyecomOrphanStep (matchedEasyecomIds (matches st))) easyecomOrders st.

(** Lines 56 to 98 as one function of the three loaded lists. *)
Definition computeMatches (shopifyOrders : list ShopifyOrder)
    (razorpayPayments : list RazorpayPayment) (easyecomOrders : list EasyecomOrder)
    : RunState :=
  addEasyecomOrphans easyecomOrders
    (addRazorpayOrphans razorpayPayments
       (matchShopifyOrders shopifyOrders razorpayPayments easyecomOrders)).

(** ** The effectful shell of [reconcile]

    The run writes two tables through Prisma: [reconciliationLog] and
    [reconciliation].  The platform services and the [reconciliation.create]
    call are collaborators whose failures the model takes as given: [None]
    is a promise that resolves, [Some message] one that rejects with that
    message.  The reads [getLocal...] and the log's own writes are taken to
    resolve.  [calls] records the collaborator calls issued, in order. *)

Inductive RunStatus : Set := RUNNING | COMPLETED | FAILED.

(** A row of [reconciliationLog], without its two timestamps. *)
Record ReconciliationLog : Type := {
  runId : string;
  log_status : RunStatus;
  recordsProcessed : nat;
  recordsMatched : nat;
  recordsUnmatched : nat;
  errors : option string
}.

Inductive Platform : Set := Shopify | Razorpay | Easyecom.

Inductive Call : Type :=
  | CreateLog (runId : string)
  | Sync (platform : Platform) (startDate endDate : Z)
  | GetLocal (platform : Platform) (startDate endDate : Z)
  | CreateReconciliation (row : MatchResult)
  | UpdateLog (id : nat)
  | UpdateManyLogs (runId : string).

Record World : Type := {
  reconciliationLog : list ReconciliationLog;
  reconciliation : list MatchResult;
  calls : list Call
}.

Record Collaborators : Type := {
  shopify_syncOrders : Z -> Z -> option string;
  razorpay_syncPayments : Z -> Z -> option string;
  easyecom_syncOrders : Z -> Z -> option string;
  shopify_getLocalOrders : Z -> Z -> list ShopifyOrder;
  razorpay_getLocalPayments : Z -> Z -> list RazorpayPayment;
  easyecom_getLocalOrders : Z -> Z -> list EasyecomOrder;
  (* rows already stored, row to store *)
  reconciliation_create : list MatchResult -> MatchResult -> option string
}.

(** State and error monad: [inl message] is a thrown error. *)
Definition M (A : Type) : Type := World -> (string + A) * World.

#[global] Instance M_ret : MRet M := fun A a w => (inr a, w).

#[global] Instance M_bind : MBind M := fun A B f m w =>
  match m w with
  | (inl e, w') => (inl e, w')
  | (inr a, w') => f a w'
  end.

Definition throw {A : Type} (e : string) : M A := fun w => (inl e, w).

Definition tryCatch {A : Type} (body : M A) (handler : string -> M A) : M A := fun w =>
  match body w with
  | (inl e, w') => handler e w'
  | (inr a, w') => (inr a, w')
  end.

Definition issue (c : Call) : M unit := fun w =>
  (inr (), {| reconciliationLog := reconciliationLog w;
              reconciliation := reconciliation w;
              calls := calls w ++ [c] |}).

Definition modifyLog (f : list ReconciliationLog -> list ReconciliationLog) : M unit := fun w =>
  (inr (), {| reconciliationLog := f (reconciliationLog w);
              reconciliation := reconciliation w;
              calls := calls w |}).

(** [prisma.reconciliationLog.create]: the new entry's id is its position. *)
Definition reconciliationLog_create (run : string) : M nat := fun w =>
  (issue (CreateLog run);;
   modifyLog (fun log => log ++ [{| runId := run; log_status := RUNNING;
                                     recordsProcessed := 0; recordsMatched := 0;
                                     recordsUnmatched := 0; errors := None |}]);;
   mret (length (reconciliationLog w))) w.

(** [prisma.reconciliationLog.update({ where: { id }, data })] of line 106. *)
Definition reconciliationLog_update (id processed matched unmatched : nat) : M unit :=
  issue (UpdateLog id);;
  modifyLog (alter (fun entry => {| runId := runId entry; log_status := COMPLETED;
                                    recordsProcessed := processed;
                                    recordsMatched := matched;
                                    recordsUnmatched := unmatched;
                                    errors := errors entry |}) id).

(** [prisma.reconciliationLog.updateMany({ where: { runId }, data })] of
    line 123. *)
Definition reconciliationLog_updateMany (run message : string) : M unit :=
  issue (UpdateManyLogs run);;
  modifyLog (fmap (fun entry =>
    if decide (runId entry = run) then
      {| runId := runId entry; log_status := FAILED;
         recordsProcessed := recordsProcessed entry;
         recordsMatched := recordsMatched entry;
         recordsUnmatched := recordsUnmatched entry;
         errors := Some message |}
    else entry)).

Definition saveReconciliation (env : Collaborators) (match_ : MatchResult) : M unit := fun w =>
  (issue (CreateReconciliation match_);;
   match reconciliation_create env (reconciliation w) match_ with
   | Some message => throw message
   | None => fun w' => (inr (), {| reconciliationLog := reconciliationLog w';
                                   reconciliation := reconciliation w' ++ [match_];
                                   calls := calls w' |})
   end) w.

(** [for (const match of matches) await this.saveReconciliation(match)] *)
Fixpoint saveAll (env : Collaborators) (ms : list MatchResult) : M unit :=
  match ms with
  | [] => mret ()
  | match_ :: rest => saveReconciliation env match_;; saveAll env rest
  end.

(** The [Promise.all] of the three syncs: all three are started; the
    result rejects when one of them rejects (with the message of the first
    one in array order, in this model). *)
Definition syncAll (env : Collaborators) (startDate endDate : Z) : M unit :=
  issue (Sync Shopify startDate endDate);;
  issue (Sync Razorpay startDate endDate);;
  issue (Sync Easyecom startDate endDate);;
  match shopify_syncOrders env startDate endDate,
        razorpay_syncPayments env startDate endDate,
        easyecom_syncOrders env startDate endDate with
  | Some message, _, _ => throw message
  | None, Some message, _ => throw message
  | None, None, Some message => throw message
  | None, None, None => mret ()
  end.

Definition getAll (env : Collaborators) (startDate endDate : Z)
    : M (list ShopifyOrder * list RazorpayPayment * list EasyecomOrder) :=
  issue (GetLocal Shopify startDate endDate);;
  issue (GetLocal Razorpay startDate endDate);;
  issue (GetLocal Easyecom startDate endDate);;
  mret (shopify_getLocalOrders env startDate endDate,
        razorpay_getLocalPayments env startDate endDate,
        easyecom_getLocalOrders env startDate endDate).

(** The run a call [reconcile(startDate, endDate)] computes from what the
    collaborators load. *)
Definition runOf (env : Collaborators) (startDate endDate : Z) : RunState :=
  computeMatches (shopify_getLocalOrders env startDate endDate)
                 (razorpay_getLocalPayments env startDate endDate)
                 (easyecom_getLocalOrders env startDate endDate).

(** [reconcile]; [now] is the value of [Date.now()] that names the run. *)
Definition reconcile (env : Collaborators) (now : Z) (startDate endDate : Z) : M string :=
  let run := "RUN_" +:+ pretty now in
  tryCatch
    (logEntry ← reconciliationLog_create run;
     syncAll env startDate endDate;;
     '(shopifyOrders, razorpayPayments, easyecomOrders) ← getAll env startDate endDate;
     let st := computeMatches shopifyOrders razorpayPayments easyecomOrders in
     saveAll env (matches st);;
     reconciliationLog_update logEntry (length (matches st)) (matchedCount st) (unmatchedCount st);;
     mret run)
    (fun message =>
       reconciliationLog_updateMany run message;;
       throw message).

(** ** [getReport] without a run id: every stored row, and the summary. *)

Record ReportSummary : Type := {
  total : nat;
  matched : nat;
  partialMatch : nat;
  unmatched : nat;
  discrepancies : nat;
  underReview : nat
}.

Definition countStatus (s : ReconciliationStatusType) (rows : list MatchResult) : nat :=
  length (filter (fun r => status r = s) rows).

Definition getReport (w : World) : ReportSummary * list MatchResult :=
  let reconciliations := reconciliation w in
  ({| total := length reconciliations;
      matched := countStatus MATCHED reconciliations;
      partialMatch := countStatus PARTIAL_MATCH reconciliations;
      unmatched := countStatus UNMATCHED reconciliations;
      discrepancies := countStatus DISCREPANCY reconciliations;
      underReview := countStatus UNDER_REVIEW reconciliations |},
   reconciliations).

(** ** The vocabulary of the specification *)

(** The classification cascade as the specification words it: four rules
    tried in order, the first that applies decides. *)
Inductive cascade (confidence difference : Q) : ReconciliationStatusType -> Prop :=
  | cascade_matched :
      (80 <= confidence)%Q -> (difference < 1)%Q ->
      cascade confidence difference MATCHED
  | cascade_partial :
      ~ ((80 <= confidence)%Q /\ (difference < 1)%Q) ->
      (50 <= confidence)%Q -> (difference < 10)%Q ->
      cascade confidence difference PARTIAL_MATCH
  | cascade_discrepancy :
      ~ ((80 <= confidence)%Q /\ (difference < 1)%Q) ->
      ~ ((50 <= confidence)%Q /\ (difference < 10)%Q) ->
      (10 <= difference)%Q ->
      cascade confidence difference DISCREPANCY
  | cascade_unmatched :
      ~ ((80 <= confidence)%Q /\ (difference < 1)%Q) ->
      ~ ((50 <= confidence)%Q /\ (difference < 10)%Q) ->
      ~ (10 <= difference)%Q ->
      cascade confidence difference UNMATCHED.

(** ** Sample data, the specification's scorer, and the outcomes of a run *)

(** Sample records: an order of 2000 paid in full the same minute, and the
    same order in the order-management system at 2015. *)
Definition sample_order : ShopifyOrder :=
  {| so_id := "so_1"; shopifyOrderId := "5001"; shopifyOrderNumber := "1001";
     so_email := Some "Ann@Example.com"; totalPrice := 2000; so_createdAt := 0 |}.

Definition sample_payment : RazorpayPayment :=
  {| rp_id := "pay_1"; rp_email := Some "ann@example.com"; amount := 2000;
     rp_createdAt := 0 |}.

Definition sample_easyecom : EasyecomOrder :=
  {| eo_id := "ee_1"; marketplaceOrderId := Some "5001"; totalAmount := 2015;
     eo_createdAt := 0 |}.

(** Candidates that share nothing with [sample_order]: another amount, no
    e-mail or reference, and ten days later. *)
Definition stranger_payment : RazorpayPayment :=
  {| rp_id := "pay_9"; rp_email := None; amount := 17; rp_createdAt := 864000000 |}.

Definition stranger_easyecom : EasyecomOrder :=
  {| eo_id := "ee_9"; marketplaceOrderId := None; totalAmount := 17;
     eo_createdAt := 864000000 |}.

(** The scorer as the specification words it, over the specification's
    comparison-ready record and a per-source profile of weights. *)
Module Scorer.

Record PlatformRecord : Type := {
  sourceId : string;
  displayReference : option string;
  counterpartyIdentifier : option string;
  externalReference : option string;
  amount : Q;
  occurredAt : Z
}.

Record MatchProfile : Type := {
  identity : Q;
  amountWeight : Q;
  reference : Q;
  temporal : Q;
  windowHours : Q
}.

Definition identitySignal (weight : Q) (anchor candidate : PlatformRecord) : Q :=
  match counterpartyIdentifier anchor, counterpartyIdentifier candidate with
  | Some a, Some c => if bool_decide (toLowerCase a = toLowerCase c) then weight else 0%Q
  | _, _ => 0%Q
  end.

Definition amountSignal (weight : Q) (anchor candidate : PlatformRecord) : Q :=
  if Qle_bool (Qabs (amount anchor - amount candidate)) ((1 # 100) * amount anchor)
  then weight else 0%Q.

Definition referenceSignal (weight : Q) (anchor candidate : PlatformRecord) : Q :=
  match externalReference candidate with
  | Some r =>
      if bool_decide (r = sourceId anchor) || bool_decide (Some r = displayReference anchor)
      then weight else 0%Q
  | None => 0%Q
  end.

Definition hoursApart (anchor candidate : PlatformRecord) : Q :=
  (inject_Z (Z.abs (occurredAt anchor - occurredAt candidate)) / inject_Z 3600000)%Q.

Definition temporalSignal (weight window : Q) (anchor candidate : PlatformRecord) : Q :=
  (weight * Qmax 0 (1 - hoursApart anchor candidate / window))%Q.

Definition score (profile : MatchProfile) (anchor candidate : PlatformRecord) : Q :=
  (identitySignal (identity profile) anchor candidate +
   amountSignal (amountWeight profile) anchor candidate +
   referenceSignal (reference profile) anchor candidate +
   temporalSignal (temporal profile) (windowHours profile) anchor candidate)%Q.

(** The two profiles of the reference configuration. *)
Definition paymentGateway : MatchProfile :=
  {| identity := 40; amountWeight := 40; reference := 0; temporal := 20; windowHours := 24 |}.

Definition orderManagement : MatchProfile :=
  {| identity := 0; amountWeight := 30; reference := 60; temporal := 10; windowHours := 48 |}.

End Scorer.

(** An optional string as the comparison-ready record has it: a stored
    empty string counts as absent, as it does for the service's guards. *)
Definition present (s : option string) : option string :=
  if truthy s then s else None.

Definition anchorOf (o : ShopifyOrder) : Scorer.PlatformRecord :=
  {| Scorer.sourceId := shopifyOrderId o;
     Scorer.displayReference := Some (shopifyOrderNumber o);
     Scorer.counterpartyIdentifier := present (so_email o);
     Scorer.externalReference := None;
     Scorer.amount := totalPrice o;
     Scorer.occurredAt := so_createdAt o |}.

Definition candidateOfPayment (p : RazorpayPayment) : Scorer.PlatformRecord :=
  {| Scorer.sourceId := rp_id p;
     Scorer.displayReference := None;
     Scorer.counterpartyIdentifier := present (rp_email p);
     Scorer.externalReference := None;
     Scorer.amount := amount p;
     Scorer.occurredAt := rp_createdAt p |}.

Definition candidateOfEasyecom (e : EasyecomOrder) : Scorer.PlatformRecord :=
  {| Scorer.sourceId := eo_id e;
     Scorer.displayReference := None;
     Scorer.counterpartyIdentifier := None;
     Scorer.externalReference := present (marketplaceOrderId e);
     Scorer.amount := totalAmount e;
     Scorer.occurredAt := eo_createdAt e |}.

(** The outcomes of the loop over the orders: one [findMatches] per order,
    each against the full lists of candidates. *)
Definition orderOutcomes (os : list ShopifyOrder) (ps : list RazorpayPayment)
    (es : list EasyecomOrder) : list MatchResult :=
  (fun o => findMatches o ps es) <$> os.

(** The outcomes that carry a Shopify order: the primary outcomes. *)
Definition primaryOutcomes (ms : list MatchResult) : list MatchResult :=
  filter (fun m => is_Some (mr_shopifyOrderId m)) ms.

(** The outcomes without a Shopify order: the orphans. *)
Definition orphanOutcomes (ms : list MatchResult) : list MatchResult :=
  filter (fun m => mr_shopifyOrderId m = None) ms.

(** [id] is the value some outcome of [ms] has in the field [field]. *)
Definition referenced (field : MatchResult -> option string)
    (ms : list MatchResult) (id : string) : Prop :=
  Exists (fun m => field m = Some id) ms.

#[global] Instance referenced_dec field ms id : Decision (referenced field ms id).
Proof. unfold referenced. apply _. Defined.


Definition completedEntry (run : string) (st : RunState) : ReconciliationLog :=
  {| runId := run; log_status := COMPLETED; recordsProcessed := length (matches st);
     recordsMatched := matchedCount st; recordsUnmatched := unmatchedCount st;
     errors := None |}.

(** A run with one order, fully paid, and shipped at a higher amount. *)
Definition sample_env : Collaborators :=
  {| shopify_syncOrders := fun _ _ => None;
     razorpay_syncPayments := fun _ _ => None;
     easyecom_syncOrders := fun _ _ => None;
     shopify_getLocalOrders := fun _ _ => [sample_order];
     razorpay_getLocalPayments := fun _ _ => [sample_payment];
     easyecom_getLocalOrders := fun _ _ => [sample_easyecom];
     reconciliation_create := fun _ _ => None |}.

Definition emptyWorld : World :=
  {| reconciliationLog := []; reconciliation := []; calls := [] |}.

(** A second order that the same payment fits as well, and a run of two
    orders over one payment, one matching and one foreign
    order-management order. *)
Definition second_order : ShopifyOrder :=
  {| so_id := "so_2"; shopifyOrderId := "5002"; shopifyOrderNumber := "1002";
     so_email := Some "ann@example.com"; totalPrice := 2000; so_createdAt := 60000 |}.

Definition contested_env : Collaborators :=
  {| shopify_syncOrders := fun _ _ => None;
     razorpay_syncPayments := fun _ _ => None;
     easyecom_syncOrders := fun _ _ => None;
     shopify_getLocalOrders := fun _ _ => [sample_order; second_order];
     razorpay_getLocalPayments := fun _ _ => [sample_payment];
     easyecom_getLocalOrders := fun _ _ => [sample_easyecom; stranger_easyecom];
     reconciliation_create := fun _ _ => None |}.

(** First-come claiming as the specification states it, for the payments:
    of the orders that score above 0 against a payment, the first in input
    order references it, every later one has no payment, and the payment
    is no orphan. *)
Definition firstComeClaiming (os : list ShopifyOrder) (ps : list RazorpayPayment)
    (es : list EasyecomOrder) : Prop :=
  forall (p : RazorpayPayment) (i j : nat) (oi oj : ShopifyOrder),
    p ∈ ps -> os !! i = Some oi -> os !! j = Some oj -> i < j ->
    (0 < razorpayConfidence oi p)%Q -> (0 < razorpayConfidence oj p)%Q ->
    (forall k ok, k < i -> os !! k = Some ok -> ~ (0 < razorpayConfidence ok p)%Q) ->
    razorpayPaymentId <$> matches (computeMatches os ps es) !! i = Some (Some (rp_id p)) /\
    razorpayPaymentId <$> matches (computeMatches os ps es) !! j = Some None /\
    ~ referenced razorpayPaymentId (orphanOutcomes (matches (computeMatches os ps es))) (rp_id p).

(** Rejection before any I/O, as the specification states it: the call
    throws and leaves the tables and the collaborators untouched. *)
Definition rejectedBeforeIO (env : Collaborators) (now startDate endDate : Z) (w : World)
    : Prop :=
  exists message, reconcile env now startDate endDate w = (inl message, w).


(** A run over two unclaimed secondary records whose second [create]
    rejects. *)
Definition failing_env : Collaborators :=
  {| shopify_syncOrders := fun _ _ => None;
     razorpay_syncPayments := fun _ _ => None;
     easyecom_syncOrders := fun _ _ => None;
     shopify_getLocalOrders := fun _ _ => [];
     razorpay_getLocalPayments := fun _ _ => [stranger_payment];
     easyecom_getLocalOrders := fun _ _ => [stranger_easyecom];
     reconciliation_create := fun rows _ =>
       if decide (length rows = 1) then Some "connection lost" else None |}.

(** ** The selection loop, once for both selectors *)

(** One iteration of the loop of either selector, for the confidence [f]
    of a candidate. *)
Definition selectStep {A : Type} (f : A -> Q) (best : option A * Q) (candidate : A)
    : option A * Q :=
  if Qlt_bool best.2 (f candidate) then (Some candidate, f candidate) else best.

(** What the loop has established after the candidates [l]. *)
Definition bestSoFar {A : Type} (f : A -> Q) (l : list A) (best : option A * Q) : Prop :=
  (0 <= best.2)%Q /\
  (forall y, y ∈ l -> (f y <= best.2)%Q) /\
  match best.1 with
  | None => best.2 = 0%Q
  | Some x =>
      exists i, l !! i = Some x /\ best.2 = f x /\ (0 < f x)%Q /\
                forall j y, j < i -> l !! j = Some y -> (f y < f x)%Q
  end.



(** A run during which the payment gateway cannot be reached. *)
Definition offline_env : Collaborators :=
  {| shopify_syncOrders := fun _ _ => None;
     razorpay_syncPayments := fun _ _ => Some "getaddrinfo ENOTFOUND api.razorpay.com";
     easyecom_syncOrders := fun _ _ => None;
     shopify_getLocalOrders := fun _ _ => [sample_order];
     razorpay_getLocalPayments := fun _ _ => [];
     easyecom_getLocalOrders := fun _ _ => [];
     reconciliation_create := fun _ _ => None |}.

(** ** razorpay.service.ts: fetching and storing payments

    The Razorpay API is a collaborator: [api] maps the query parameters of
    one [GET /payments] to the message of a failed request or to the items
    of the response.  The table [razorpayPayment] is a finite map from
    [razorpayId], the key of the upsert, to the columns [savePayment]
    writes (the generated id and [rawData] are left out); [rejects] tells
    which upserts the database rejects.  The [while (true)] loop runs on
    fuel. *)
Module RazorpayService.

(** interface RazorpayPaymentData *)
Record RazorpayPaymentData : Type := {
  id : string;
  entity : string;
  amount : Q;                (* in paise *)
  currency : string;
  status : string;
  order_id : option string;
  method : string;
  email : string;
  contact : string;
  created_at : Z             (* in seconds *)
}.

(** The parameter object of [fetchPayments]. *)
Record FetchParams : Type := {
  from : option Z;
  to : option Z;
  count : option nat;
  skip : option nat
}.

(** The query parameters sent. *)
Record Query : Type := {
  q_count : nat;
  q_skip : nat;
  q_from : option Z;
  q_to : option Z
}.

(** A row of [razorpayPayment], by the columns of the upsert. *)
Record Row : Type := {
  razorpayId : string;
  row_orderId : option string;
  row_amount : Q;
  row_currency : string;
  row_status : string;
  row_method : string;
  row_email : string;
  row_contact : string;
  row_createdAt : Z          (* in milliseconds *)
}.

(** [params.from] as a condition: present, and not 0. *)
Definition truthyNumber (n : option Z) : bool :=
  match n with
  | Some z => negb (z =? 0)%Z
  | None => false
  end.

Definition fetchPayments (api : Query -> string + list RazorpayPaymentData)
    (params : FetchParams) : string + list RazorpayPaymentData :=
  let queryParams :=
    {| q_count := match count params with Some (S n) => S n | _ => 100 end;
       q_skip := match skip params with Some (S n) => S n | _ => 0 end;
       q_from := if truthyNumber (from params) then from params else None;
       q_to := if truthyNumber (to params) then to params else None |} in
  api queryParams.

(** The pagination loop of [syncPayments]; [None] when the fuel runs out. *)
Fixpoint fetchAllPayments (api : Query -> string + list RazorpayPaymentData)
    (fromTimestamp toTimestamp : Z) (fuel : nat) (skip : nat)
    (allPayments : list RazorpayPaymentData)
    : option (string + list RazorpayPaymentData) :=
  match fuel with
  | 0 => None
  | S fuel' =>
      match fetchPayments api {| from := Some fromTimestamp; to := Some toTimestamp;
                                 count := Some 100; skip := Some skip |} with
      | inl message => Some (inl message)
      | inr payments =>
          if decide (length payments = 0) then Some (inr allPayments)
          else
            let allPayments := allPayments ++ payments in
            let skip := skip + 100 in
            if decide (length payments < 100) then Some (inr allPayments)
            else fetchAllPayments api fromTimestamp toTimestamp fuel' skip allPayments
      end
  end.

(** The columns [savePayment] writes, the same on update and on create. *)
Definition toRow (paymentData : RazorpayPaymentData) : Row :=
  {| razorpayId := id paymentData;
     row_orderId := order_id paymentData;
     row_amount := (amount paymentData / 100)%Q;
     row_currency := currency paymentData;
     row_status := status paymentData;
     row_method := method paymentData;
     row_email := email paymentData;
     row_contact := contact paymentData;
     row_createdAt := (created_at paymentData * 1000)%Z |}.

Definition savePayment (rejects : gmap string Row -> Row -> option string)
    (paymentData : RazorpayPaymentData) (table : gmap string Row)
    : (string + unit) * gmap string Row :=
  match rejects table (toRow paymentData) with
  | Some message => (inl message, table)
  | None => (inr (), <[id paymentData := toRow paymentData]> table)
  end.

(** [for (const payment of allPayments) { await this.savePayment(payment);
    syncedCount++; }] *)
Fixpoint saveAllPayments (rejects : gmap string Row -> Row -> option string)
    (allPayments : list RazorpayPaymentData) (syncedCount : nat) (table : gmap string Row)
    : (string + nat) * gmap string Row :=
  match allPayments with
  | [] => (inr syncedCount, table)
  | payment :: rest =>
      match savePayment rejects payment table with
      | (inl message, table') => (inl message, table')
      | (inr _, table') => saveAllPayments rejects rest (S syncedCount) table'
      end
  end.

Definition syncPayments (api : Query -> string + list RazorpayPaymentData)
    (rejects : gmap string Row -> Row -> option string)
    (fuel : nat) (startDate endDate : Z) (table : gmap string Row)
    : option ((string + nat) * gmap string Row) :=
  let fromTimestamp := (startDate / 1000)%Z in
  let toTimestamp := (endDate / 1000)%Z in
  match fetchAllPayments api fromTimestamp toTimestamp fuel 0 [] with
  | None => None
  | Some (inl message) => Some (inl message, table)
  | Some (inr allPayments) => Some (saveAllPayments rejects allPayments 0 table)
  end.

(** A Razorpay account that holds the payments [remote] and serves them in
    slices of the requested size. *)
Definition serves (remote : list RazorpayPaymentData)
    (api : Query -> string + list RazorpayPaymentData) : Prop :=
  forall q, api q = inr (take (q_count q) (drop (q_skip q) remote)).

Definition slices (remote : list RazorpayPaymentData) (q : Query)
    : string + list RazorpayPaymentData :=
  inr (take (q_count q) (drop (q_skip q) remote)).

Definition neverRejects (table : gmap string Row) (row : Row) : option string := None.

Definition payment (n : nat) : RazorpayPaymentData :=
  {| id := "pay_" +:+ pretty n; entity := "payment"; amount := 199900; currency := "INR";
     status := "captured"; order_id := None; method := "upi"; email := "ann@example.com";
     contact := "+910000000000"; created_at := 1700000000 + Z.of_nat n |}.

(** An account whose first page is full and whose later requests time
    out. *)
Definition flaky (q : Query) : string + list RazorpayPaymentData :=
  if decide (q_skip q < 100) then inr (payment <$> seq 0 100)
  else inl "timeout of 30000ms exceeded".

End RazorpayService.

(** ** The Shopify service with cursor pagination: the Link header

    [extractNextPageInfo] of the paginating Shopify service, with the three
    string operations it uses. *)
Module ShopifyService.

(** [s.startsWith(pattern)] *)
Fixpoint startsWith (pattern s : string) : bool :=
  match pattern, s with
  | EmptyString, _ => true
  | String _ _, EmptyString => false
  | String a pattern', String b s' => Ascii.eqb a b && startsWith pattern' s'
  end.

(** [s.includes(pattern)] *)
Fixpoint includes (pattern s : string) : bool :=
  startsWith pattern s ||
  match s with
  | EmptyString => false
  | String _ s' => includes pattern s'
  end.

(** [s.split(separator)] for a separator of one character: a string with
    n separators has n + 1 pieces, empty ones included. *)
Fixpoint split (separator : ascii) (s : string) : list string :=
  match s with
  | EmptyString => [EmptyString]
  | String c s' =>
      if Ascii.eqb c separator then EmptyString :: split separator s'
      else match split separator s' with
           | piece :: pieces => String c piece :: pieces
           | [] => [String c EmptyString]
           end
  end.

(** The longest prefix of [s] without [&] and [>]: what [[^&>]+] takes. *)
Fixpoint takeValue (s : string) : string :=
  match s with
  | EmptyString => EmptyString
  | String c s' =>
      if Ascii.eqb c "&" || Ascii.eqb c ">" then EmptyString
      else String c (takeValue s')
  end.

Fixpoint dropChars (n : nat) (s : string) : string :=
  match n, s with
  | 0, _ => s
  | S _, EmptyString => EmptyString
  | S n', String _ s' => dropChars n' s'
  end.

(** [link.match(/page_info=([^&>]+)/)]: the group of the leftmost match,
    the leftmost place where [page_info=] is followed by at least one
    character other than [&] and [>]. *)
Fixpoint matchPageInfo (link : string) : option string :=
  let here :=
    if startsWith "page_info=" link then takeValue (dropChars 10 link) else EmptyString in
  match here with
  | String _ _ => Some here
  | EmptyString =>
      match link with
      | EmptyString => None
      | String _ link' => matchPageInfo link'
      end
  end.

(** The double quote, and the text [rel="next"]. *)
Definition quote : string := String (ascii_of_nat 34) EmptyString.
Definition relNext : string := "rel=" +:+ quote +:+ "next" +:+ quote.

(** The loop over the links. *)
Fixpoint firstNextPageInfo (links : list string) : option string :=
  match links with
  | [] => None
  | link :: rest =>
      if includes relNext link then
        match matchPageInfo link with
        | Some pageInfo => Some pageInfo
        | None => firstNextPageInfo rest
        end
      else firstNextPageInfo rest
  end.

Definition extractNextPageInfo (linkHeader : option string) : option string :=
  if truthy linkHeader then
    match linkHeader with
    | Some header => firstNextPageInfo (split "," header)
    | None => None
    end
  else None.

(** No character of [s] satisfies [bad]. *)
Fixpoint free (bad : ascii -> bool) (s : string) : bool :=
  match s with
  | EmptyString => true
  | String c s' => negb (bad c) && free bad s'
  end.

(** The Link header of a page that has a next page: [url] up to the cursor
    parameter, then the cursor. *)
Definition nextLink (url cursor : string) : string :=
  url +:+ "page_info=" +:+ cursor +:+ ">; " +:+ relNext.

(** *** [fetchOrders], the loop over the pages

    The Shopify API is a collaborator: [get] maps the query parameters of a
    [GET /orders.json] to the message of a failed request or to the orders
    and the Link header of the response.  The dates of the filters stand
    for their ISO strings.  The [do ... while (pageInfo)] loop runs on
    fuel. *)

(** interface ShopifyOrderData *)
Record ShopifyOrderData : Type := {
  id : Z;
  order_number : Z;
  email : string;
  total_price : string;
  currency : string;
  financial_status : string;
  fulfillment_status : option string;
  created_at : string;
  updated_at : string
}.

(** The parameter object of [fetchOrders]. *)
Record FetchParams : Type := {
  createdAtMin : option Z;
  createdAtMax : option Z;
  limit : option nat;
  status : option string
}.

(** The query parameters sent. *)
Record Query : Type := {
  q_limit : nat;
  q_status : string;
  created_at_min : option Z;
  created_at_max : option Z;
  page_info : option string
}.

(** [response.data.orders] and [response.headers['link']]. *)
Record Response : Type := {
  orders : option (list ShopifyOrderData);
  link : option string
}.

(** One turn of the loop decides the query from [pageInfo]. *)
Definition queryParams (baseParams : Query) (pageInfo : option string) : Query :=
  if truthy pageInfo then
    {| q_limit := q_limit baseParams;
       q_status := q_status baseParams;
       created_at_min := None;
       created_at_max := None;
       page_info := pageInfo |}
  else baseParams.

Fixpoint fetchPages (get : Query -> string + Response) (baseParams : Query) (fuel : nat)
    (allOrders : list ShopifyOrderData) (pageInfo : option string)
    : option (string + list ShopifyOrderData) :=
  match fuel with
  | 0 => None
  | S fuel' =>
      match get (queryParams baseParams pageInfo) with
      | inl message => Some (inl message)
      | inr response =>
          let fetched := default [] (orders response) in
          let allOrders := allOrders ++ fetched in
          let pageInfo := extractNextPageInfo (link response) in
          let pageInfo :=
            if decide (length fetched < q_limit baseParams) then None else pageInfo in
          if truthy pageInfo then fetchPages get baseParams fuel' allOrders pageInfo
          else Some (inr allOrders)
      end
  end.

Definition fetchOrders (get : Query -> string + Response) (params : FetchParams) (fuel : nat)
    : option (string + list ShopifyOrderData) :=
  let baseParams :=
    {| q_limit := match limit params with Some (S n) => S n | _ => 250 end;
       q_status := if truthy (status params) then default "any" (status params) else "any";
       created_at_min := createdAtMin params;
       created_at_max := createdAtMax params;
       page_info := None |} in
  fetchPages get baseParams fuel [] None.

(** A shop that serves [first] for a query without cursor and the pages of
    [more] under their cursors, each with a Link header that names the
    cursor of the page after it, if there is one. *)
Definition pageOf (url : string) (page : list ShopifyOrderData) (next : option string)
    : Response :=
  {| orders := Some page; link := nextLink url <$> next |}.

Fixpoint serveCursor (url : string) (more : list (string * list ShopifyOrderData))
    (cursor : string) : string + Response :=
  match more with
  | [] => inl "Request failed with status code 400"
  | (c, page) :: rest =>
      if decide (c = cursor) then inr (pageOf url page (fst <$> head rest))
      else serveCursor url rest cursor
  end.

Definition shop (url : string) (first : list ShopifyOrderData)
    (more : list (string * list ShopifyOrderData)) (q : Query) : string + Response :=
  match page_info q with
  | None => inr (pageOf url first (fst <$> head more))
  | Some cursor => serveCursor url more cursor
  end.

(** A cursor the Link header can carry. *)
Definition cursorOk (cursor : string) : Prop :=
  cursor <> "" /\
  free (fun c => Ascii.eqb c "&" || Ascii.eqb c ">" || Ascii.eqb c ",") cursor = true.

Definition order (n : nat) : ShopifyOrderData :=
  {| id := 5000 + Z.of_nat n; order_number := 1000 + Z.of_nat n; email := "ann@example.com";
     total_price := "1999.00"; currency := "INR"; financial_status := "paid";
     fulfillment_status := None; created_at := "2025-10-01T10:00:00+05:30";
     updated_at := "2025-10-01T10:00:00+05:30" |}.

End ShopifyService.

(** ** The Easyecom service: the token and [fetchOrders]

    The Easyecom API is a collaborator: [post] answers the token request
    sent to an endpoint, [get] the order request sent with a bearer token.
    An error carries its message and, when the server answered, the status
    of the response.  The client keeps the token and its expiry;
    [requests] records the requests sent, in order.  One call reads the
    clock once ([now]). *)
Module EasyecomService.

Record HttpError : Type := {
  message : string;
  responseStatus : option nat         (* error.response?.status *)
}.

(** interface AuthResponse, by the two properties read. *)
Record AuthResponse : Type := {
  token : option string;
  access_token : option string
}.

(** interface EasyecomOrderData *)
Record EasyecomOrderData : Type := {
  order_id : string;
  reference_number : string;
  marketplace_order_id : string;
  total_amount : Q;
  currency : string;
  status : string;
  payment_status : string;
  created_at : string;
  updated_at : string
}.

(** The parameter object of [fetchOrders]. *)
Record FetchParams : Type := {
  startDate : option string;
  endDate : option string;
  limit : option nat;
  offset : option nat
}.

(** The query parameters sent. *)
Record Query : Type := {
  q_limit : nat;
  q_offset : nat;
  start_date : option string;
  end_date : option string
}.

Inductive Request : Type :=
  | Post (endpoint : string)
  | Get (bearer : string) (query : Query).

Record Client : Type := {
  authToken : option string;
  tokenExpiry : option Z;
  requests : list Request
}.

Definition sent (r : Request) (client : Client) : Client :=
  {| authToken := authToken client; tokenExpiry := tokenExpiry client;
     requests := requests client ++ [r] |}.

Definition authEndpoints : list string := ["/access/token"; "/token"; "/api/token"].

Definition newline : string := String (ascii_of_nat 10) EmptyString.

(** The message of the error thrown when no endpoint gave a token. *)
Definition authenticationFailed (email : string) : string :=
  "Easyecom authentication failed. Please verify:" +:+ newline +:+
  "1. EASYECOM_EMAIL is correct (" +:+ email +:+ ")" +:+ newline +:+
  "2. EASYECOM_PASSWORD is correct" +:+ newline +:+
  "3. EASYECOM_LOCATION_KEY is correct (get from Location Master page)" +:+ newline +:+
  "4. EASYECOM_API_KEY is set (x-api-key from primary account settings)" +:+ newline +:+
  "5. Your account has API access enabled" +:+ newline +:+
  "Contact Easyecom support at care@easyecom.io for assistance.".

(** [response.data.token || response.data.access_token] *)
Definition tokenOf (response : AuthResponse) : option string :=
  if truthy (token response) then token response else access_token response.

(** The loop of [authenticate] over the endpoints. *)
Fixpoint tryEndpoints (post : string -> HttpError + AuthResponse) (now : Z)
    (endpoints : list string) (client : Client) : option string * Client :=
  match endpoints with
  | [] => (None, client)
  | endpoint :: rest =>
      let client := sent (Post endpoint) client in
      match post endpoint with
      | inr response =>
          if truthy (tokenOf response) then
            (tokenOf response,
             {| authToken := tokenOf response;
                tokenExpiry := Some (now + 90 * 24 * 60 * 60 * 1000)%Z;
                requests := requests client |})
          else tryEndpoints post now rest client
      | inl _ => tryEndpoints post now rest client
      end
  end.

Definition authenticate (post : string -> HttpError + AuthResponse) (email : string)
    (now : Z) (client : Client) : (HttpError + string) * Client :=
  match tryEndpoints post now authEndpoints client with
  | (Some token, client') => (inr token, client')
  | (None, client') =>
      (inl {| message := authenticationFailed email; responseStatus := None |}, client')
  end.

Definition getValidToken (post : string -> HttpError + AuthResponse) (email : string)
    (now : Z) (client : Client) : (HttpError + string) * Client :=
  match authToken client, tokenExpiry client with
  | Some token, Some expiry =>
      if truthy (Some token) && bool_decide (now < expiry)%Z then (inr token, client)
      else authenticate post email now client
  | _, _ => authenticate post email now client
  end.

(** The endpoint fails or answers without a token. *)
Definition givesNoToken (post : string -> HttpError + AuthResponse) (endpoint : string)
    : Prop :=
  forall response, post endpoint = inr response -> truthy (tokenOf response) = false.

(** [getAuthHeaders], by the bearer token of the headers. *)
Definition getAuthHeaders (post : string -> HttpError + AuthResponse) (email : string)
    (now : Z) (client : Client) : (HttpError + string) * Client :=
  getValidToken post email now client.

(** [getAuthHeaders] followed by the GET, as the [try] block and the retry
    have it; the result is [response.data.data || []]. *)
Definition request (post : string -> HttpError + AuthResponse)
    (get : string -> Query -> HttpError + option (list EasyecomOrderData))
    (email : string) (now : Z) (queryParams : Query) (client : Client)
    : (HttpError + list EasyecomOrderData) * Client :=
  match getAuthHeaders post email now client with
  | (inl error, client') => (inl error, client')
  | (inr bearer, client') =>
      let client' := sent (Get bearer queryParams) client' in
      match get bearer queryParams with
      | inl error => (inl error, client')
      | inr data => (inr (default [] data), client')
      end
  end.

Definition fetchOrders (post : string -> HttpError + AuthResponse)
    (get : string -> Query -> HttpError + option (list EasyecomOrderData))
    (email : string) (now : Z) (params : FetchParams) (client : Client)
    : (HttpError + list EasyecomOrderData) * Client :=
  let queryParams :=
    {| q_limit := match limit params with Some (S n) => S n | _ => 100 end;
       q_offset := match offset params with Some (S n) => S n | _ => 0 end;
       start_date := if truthy (startDate params) then startDate params else None;
       end_date := if truthy (endDate params) then endDate params else None |} in
  match request post get email now queryParams client with
  | (inr orders, client') => (inr orders, client')
  | (inl error, client') =>
      (* If 401 Unauthorized, clear token and retry once *)
      if bool_decide (responseStatus error = Some 401) && truthy (authToken client') then
        request post get email now queryParams
          {| authToken := None; tokenExpiry := None; requests := requests client' |}
      else (inl error, client')
  end.

(** A server on which the token [stale] has been revoked: it answers 401
    to it, hands out [fresh] at the first endpoint and serves [orders] to
    it. *)
Definition revokedPost (fresh : string) (endpoint : string) : HttpError + AuthResponse :=
  inr {| token := Some fresh; access_token := None |}.

Definition revokedGet (stale : string) (orders : list EasyecomOrderData)
    (bearer : string) (query : Query) : HttpError + option (list EasyecomOrderData) :=
  if decide (bearer = stale)
  then inl {| message := "Request failed with status code 401"; responseStatus := Some 401 |}
  else inr (Some orders).

Definition signedOut : Client :=
  {| authToken := None; tokenExpiry := None; requests := [] |}.

(** The client after it signed in at time 1000 and was given [jwt-2]. *)
Definition signedIn : Client :=
  {| authToken := Some "jwt-2"; tokenExpiry := Some (1000 + 7776000000)%Z;
     requests := [Post "/access/token"] |}.

End EasyecomService.

(** * The callers of [reconcile]: the POST /run route and the scheduler *)

Module ReconciliationRoutes.

(** What the route takes from its host: what [new Date(s)] makes of a string
    ([None] is an Invalid Date), [config.reconciliation.lookbackDays], and
    the calendar step [d.setDate(d.getDate() - days)] on the date [d], which
    depends on the time zone of the host ([None] is an Invalid Date). *)
Record Host : Type := {
  parse : string -> option Z;
  configLookbackDays : Z;
  setDateBack : Z -> Z -> option Z
}.

(** The three properties the route reads from [req.body]; dates are strings
    and the number of days is an integer. *)
Record RunBody : Type := {
  startDate : option string;
  endDate : option string;
  lookbackDays : option Z
}.

(** [res.json({ success: true, runId, ... })] and
    [res.status(500).json({ success: false, error })]. *)
Inductive Reply : Type :=
  | Success (runId : string)
  | Failure (error : string).

Definition truthyDays (n : option Z) : bool :=
  match n with
  | Some n => negb (n =? 0)%Z
  | None => false
  end.

(** [start] and [end] as the route computes them; [endNow] and [startNow]
    are the two readings of the clock, in the order of the code. *)
Definition range (host : Host) (endNow startNow : Z) (body : RunBody) : option Z * option Z :=
  match startDate body, endDate body with
  | Some s, Some e =>
      if truthy (Some s) && truthy (Some e) then (parse host s, parse host e)
      else
        let days := if truthyDays (lookbackDays body) then default 0%Z (lookbackDays body)
                    else configLookbackDays host in
        (setDateBack host startNow days, Some endNow)
  | _, _ =>
      let days := if truthyDays (lookbackDays body) then default 0%Z (lookbackDays body)
                  else configLookbackDays host in
      (setDateBack host startNow days, Some endNow)
  end.

(** The handler of POST /run. [toISOString] in the log line throws
    "Invalid time value" on an Invalid Date, inside the [try]. *)
Definition run (host : Host) (env : Collaborators) (endNow startNow runNow : Z)
    (body : RunBody) (w : World) : Reply * World :=
  match range host endNow startNow body with
  | (Some start, Some end_) =>
      match reconcile env runNow start end_ w with
      | (inr runId, w') => (Success runId, w')
      | (inl message, w') => (Failure message, w')
      end
  | _ => (Failure "Invalid time value", w)
  end.

(** A host in UTC that knows two dates. *)
Definition utc : Host :=
  {| parse := fun s =>
       if decide (s = "2025-10-01") then Some 1759276800000%Z
       else if decide (s = "2025-10-08") then Some 1759881600000%Z
       else None;
     configLookbackDays := 7;
     setDateBack := fun t days => Some (t - days * 86400000)%Z |}.

End ReconciliationRoutes.

Module Scheduler.

(** The task the scheduler runs at each tick. With an Invalid Date
    [reconcile] throws at its first log line, before its [try]; the task
    catches and logs whatever is thrown. *)
Definition tick (host : ReconciliationRoutes.Host) (env : Collaborators)
    (endNow startNow runNow : Z) (w : World) : World :=
  match ReconciliationRoutes.setDateBack host startNow
          (ReconciliationRoutes.configLookbackDays host) with
  | Some startDate => (reconcile env runNow startDate endNow w).2
  | None => w
  end.

End Scheduler.

(** * Properties *)

(** ** Comparisons of numbers *)

Lemma Qlt_bool_iff (x y : Q) : Qlt_bool x y = true <-> (x < y)%Q.
Proof.
  unfold Qlt_bool. rewrite negb_true_iff. split.
  - intros H. apply Qnot_le_lt. intros Hle.
    apply Qle_bool_iff in Hle. congruence.
  - intros H. destruct (Qle_bool y x) eqn:E; [|reflexivity].
    apply Qle_bool_iff in E. exfalso. eapply Qlt_not_le; eassumption.
Qed.

Lemma Qle_bool_false (x y : Q) : Qle_bool x y = false <-> ~ (x <= y)%Q.
Proof.
  rewrite <- Qle_bool_iff. destruct (Qle_bool x y); split; congruence.
Qed.

Lemma Qlt_bool_false (x y : Q) : Qlt_bool x y = false <-> ~ (x < y)%Q.
Proof.
  rewrite <- Qlt_bool_iff. destruct (Qlt_bool x y); split; congruence.
Qed.

Ltac reflect_Q :=
  repeat match goal with
  | H : Qle_bool _ _ = true |- _ => apply Qle_bool_iff in H
  | H : Qle_bool _ _ = false |- _ => apply Qle_bool_false in H
  | H : Qlt_bool _ _ = true |- _ => apply Qlt_bool_iff in H
  | H : Qlt_bool _ _ = false |- _ => apply Qlt_bool_false in H
  end.

(** The cascade of [determineStatus] is the specification's cascade. *)
Lemma determineStatus_cascade (c d : Q) : cascade c d (determineStatus c d).1.
Proof.
  unfold determineStatus.
  destruct (Qle_bool 80 c) eqn:E1, (Qlt_bool d 1) eqn:E2;
    destruct (Qle_bool 50 c) eqn:E3, (Qlt_bool d 10) eqn:E4;
    destruct (Qle_bool 10 d) eqn:E5; simpl; reflect_Q;
    solve [ constructor; tauto ].
Qed.

Lemma determineStatus_discrepancy (c d : Q) :
  (10 <= d)%Q -> (determineStatus c d).1 = DISCREPANCY.
Proof.
  intros Hd. unfold determineStatus.
  assert (Qlt_bool d 1 = false) as ->.
  { apply Qlt_bool_false. intros H. lra. }
  assert (Qlt_bool d 10 = false) as ->.
  { apply Qlt_bool_false. intros H. lra. }
  assert (Qle_bool 10 d = true) as -> by (by apply Qle_bool_iff).
  rewrite !andb_false_r. reflexivity.
Qed.

Lemma findMatches_status (o : ShopifyOrder) (ps : list RazorpayPayment)
    (es : list EasyecomOrder) (d : Q) :
  amountDifference (findMatches o ps es) = Some d ->
  status (findMatches o ps es) = (determineStatus (matchConfidence (findMatches o ps es)) d).1.
Proof.
  unfold findMatches. cbn [amountDifference status matchConfidence].
  intros [= <-]. reflexivity.
Qed.

(** C2. Every outcome [findMatches] produces with [matchConfidence >= 80]
    and [amountDifference >= 10] has status DISCREPANCY (not MATCHED), and
    its status is the one the cascade "rule 1, rule 2, rule 3, otherwise
    UNMATCHED" selects, first applicable rule first. *)
Theorem high_confidence_large_gap_is_discrepancy
    (o : ShopifyOrder) (ps : list RazorpayPayment) (es : list EasyecomOrder) (d : Q) :
  (80 <= matchConfidence (findMatches o ps es))%Q ->
  amountDifference (findMatches o ps es) = Some d ->
  (10 <= d)%Q ->
  status (findMatches o ps es) = DISCREPANCY /\
  status (findMatches o ps es) <> MATCHED /\
  cascade (matchConfidence (findMatches o ps es)) d (status (findMatches o ps es)).
Proof.
  intros _ Hd Hgap.
  rewrite (findMatches_status _ _ _ _ Hd).
  split; [|split].
  - by apply determineStatus_discrepancy.
  - rewrite determineStatus_discrepancy by done. discriminate.
  - apply determineStatus_cascade.
Qed.

Lemma high_confidence_large_gap_is_discrepancy_witness :
  status (findMatches sample_order [sample_payment] [sample_easyecom]) = DISCREPANCY /\
  status (findMatches sample_order [sample_payment] [sample_easyecom]) <> MATCHED /\
  cascade (matchConfidence (findMatches sample_order [sample_payment] [sample_easyecom]))
          15 (status (findMatches sample_order [sample_payment] [sample_easyecom])).
Proof.
  apply (high_confidence_large_gap_is_discrepancy
           sample_order [sample_payment] [sample_easyecom] 15).
  - vm_compute. discriminate.
  - vm_compute. reflexivity.
  - vm_compute. discriminate.
Defined.

(** ** The best-match selectors *)

Lemma matchRazorpayPayment_all_zero (o : ShopifyOrder) (ps : list RazorpayPayment) :
  (forall p, p ∈ ps -> (razorpayConfidence o p == 0)%Q) ->
  matchRazorpayPayment o ps = (None, 0%Q).
Proof.
  unfold matchRazorpayPayment. induction ps as [|p ps IH]; intros Hz; [reflexivity|].
  cbn [fold_left].
  assert (Qlt_bool 0 (razorpayConfidence o p) = false) as ->.
  { apply Qlt_bool_false. rewrite (Hz p) by left. apply Qlt_irrefl. }
  apply IH. intros q Hq. apply Hz. by right.
Qed.

Lemma matchEasyecomOrder_all_zero (o : ShopifyOrder) (es : list EasyecomOrder) :
  (forall e, e ∈ es -> (easyecomConfidence o e == 0)%Q) ->
  matchEasyecomOrder o es = (None, 0%Q).
Proof.
  unfold matchEasyecomOrder. induction es as [|e es IH]; intros Hz; [reflexivity|].
  cbn [fold_left].
  assert (Qlt_bool 0 (easyecomConfidence o e) = false) as ->.
  { apply Qlt_bool_false. rewrite (Hz e) by left. apply Qlt_irrefl. }
  apply IH. intros q Hq. apply Hz. by right.
Qed.

(** C8. When the candidate list is empty or every candidate scores exactly
    0 against the anchor, each selector returns no match with confidence 0:
    a candidate of score 0 is never selected, also when it is alone. *)
Theorem zero_score_is_never_selected
    (o : ShopifyOrder) (ps : list RazorpayPayment) (es : list EasyecomOrder) :
  (forall p, p ∈ ps -> (razorpayConfidence o p == 0)%Q) ->
  (forall e, e ∈ es -> (easyecomConfidence o e == 0)%Q) ->
  matchRazorpayPayment o ps = (None, 0%Q) /\
  matchEasyecomOrder o es = (None, 0%Q).
Proof.
  intros Hp He. split.
  - by apply matchRazorpayPayment_all_zero.
  - by apply matchEasyecomOrder_all_zero.
Qed.

Lemma zero_score_is_never_selected_witness :
  matchRazorpayPayment sample_order [stranger_payment] = (None, 0%Q) /\
  matchEasyecomOrder sample_order [stranger_easyecom] = (None, 0%Q).
Proof.
  apply (zero_score_is_never_selected sample_order [stranger_payment] [stranger_easyecom]).
  - intros p Hp. apply list_elem_of_singleton in Hp. subst p. vm_compute. reflexivity.
  - intros e He. apply list_elem_of_singleton in He. subst e. vm_compute. reflexivity.
Defined.

(** ** A primary without any match *)

Lemma determineStatus_nothing (d : Q) :
  (d == 0)%Q -> (determineStatus 0 d).1 = UNMATCHED.
Proof.
  intros Hd. unfold determineStatus.
  assert (Qle_bool 80 0 = false) as -> by reflexivity.
  assert (Qle_bool 50 0 = false) as -> by reflexivity.
  assert (Qle_bool 10 d = false) as ->.
  { apply Qle_bool_false. intros H. lra. }
  reflexivity.
Qed.

(** C10. A primary for which both selectors return no match yields an
    outcome with status UNMATCHED, confidence 0, both secondary ids absent
    and a present amount difference equal to 0 (the spread of the list
    holding the primary's amount alone); so it is never DISCREPANCY, and
    unlike an orphan its amount difference is defined. *)
Theorem unmatched_primary_outcome
    (o : ShopifyOrder) (ps : list RazorpayPayment) (es : list EasyecomOrder) :
  (matchRazorpayPayment o ps).1 = None ->
  (matchEasyecomOrder o es).1 = None ->
  status (findMatches o ps es) = UNMATCHED /\
  status (findMatches o ps es) <> DISCREPANCY /\
  matchConfidence (findMatches o ps es) = 0%Q /\
  razorpayPaymentId (findMatches o ps es) = None /\
  easyecomOrderId (findMatches o ps es) = None /\
  exists d, amountDifference (findMatches o ps es) = Some d /\ (d == 0)%Q.
Proof.
  intros Hp He. unfold findMatches. rewrite Hp, He.
  cbn [status matchConfidence razorpayPaymentId easyecomOrderId amountDifference
       fmap option_fmap option_map app Z.add Z.ltb Z.compare].
  unfold Math_max, Math_min. cbn [fold_left].
  assert ((totalPrice o - totalPrice o == 0)%Q) as Hz by ring.
  change (0 <? 0 + 0)%Z with false. cbv iota.
  rewrite (determineStatus_nothing _ Hz).
  repeat split; try discriminate.
  exists (totalPrice o - totalPrice o)%Q. by split.
Qed.

Lemma unmatched_primary_outcome_witness :
  status (findMatches sample_order [stranger_payment] []) = UNMATCHED /\
  status (findMatches sample_order [stranger_payment] []) <> DISCREPANCY /\
  matchConfidence (findMatches sample_order [stranger_payment] []) = 0%Q /\
  razorpayPaymentId (findMatches sample_order [stranger_payment] []) = None /\
  easyecomOrderId (findMatches sample_order [stranger_payment] []) = None /\
  exists d, amountDifference (findMatches sample_order [stranger_payment] []) = Some d /\
            (d == 0)%Q.
Proof.
  apply (unmatched_primary_outcome sample_order [stranger_payment] []).
  - vm_compute. reflexivity.
  - vm_compute. reflexivity.
Defined.

(** ** The pairwise scorer against its specification *)

Lemma hoursDiff_nonneg (t1 t2 : Z) : (0 <= hoursDiff t1 t2)%Q.
Proof.
  unfold hoursDiff. apply Qle_shift_div_l; [reflexivity|].
  rewrite Qmult_0_l. change 0%Q with (inject_Z 0). rewrite <- Zle_Qle. lia.
Qed.

(** The decayed temporal term of the service, [w * (1 - h / window)] inside
    the window and nothing outside, is [w * max 0 (1 - h / window)]. *)
Lemma temporal_term (w window h : Q) :
  (0 < window)%Q -> (0 <= h)%Q -> (0 <= w)%Q ->
  ((if Qle_bool h window then w * (1 - h / window) else 0) ==
     w * Qmax 0 (1 - h / window))%Q /\
  (0 <= w * Qmax 0 (1 - h / window) <= w)%Q.
Proof.
  intros Hwin Hh Hw.
  assert (Hdiv : (0 <= h / window)%Q).
  { apply Qle_shift_div_l; [done|]. by rewrite Qmult_0_l. }
  destruct (Qle_bool h window) eqn:E; reflect_Q.
  - assert (Hle : (h / window <= 1)%Q).
    { apply Qle_shift_div_r; [done|]. by rewrite Qmult_1_l. }
    assert (Hmax : (Qmax 0 (1 - h / window) == 1 - h / window)%Q).
    { apply Q.max_r. lra. }
    rewrite Hmax. split; [reflexivity|]. nra.
  - assert (Hlt : (1 < h / window)%Q).
    { apply Qlt_shift_div_l; [done|]. rewrite Qmult_1_l. by apply Qnot_le_lt. }
    assert (Hmax : (Qmax 0 (1 - h / window) == 0)%Q).
    { apply Q.max_l. lra. }
    rewrite Hmax. split; [ring|]. lra.
Qed.

Lemma identitySignal_payment (w : Q) (o : ShopifyOrder) (p : RazorpayPayment) :
  Scorer.identitySignal w (anchorOf o) (candidateOfPayment p) =
  if truthy (so_email o) && truthy (rp_email p) &&
     bool_decide (toLowerCase <$> so_email o = toLowerCase <$> rp_email p)
  then w else 0%Q.
Proof.
  unfold Scorer.identitySignal, anchorOf, candidateOfPayment, present.
  cbn [Scorer.counterpartyIdentifier].
  destruct (so_email o) as [[|a s]|], (rp_email p) as [[|b t]|]; cbn; try reflexivity.
  repeat case_bool_decide; congruence.
Qed.

Lemma identitySignal_easyecom (o : ShopifyOrder) (e : EasyecomOrder) :
  Scorer.identitySignal 0 (anchorOf o) (candidateOfEasyecom e) = 0%Q.
Proof.
  unfold Scorer.identitySignal. cbn [Scorer.counterpartyIdentifier candidateOfEasyecom].
  by destruct (Scorer.counterpartyIdentifier (anchorOf o)).
Qed.

Lemma referenceSignal_payment (w : Q) (o : ShopifyOrder) (p : RazorpayPayment) :
  Scorer.referenceSignal w (anchorOf o) (candidateOfPayment p) = 0%Q.
Proof. reflexivity. Qed.

Lemma referenceSignal_easyecom (w : Q) (o : ShopifyOrder) (e : EasyecomOrder) :
  Scorer.referenceSignal w (anchorOf o) (candidateOfEasyecom e) =
  if truthy (marketplaceOrderId e) &&
     (bool_decide (marketplaceOrderId e = Some (shopifyOrderId o)) ||
      bool_decide (marketplaceOrderId e = Some (shopifyOrderNumber o)))
  then w else 0%Q.
Proof.
  unfold Scorer.referenceSignal, anchorOf, candidateOfEasyecom, present.
  cbn [Scorer.externalReference Scorer.sourceId Scorer.displayReference].
  destruct (marketplaceOrderId e) as [[|a s]|]; cbn; try reflexivity.
  repeat case_bool_decide; simplify_eq; cbn; congruence.
Qed.

Lemma amountSignal_code (w x y : Q) :
  (if Qle_bool (Qabs (x - y)) ((1 # 100) * x) then w else 0%Q) =
  (if Qle_bool (Qabs (x - y)) (x * (1 # 100)) then w else 0%Q).
Proof.
  destruct (Qle_bool (Qabs (x - y)) ((1 # 100) * x)) eqn:E1,
           (Qle_bool (Qabs (x - y)) (x * (1 # 100))) eqn:E2;
    try reflexivity; reflect_Q; exfalso.
  - apply E2. by rewrite Qmult_comm.
  - apply E1. by rewrite Qmult_comm.
Qed.

Lemma razorpayConfidence_score (o : ShopifyOrder) (p : RazorpayPayment) :
  (razorpayConfidence o p ==
     Scorer.score Scorer.paymentGateway (anchorOf o) (candidateOfPayment p))%Q /\
  (0 <= razorpayConfidence o p <= 100)%Q.
Proof.
  unfold Scorer.score, Scorer.temporalSignal, Scorer.amountSignal.
  cbn [Scorer.paymentGateway Scorer.identity Scorer.amountWeight Scorer.reference
       Scorer.temporal Scorer.windowHours].
  rewrite identitySignal_payment, referenceSignal_payment.
  cbn [anchorOf candidateOfPayment Scorer.amount].
  rewrite amountSignal_code.
  unfold razorpayConfidence.
  change (Scorer.hoursApart (anchorOf o) (candidateOfPayment p))
    with (hoursDiff (so_createdAt o) (rp_createdAt p)).
  destruct (temporal_term 20 24 (hoursDiff (so_createdAt o) (rp_createdAt p)))
    as [Ht Hb]; [reflexivity | apply hoursDiff_nonneg | discriminate |].
  set (h := hoursDiff (so_createdAt o) (rp_createdAt p)) in *.
  set (m := Qmax 0 (1 - h / 24)) in *.
  set (q := (h / 24)%Q) in *.
  destruct (truthy (so_email o) && truthy (rp_email p) &&
            bool_decide (toLowerCase <$> so_email o = toLowerCase <$> rp_email p));
    destruct (Qle_bool (Qabs (totalPrice o - amount p)) (totalPrice o * (1 # 100)));
    destruct (Qle_bool h 24); cbv zeta; split; lra.
Qed.

Lemma easyecomConfidence_score (o : ShopifyOrder) (e : EasyecomOrder) :
  (easyecomConfidence o e ==
     Scorer.score Scorer.orderManagement (anchorOf o) (candidateOfEasyecom e))%Q /\
  (0 <= easyecomConfidence o e <= 100)%Q.
Proof.
  unfold Scorer.score, Scorer.temporalSignal, Scorer.amountSignal.
  cbn [Scorer.orderManagement Scorer.identity Scorer.amountWeight Scorer.reference
       Scorer.temporal Scorer.windowHours].
  rewrite identitySignal_easyecom, referenceSignal_easyecom.
  cbn [anchorOf candidateOfEasyecom Scorer.amount].
  rewrite amountSignal_code.
  unfold easyecomConfidence.
  change (Scorer.hoursApart (anchorOf o) (candidateOfEasyecom e))
    with (hoursDiff (so_createdAt o) (eo_createdAt e)).
  destruct (temporal_term 10 48 (hoursDiff (so_createdAt o) (eo_createdAt e)))
    as [Ht Hb]; [reflexivity | apply hoursDiff_nonneg | discriminate |].
  set (h := hoursDiff (so_createdAt o) (eo_createdAt e)) in *.
  set (m := Qmax 0 (1 - h / 48)) in *.
  set (q := (h / 48)%Q) in *.
  destruct (truthy (marketplaceOrderId e) &&
            (bool_decide (marketplaceOrderId e = Some (shopifyOrderId o)) ||
             bool_decide (marketplaceOrderId e = Some (shopifyOrderNumber o))));
    destruct (Qle_bool (Qabs (totalPrice o - totalAmount e)) (totalPrice o * (1 # 100)));
    destruct (Qle_bool h 48); cbv zeta; split; lra.
Qed.

(** Scenario A of the specification: same amount, same e-mail up to case,
    same instant. *)
Example scenario_A :
  (razorpayConfidence sample_order sample_payment == 100)%Q /\
  status (findMatches sample_order [sample_payment] []) = MATCHED /\
  amountDifference (findMatches sample_order [sample_payment] []) = Some 0%Q.
Proof. vm_compute. repeat split; congruence. Qed.

(** An order-management order that matches by reference and lies within
    the 1% tolerance, yet 15 off: full confidence, and DISCREPANCY. *)
Example discrepancy_at_full_confidence :
  (easyecomConfidence sample_order sample_easyecom == 100)%Q /\
  status (findMatches sample_order [] [sample_easyecom]) = DISCREPANCY /\
  discrepancyNotes (findMatches sample_order [] [sample_easyecom]) =
    Some "Significant amount difference: 15.00".
Proof. vm_compute. repeat split; congruence. Qed.

(** C7. For every order and every candidate, the confidence the service
    computes is the specification's sum of the identity, amount, reference
    and linearly decayed temporal signals, with the weights 40/40/20 over a
    24 hour window for payments and 60/30/10 over a 48 hour window for
    order-management orders; hence it lies between 0 and 100. *)
Theorem confidence_is_weighted_sum
    (o : ShopifyOrder) (p : RazorpayPayment) (e : EasyecomOrder) :
  (razorpayConfidence o p ==
     Scorer.score Scorer.paymentGateway (anchorOf o) (candidateOfPayment p))%Q /\
  (easyecomConfidence o e ==
     Scorer.score Scorer.orderManagement (anchorOf o) (candidateOfEasyecom e))%Q /\
  (0 <= razorpayConfidence o p <= 100)%Q /\
  (0 <= easyecomConfidence o e <= 100)%Q.
Proof.
  destruct (razorpayConfidence_score o p) as [Hp Hpb].
  destruct (easyecomConfidence_score o e) as [He Heb].
  auto.
Qed.

(** ** The three loops in closed form *)

Lemma matchStep_fold (ps : list RazorpayPayment) (es : list EasyecomOrder)
    (os : list ShopifyOrder) (st : RunState) :
  matches (fold_left (matchStep ps es) os st) = matches st ++ orderOutcomes os ps es /\
  matchedCount (fold_left (matchStep ps es) os st) =
    matchedCount st + countStatus MATCHED (orderOutcomes os ps es) /\
  unmatchedCount (fold_left (matchStep ps es) os st) =
    unmatchedCount st + length (filter (fun m => status m <> MATCHED) (orderOutcomes os ps es)).
Proof.
  revert st. induction os as [|o os IH]; intros st.
  - cbn. rewrite app_nil_r. unfold countStatus. cbn. repeat split; lia.
  - cbn [fold_left]. destruct (IH (matchStep ps es st o)) as (Hm & Hc & Hu).
    rewrite Hm, Hc, Hu. unfold matchStep, countStatus, orderOutcomes.
    rewrite !fmap_cons, !filter_cons.
    destruct (decide (status (findMatches o ps es) = MATCHED)) as [E|E];
      cbn [matches matchedCount unmatchedCount].
    + rewrite decide_False by (intros H; by apply H).
      rewrite <- app_assoc. cbn. repeat split; lia.
    + rewrite decide_True by done.
      rewrite <- app_assoc. cbn. repeat split; lia.
Qed.

Lemma razorpayOrphanStep_fold (ids : gset string) (ps : list RazorpayPayment) (st : RunState) :
  matches (fold_left (razorpayOrphanStep ids) ps st) =
    matches st ++ (razorpayOrphan <$> filter (fun p => rp_id p ∉ ids) ps) /\
  matchedCount (fold_left (razorpayOrphanStep ids) ps st) = matchedCount st /\
  unmatchedCount (fold_left (razorpayOrphanStep ids) ps st) =
    unmatchedCount st + length (filter (fun p => rp_id p ∉ ids) ps).
Proof.
  revert st. induction ps as [|p ps IH]; intros st.
  - cbn. rewrite app_nil_r. repeat split; lia.
  - cbn [fold_left]. destruct (IH (razorpayOrphanStep ids st p)) as (Hm & Hc & Hu).
    rewrite Hm, Hc, Hu. unfold razorpayOrphanStep. rewrite filter_cons.
    destruct (decide (rp_id p ∈ ids)) as [E|E].
    + rewrite decide_False by (intros H; by apply H). repeat split; lia.
    + rewrite decide_True by done. cbn [matches matchedCount unmatchedCount].
      rewrite <- app_assoc. cbn. repeat split; lia.
Qed.

Lemma easyecomOrphanStep_fold (ids : gset string) (es : list EasyecomOrder) (st : RunState) :
  matches (fold_left (easyecomOrphanStep ids) es st) =
    matches st ++ (easyecomOrphan <$> filter (fun e => eo_id e ∉ ids) es) /\
  matchedCount (fold_left (easyecomOrphanStep ids) es st) = matchedCount st /\
  unmatchedCount (fold_left (easyecomOrphanStep ids) es st) =
    unmatchedCount st + length (filter (fun e => eo_id e ∉ ids) es).
Proof.
  revert st. induction es as [|e es IH]; intros st.
  - cbn. rewrite app_nil_r. repeat split; lia.
  - cbn [fold_left]. destruct (IH (easyecomOrphanStep ids st e)) as (Hm & Hc & Hu).
    rewrite Hm, Hc, Hu. unfold easyecomOrphanStep. rewrite filter_cons.
    destruct (decide (eo_id e ∈ ids)) as [E|E].
    + rewrite decide_False by (intros H; by apply H). repeat split; lia.
    + rewrite decide_True by done. cbn [matches matchedCount unmatchedCount].
      rewrite <- app_assoc. cbn. repeat split; lia.
Qed.

Lemma truthy_Some (s : string) : truthy (Some s) = true <-> s <> "".
Proof. destruct s; cbn; split; congruence. Qed.

Lemma elem_of_matchedRazorpayIds (ms : list MatchResult) (id : string) :
  id ∈ matchedRazorpayIds ms <-> id <> "" /\ referenced razorpayPaymentId ms id.
Proof.
  unfold matchedRazorpayIds, referenced.
  rewrite elem_of_list_to_set, list_elem_of_omap, Exists_exists. split.
  - intros (m & Hm & Hid). destruct (truthy (razorpayPaymentId m)) eqn:E; [|done].
    rewrite Hid in E. apply truthy_Some in E. eauto.
  - intros (Hne & m & Hm & Hid). exists m. split; [done|].
    rewrite Hid. apply truthy_Some in Hne. by rewrite Hne.
Qed.

Lemma elem_of_matchedEasyecomIds (ms : list MatchResult) (id : string) :
  id ∈ matchedEasyecomIds ms <-> id <> "" /\ referenced easyecomOrderId ms id.
Proof.
  unfold matchedEasyecomIds, referenced.
  rewrite elem_of_list_to_set, list_elem_of_omap, Exists_exists. split.
  - intros (m & Hm & Hid). destruct (truthy (easyecomOrderId m)) eqn:E; [|done].
    rewrite Hid in E. apply truthy_Some in E. eauto.
  - intros (Hne & m & Hm & Hid). exists m. split; [done|].
    rewrite Hid. apply truthy_Some in Hne. by rewrite Hne.
Qed.

(** The orphans of the payments carry no Easyecom id, so the second set
    is that of the order outcomes alone. *)
Lemma matchedEasyecomIds_orphans (ms : list MatchResult) (ps : list RazorpayPayment) :
  matchedEasyecomIds (ms ++ (razorpayOrphan <$> ps)) = matchedEasyecomIds ms.
Proof.
  unfold matchedEasyecomIds. rewrite omap_app.
  assert (omap (fun m => if truthy (easyecomOrderId m) then easyecomOrderId m else None)
               (razorpayOrphan <$> ps) = []) as ->.
  { induction ps as [|p ps IH]; [done|]. rewrite fmap_cons. cbn. exact IH. }
  by rewrite app_nil_r.
Qed.

(** Lines 56 to 98 in closed form. *)
Lemma computeMatches_closed (os : list ShopifyOrder) (ps : list RazorpayPayment)
    (es : list EasyecomOrder) :
  let primary := orderOutcomes os ps es in
  let orphansA :=
    razorpayOrphan <$> filter (fun p => rp_id p ∉ matchedRazorpayIds primary) ps in
  let orphansB :=
    easyecomOrphan <$> filter (fun e => eo_id e ∉ matchedEasyecomIds primary) es in
  matches (computeMatches os ps es) = primary ++ orphansA ++ orphansB /\
  matchedCount (computeMatches os ps es) = countStatus MATCHED primary /\
  unmatchedCount (computeMatches os ps es) =
    length (filter (fun m => status m <> MATCHED) primary) + length orphansA + length orphansB.
Proof.
  intros primary orphansA orphansB.
  unfold computeMatches, addEasyecomOrphans, addRazorpayOrphans, matchShopifyOrders.
  destruct (matchStep_fold ps es os {| matches := []; matchedCount := 0; unmatchedCount := 0 |})
    as (Hm1 & Hc1 & Hu1).
  cbn [matches matchedCount unmatchedCount app] in Hm1, Hc1, Hu1.
  set (st1 := fold_left (matchStep ps es) os _) in *.
  destruct (razorpayOrphanStep_fold (matchedRazorpayIds (matches st1)) ps st1)
    as (Hm2 & Hc2 & Hu2).
  set (st2 := fold_left (razorpayOrphanStep _) ps st1) in *.
  destruct (easyecomOrphanStep_fold (matchedEasyecomIds (matches st2)) es st2)
    as (Hm3 & Hc3 & Hu3).
  rewrite Hm3, Hc3, Hu3, Hc2, Hu2, Hc1, Hu1.
  rewrite Hm2, matchedEasyecomIds_orphans, Hm1.
  fold primary. fold orphansA. fold orphansB.
  rewrite <- app_assoc. unfold orphansA, orphansB. rewrite !length_fmap.
  repeat split; lia.
Qed.

(** ** The effectful shell *)

(** Run the monadic plumbing of a goal. *)
Ltac run_M :=
  cbv beta iota zeta delta
    [mbind M_bind mret M_ret issue modifyLog throw tryCatch syncAll getAll
     reconciliationLog_create reconciliationLog_update reconciliationLog_updateMany];
  cbn [reconciliation reconciliationLog calls].

(** The save loop either stores every row, or stops at the first row whose
    [create] rejects and leaves the rows before it stored. *)
Lemma saveAll_spec (env : Collaborators) (ms : list MatchResult) (w : World) :
  match saveAll env ms w with
  | (inr _, w') =>
      reconciliation w' = reconciliation w ++ ms /\
      reconciliationLog w' = reconciliationLog w /\
      calls w' = calls w ++ (CreateReconciliation <$> ms)
  | (inl message, w') =>
      exists k row,
        ms !! k = Some row /\
        reconciliation_create env (reconciliation w ++ take k ms) row = Some message /\
        reconciliation w' = reconciliation w ++ take k ms /\
        reconciliationLog w' = reconciliationLog w
  end.
Proof.
  revert w. induction ms as [|m ms IH]; intros w.
  - cbn. rewrite !app_nil_r. done.
  - cbn [saveAll]. unfold mbind, M_bind at 1, saveReconciliation.
    unfold mbind, M_bind, issue, throw. cbn [reconciliation reconciliationLog calls].
    destruct (reconciliation_create env (reconciliation w) m) as [message|] eqn:E.
    + exists 0, m. cbn. rewrite app_nil_r. done.
    + specialize (IH {| reconciliationLog := reconciliationLog w;
                        reconciliation := reconciliation w ++ [m];
                        calls := calls w ++ [CreateReconciliation m] |}).
      destruct (saveAll env ms _) as [[message|u] w']; cbn in IH.
      * destruct IH as (k & row & Hk & Hc & Hr & Hl).
        exists (S k), row. cbn. rewrite <- !app_assoc in *. done.
      * rewrite <- !app_assoc in IH. done.
Qed.

(** A call that returns has stored every outcome of the run, in order, and
    completed the log entry it created with the run's three counters. *)
Lemma reconcile_completed (env : Collaborators) (now startDate endDate : Z)
    (w w' : World) (run : string) :
  reconcile env now startDate endDate w = (inr run, w') ->
  run = "RUN_" +:+ pretty now /\
  reconciliation w' = reconciliation w ++ matches (runOf env startDate endDate) /\
  reconciliationLog w' =
    reconciliationLog w ++ [completedEntry run (runOf env startDate endDate)].
Proof.
  unfold reconcile, runOf.
  set (st := computeMatches _ _ _). run_M.
  destruct (shopify_syncOrders env startDate endDate); run_M; [intros [=]|].
  destruct (razorpay_syncPayments env startDate endDate); run_M; [intros [=]|].
  destruct (easyecom_syncOrders env startDate endDate); run_M; [intros [=]|].
  match goal with |- context [saveAll env ?ms ?w0] =>
    pose proof (saveAll_spec env ms w0) as Hs; destruct (saveAll env ms w0) as [[message|u] w1]
  end; run_M; [intros [=]|].
  cbn [reconciliation reconciliationLog calls] in Hs.
  destruct Hs as (Hr & Hl & _).
  intros [= <- <-]. cbn [reconciliation reconciliationLog].
  rewrite Hr, Hl. split; [done|]. split; [done|].
  rewrite <- (Nat.add_0_r (length (reconciliationLog w))), alter_app_r. done.
Qed.

(** ** Primary outcomes and orphans of a run *)

Lemma filter_ext_elem {A : Type} (P Q : A -> Prop)
    `{!forall x, Decision (P x)} `{!forall x, Decision (Q x)} (l : list A) :
  (forall x, x ∈ l -> (P x <-> Q x)) -> filter P l = filter Q l.
Proof.
  induction l as [|x l IH]; intros Hall; [done|].
  rewrite !filter_cons. rewrite IH by (intros y Hy; apply Hall; by right).
  destruct (decide (P x)) as [HP|HP], (decide (Q x)) as [HQ|HQ]; try done.
  - exfalso. apply HQ, Hall; [left|done].
  - exfalso. apply HP, Hall; [left|done].
Qed.

Lemma filter_all {A : Type} (P : A -> Prop) `{!forall x, Decision (P x)} (l : list A) :
  (forall x, x ∈ l -> P x) -> filter P l = l.
Proof.
  induction l as [|x l IH]; intros Hall; [done|].
  rewrite filter_cons, decide_True by (apply Hall; left).
  f_equal. apply IH. intros y Hy. apply Hall. by right.
Qed.

Lemma filter_none {A : Type} (P : A -> Prop) `{!forall x, Decision (P x)} (l : list A) :
  (forall x, x ∈ l -> ~ P x) -> filter P l = [].
Proof.
  induction l as [|x l IH]; intros Hall; [done|].
  rewrite filter_cons, decide_False by (apply Hall; left).
  apply IH. intros y Hy. apply Hall. by right.
Qed.

Lemma orderOutcomes_primary (os : list ShopifyOrder) (ps : list RazorpayPayment)
    (es : list EasyecomOrder) (m : MatchResult) :
  m ∈ orderOutcomes os ps es -> is_Some (mr_shopifyOrderId m).
Proof.
  unfold orderOutcomes. intros (o & -> & _)%list_elem_of_fmap. by eexists.
Qed.

Lemma razorpayOrphans_orphan (ps : list RazorpayPayment) (m : MatchResult) :
  m ∈ razorpayOrphan <$> ps ->
  mr_shopifyOrderId m = None /\ easyecomOrderId m = None /\ status m = UNMATCHED.
Proof. by intros (p & -> & _)%list_elem_of_fmap. Qed.

Lemma easyecomOrphans_orphan (es : list EasyecomOrder) (m : MatchResult) :
  m ∈ easyecomOrphan <$> es ->
  mr_shopifyOrderId m = None /\ razorpayPaymentId m = None /\ status m = UNMATCHED.
Proof. by intros (e & -> & _)%list_elem_of_fmap. Qed.

Lemma primaryOutcomes_computeMatches (os : list ShopifyOrder) (ps : list RazorpayPayment)
    (es : list EasyecomOrder) :
  primaryOutcomes (matches (computeMatches os ps es)) = orderOutcomes os ps es.
Proof.
  destruct (computeMatches_closed os ps es) as (-> & _ & _).
  unfold primaryOutcomes. rewrite !filter_app.
  rewrite (filter_all _ (orderOutcomes os ps es)) by apply orderOutcomes_primary.
  rewrite !filter_none.
  - by rewrite !app_nil_r.
  - intros m (H & _)%easyecomOrphans_orphan [x Hx]. congruence.
  - intros m (H & _)%razorpayOrphans_orphan [x Hx]. congruence.
Qed.

Lemma orphanOutcomes_computeMatches (os : list ShopifyOrder) (ps : list RazorpayPayment)
    (es : list EasyecomOrder) :
  orphanOutcomes (matches (computeMatches os ps es)) =
    (razorpayOrphan <$>
       filter (fun p => rp_id p ∉ matchedRazorpayIds (orderOutcomes os ps es)) ps) ++
    (easyecomOrphan <$>
       filter (fun e => eo_id e ∉ matchedEasyecomIds (orderOutcomes os ps es)) es).
Proof.
  destruct (computeMatches_closed os ps es) as (-> & _ & _).
  unfold orphanOutcomes. rewrite !filter_app.
  set (a := razorpayOrphan <$> _). set (b := easyecomOrphan <$> _).
  rewrite (filter_none _ (orderOutcomes os ps es)),
          (filter_all _ a), (filter_all _ b).
  - done.
  - by intros m (H & _)%easyecomOrphans_orphan.
  - by intros m (H & _)%razorpayOrphans_orphan.
  - intros m [x Hx]%orderOutcomes_primary. congruence.
Qed.

(** The two counters over the whole list of outcomes. *)
Lemma counters_computeMatches (os : list ShopifyOrder) (ps : list RazorpayPayment)
    (es : list EasyecomOrder) :
  matchedCount (computeMatches os ps es) =
    countStatus MATCHED (matches (computeMatches os ps es)) /\
  unmatchedCount (computeMatches os ps es) =
    length (filter (fun m => status m <> MATCHED) (matches (computeMatches os ps es))).
Proof.
  destruct (computeMatches_closed os ps es) as (-> & -> & ->).
  unfold countStatus. rewrite !filter_app, !length_app.
  set (a := razorpayOrphan <$> _). set (b := easyecomOrphan <$> _).
  rewrite (filter_none (fun m => status m = MATCHED) a),
          (filter_none (fun m => status m = MATCHED) b),
          (filter_all (fun m => status m <> MATCHED) a),
          (filter_all (fun m => status m <> MATCHED) b).
  - cbn. split; lia.
  - intros m (_ & _ & H)%easyecomOrphans_orphan. congruence.
  - intros m (_ & _ & H)%razorpayOrphans_orphan. congruence.
  - intros m (_ & _ & H)%easyecomOrphans_orphan. congruence.
  - intros m (_ & _ & H)%razorpayOrphans_orphan. congruence.
Qed.

Lemma count_split (ms : list MatchResult) :
  countStatus MATCHED ms + length (filter (fun m => status m <> MATCHED) ms) = length ms.
Proof.
  unfold countStatus. induction ms as [|m ms IH]; [done|].
  rewrite !filter_cons.
  destruct (decide (status m = MATCHED)) as [E|E].
  - rewrite decide_False by (intros H; by apply H). cbn. lia.
  - rewrite decide_True by done. cbn. lia.
Qed.

(** C3, as the code has it. The log entry of a completed run records as
    matched the number of outcomes with status MATCHED and as unmatched the
    number of all other outcomes, PARTIAL_MATCH and DISCREPANCY included:
    the two counters add up to the processed count. *)
Theorem log_counters_split_matched_and_rest
    (env : Collaborators) (now startDate endDate : Z) (w w' : World) (run : string) :
  reconcile env now startDate endDate w = (inr run, w') ->
  exists entry,
    reconciliationLog w' !! length (reconciliationLog w) = Some entry /\
    log_status entry = COMPLETED /\
    recordsProcessed entry = length (matches (runOf env startDate endDate)) /\
    recordsMatched entry = countStatus MATCHED (matches (runOf env startDate endDate)) /\
    recordsUnmatched entry =
      length (filter (fun m => status m <> MATCHED) (matches (runOf env startDate endDate))) /\
    recordsMatched entry + recordsUnmatched entry = recordsProcessed entry.
Proof.
  intros (_ & _ & Hlog)%reconcile_completed.
  exists (completedEntry run (runOf env startDate endDate)).
  rewrite Hlog, lookup_app_r, Nat.sub_diag by lia.
  unfold runOf. cbn [completedEntry lookup list_lookup log_status recordsProcessed
                     recordsMatched recordsUnmatched].
  destruct (counters_computeMatches (shopify_getLocalOrders env startDate endDate)
              (razorpay_getLocalPayments env startDate endDate)
              (easyecom_getLocalOrders env startDate endDate)) as (-> & ->).
  repeat split; try done. apply count_split.
Qed.

Lemma log_counters_split_matched_and_rest_witness :
  exists entry,
    reconciliationLog (reconcile sample_env 1 0 10 emptyWorld).2 !! 0 = Some entry /\
    log_status entry = COMPLETED /\
    recordsProcessed entry = 1 /\
    recordsMatched entry = 0 /\
    recordsUnmatched entry = 1 /\
    recordsMatched entry + recordsUnmatched entry = recordsProcessed entry.
Proof.
  apply (log_counters_split_matched_and_rest sample_env 1 0 10 emptyWorld
           (reconcile sample_env 1 0 10 emptyWorld).2 "RUN_1").
  vm_compute. reflexivity.
Defined.

(** C3, as the specification states it, fails: a run with a single DISCREPANCY outcome
    completes with an unmatched counter of 1 although no outcome has status
    UNMATCHED. *)
Lemma unmatched_counter_includes_discrepancy :
  (reconcile sample_env 1 0 10 emptyWorld).1 = inr "RUN_1" /\
  status <$> reconciliation (reconcile sample_env 1 0 10 emptyWorld).2 = [DISCREPANCY] /\
  recordsUnmatched <$> reconciliationLog (reconcile sample_env 1 0 10 emptyWorld).2 = [1] /\
  countStatus UNMATCHED (reconciliation (reconcile sample_env 1 0 10 emptyWorld).2) = 0 /\
  ~ (forall entry, entry ∈ reconciliationLog (reconcile sample_env 1 0 10 emptyWorld).2 ->
       recordsUnmatched entry =
         countStatus UNMATCHED (reconciliation (reconcile sample_env 1 0 10 emptyWorld).2)).
Proof.
  repeat split; try (vm_compute; reflexivity).
  intros H.
  specialize (H (completedEntry "RUN_1" (runOf sample_env 0 10))).
  assert (completedEntry "RUN_1" (runOf sample_env 0 10)
            ∈ reconciliationLog (reconcile sample_env 1 0 10 emptyWorld).2) as Hin.
  { vm_compute. left. }
  apply H in Hin. vm_compute in Hin. discriminate.
Qed.

(** ** Conservation *)

(** For an id that is not the empty string, membership in the set of matched
    ids is being referenced by an order outcome. *)
Lemma unclaimed_payments (primary : list MatchResult) (ps : list RazorpayPayment) :
  Forall (fun p => rp_id p <> "") ps ->
  filter (fun p => rp_id p ∉ matchedRazorpayIds primary) ps =
  filter (fun p => ~ referenced razorpayPaymentId primary (rp_id p)) ps.
Proof.
  intros Hne. apply filter_ext_elem. intros p Hp.
  rewrite elem_of_matchedRazorpayIds.
  rewrite Forall_forall in Hne. specialize (Hne p Hp). tauto.
Qed.

Lemma unclaimed_easyecom (primary : list MatchResult) (es : list EasyecomOrder) :
  Forall (fun e => eo_id e <> "") es ->
  filter (fun e => eo_id e ∉ matchedEasyecomIds primary) es =
  filter (fun e => ~ referenced easyecomOrderId primary (eo_id e)) es.
Proof.
  intros Hne. apply filter_ext_elem. intros e He.
  rewrite elem_of_matchedEasyecomIds.
  rewrite Forall_forall in Hne. specialize (Hne e He). tauto.
Qed.

Lemma conservation (os : list ShopifyOrder) (ps : list RazorpayPayment)
    (es : list EasyecomOrder) :
  Forall (fun p => rp_id p <> "") ps ->
  Forall (fun e => eo_id e <> "") es ->
  length (matches (computeMatches os ps es)) =
    length os +
    length (filter (fun p => ~ referenced razorpayPaymentId
                                (primaryOutcomes (matches (computeMatches os ps es)))
                                (rp_id p)) ps) +
    length (filter (fun e => ~ referenced easyecomOrderId
                                (primaryOutcomes (matches (computeMatches os ps es)))
                                (eo_id e)) es).
Proof.
  intros Hp He. rewrite primaryOutcomes_computeMatches.
  rewrite <- unclaimed_payments, <- unclaimed_easyecom by done.
  destruct (computeMatches_closed os ps es) as (-> & _ & _).
  rewrite !length_app, !length_fmap. unfold orderOutcomes. rewrite length_fmap. lia.
Qed.

(** C6. A completed run over P orders, S1 payments and S2 order-management
    orders (whose ids are not empty strings) has produced, stored and
    recorded as processed P outcomes plus one per payment no primary outcome
    references plus one per order-management order no primary outcome
    references. *)
Theorem outcomes_are_conserved
    (env : Collaborators) (now startDate endDate : Z) (w w' : World) (run : string) :
  reconcile env now startDate endDate w = (inr run, w') ->
  Forall (fun p => rp_id p <> "") (razorpay_getLocalPayments env startDate endDate) ->
  Forall (fun e => eo_id e <> "") (easyecom_getLocalOrders env startDate endDate) ->
  let outcomes := matches (runOf env startDate endDate) in
  let total :=
    length (shopify_getLocalOrders env startDate endDate) +
    length (filter (fun p => ~ referenced razorpayPaymentId (primaryOutcomes outcomes) (rp_id p))
                   (razorpay_getLocalPayments env startDate endDate)) +
    length (filter (fun e => ~ referenced easyecomOrderId (primaryOutcomes outcomes) (eo_id e))
                   (easyecom_getLocalOrders env startDate endDate)) in
  length outcomes = total /\
  reconciliation w' = reconciliation w ++ outcomes /\
  recordsProcessed <$> reconciliationLog w' !! length (reconciliationLog w) = Some total.
Proof.
  intros (_ & Hrows & Hlog)%reconcile_completed Hp He outcomes total.
  assert (length outcomes = total) as Htotal by by apply conservation.
  split; [done|]. split; [done|].
  rewrite Hlog, lookup_app_r, Nat.sub_diag by lia. cbn. by rewrite <- Htotal.
Qed.

Lemma outcomes_are_conserved_witness :
  let outcomes := matches (runOf contested_env 0 10) in
  let total :=
    2 +
    length (filter (fun p => ~ referenced razorpayPaymentId (primaryOutcomes outcomes) (rp_id p))
                   [sample_payment]) +
    length (filter (fun e => ~ referenced easyecomOrderId (primaryOutcomes outcomes) (eo_id e))
                   [sample_easyecom; stranger_easyecom]) in
  length outcomes = total /\
  reconciliation (reconcile contested_env 1 0 10 emptyWorld).2 = [] ++ outcomes /\
  recordsProcessed <$> reconciliationLog (reconcile contested_env 1 0 10 emptyWorld).2 !! 0
    = Some total.
Proof.
  apply (outcomes_are_conserved contested_env 1 0 10 emptyWorld
           (reconcile contested_env 1 0 10 emptyWorld).2 "RUN_1").
  - vm_compute. reflexivity.
  - repeat constructor. discriminate.
  - repeat constructor; discriminate.
Defined.

(** ** Orphans *)

Lemma filter_key_unique {A : Type} (key : A -> string) (l : list A) (x : A) :
  NoDup (key <$> l) -> x ∈ l -> filter (fun y => key y = key x) l = [x].
Proof.
  induction l as [|y l IH]; intros Hnd Hx; [by apply elem_of_nil in Hx|].
  rewrite fmap_cons in Hnd. apply NoDup_cons in Hnd as [Hy Hnd].
  rewrite filter_cons. apply elem_of_cons in Hx as [->|Hx].
  - rewrite decide_True by done. f_equal.
    apply filter_none. intros z Hz Hk. apply Hy. rewrite <- Hk.
    apply list_elem_of_fmap. eauto.
  - rewrite decide_False; [by apply IH|].
    intros Hk. apply Hy. rewrite Hk. apply list_elem_of_fmap. eauto.
Qed.

Lemma filter_fmap_list {A B : Type} (f : A -> B) (P : B -> Prop)
    `{!forall y, Decision (P y)} (l : list A) :
  filter P (f <$> l) = f <$> filter (fun x => P (f x)) l.
Proof.
  induction l as [|x l IH]; [done|].
  rewrite fmap_cons, !filter_cons, IH. by destruct (decide (P (f x))).
Qed.

Lemma razorpay_orphan_unique (os : list ShopifyOrder) (ps : list RazorpayPayment)
    (es : list EasyecomOrder) (p : RazorpayPayment) :
  NoDup (rp_id <$> ps) -> p ∈ ps ->
  ~ referenced razorpayPaymentId (primaryOutcomes (matches (computeMatches os ps es))) (rp_id p) ->
  filter (fun m => razorpayPaymentId m = Some (rp_id p))
         (orphanOutcomes (matches (computeMatches os ps es))) = [razorpayOrphan p].
Proof.
  intros Hnd Hp Hfree. rewrite primaryOutcomes_computeMatches in Hfree.
  rewrite orphanOutcomes_computeMatches, filter_app.
  rewrite (filter_none _ (easyecomOrphan <$> _)), app_nil_r.
  2:{ intros m (_ & H & _)%easyecomOrphans_orphan. congruence. }
  rewrite filter_fmap_list, list_filter_filter.
  rewrite (filter_ext_elem _ (fun x => rp_id x = rp_id p)).
  - by rewrite filter_key_unique.
  - intros x Hx. cbn. split.
    + intros [[= ->] _]. done.
    + intros Hid. split; [by rewrite Hid|].
      rewrite Hid, elem_of_matchedRazorpayIds. tauto.
Qed.

Lemma easyecom_orphan_unique (os : list ShopifyOrder) (ps : list RazorpayPayment)
    (es : list EasyecomOrder) (e : EasyecomOrder) :
  NoDup (eo_id <$> es) -> e ∈ es ->
  ~ referenced easyecomOrderId (primaryOutcomes (matches (computeMatches os ps es))) (eo_id e) ->
  filter (fun m => easyecomOrderId m = Some (eo_id e))
         (orphanOutcomes (matches (computeMatches os ps es))) = [easyecomOrphan e].
Proof.
  intros Hnd He Hfree. rewrite primaryOutcomes_computeMatches in Hfree.
  rewrite orphanOutcomes_computeMatches, filter_app.
  rewrite (filter_none _ (razorpayOrphan <$> _)), app_nil_l.
  2:{ intros m (_ & H & _)%razorpayOrphans_orphan. congruence. }
  rewrite filter_fmap_list, list_filter_filter.
  rewrite (filter_ext_elem _ (fun x => eo_id x = eo_id e)).
  - by rewrite filter_key_unique.
  - intros x Hx. cbn. split.
    + intros [[= ->] _]. done.
    + intros Hid. split; [by rewrite Hid|].
      rewrite Hid, elem_of_matchedEasyecomIds. tauto.
Qed.

(** C9, as the code has it. With ids unique within each secondary source,
    every secondary record whose id no primary outcome references has
    exactly one orphan outcome; it carries that record's id in the field of
    its source and nothing else, status UNMATCHED, confidence 0, no amount
    difference, and the note "No matching Shopify order found", the same
    text for both sources. *)
Theorem orphans_of_unreferenced_records
    (os : list ShopifyOrder) (ps : list RazorpayPayment) (es : list EasyecomOrder) :
  NoDup (rp_id <$> ps) ->
  NoDup (eo_id <$> es) ->
  let outcomes := matches (computeMatches os ps es) in
  (forall p, p ∈ ps ->
     ~ referenced razorpayPaymentId (primaryOutcomes outcomes) (rp_id p) ->
     filter (fun m => razorpayPaymentId m = Some (rp_id p)) (orphanOutcomes outcomes) =
       [{| mr_shopifyOrderId := None; razorpayPaymentId := Some (rp_id p);
           easyecomOrderId := None; matchConfidence := 0%Q; status := UNMATCHED;
           amountDifference := None;
           discrepancyNotes := Some "No matching Shopify order found" |}]) /\
  (forall e, e ∈ es ->
     ~ referenced easyecomOrderId (primaryOutcomes outcomes) (eo_id e) ->
     filter (fun m => easyecomOrderId m = Some (eo_id e)) (orphanOutcomes outcomes) =
       [{| mr_shopifyOrderId := None; razorpayPaymentId := None;
           easyecomOrderId := Some (eo_id e); matchConfidence := 0%Q; status := UNMATCHED;
           amountDifference := None;
           discrepancyNotes := Some "No matching Shopify order found" |}]).
Proof.
  intros Hps Hes outcomes. split.
  - intros p Hp Hfree. by apply razorpay_orphan_unique.
  - intros e He Hfree. by apply easyecom_orphan_unique.
Qed.

Lemma orphans_of_unreferenced_records_witness :
  let outcomes :=
    matches (computeMatches [sample_order] [sample_payment; stranger_payment]
                            [sample_easyecom; stranger_easyecom]) in
  (forall p, p ∈ [sample_payment; stranger_payment] ->
     ~ referenced razorpayPaymentId (primaryOutcomes outcomes) (rp_id p) ->
     filter (fun m => razorpayPaymentId m = Some (rp_id p)) (orphanOutcomes outcomes) =
       [{| mr_shopifyOrderId := None; razorpayPaymentId := Some (rp_id p);
           easyecomOrderId := None; matchConfidence := 0%Q; status := UNMATCHED;
           amountDifference := None;
           discrepancyNotes := Some "No matching Shopify order found" |}]) /\
  (forall e, e ∈ [sample_easyecom; stranger_easyecom] ->
     ~ referenced easyecomOrderId (primaryOutcomes outcomes) (eo_id e) ->
     filter (fun m => easyecomOrderId m = Some (eo_id e)) (orphanOutcomes outcomes) =
       [{| mr_shopifyOrderId := None; razorpayPaymentId := None;
           easyecomOrderId := Some (eo_id e); matchConfidence := 0%Q; status := UNMATCHED;
           amountDifference := None;
           discrepancyNotes := Some "No matching Shopify order found" |}]).
Proof.
  apply (orphans_of_unreferenced_records [sample_order] [sample_payment; stranger_payment]
           [sample_easyecom; stranger_easyecom]).
  - apply (bool_decide_unpack _). vm_compute. exact I.
  - apply (bool_decide_unpack _). vm_compute. exact I.
Defined.

(** C9, as the specification states it, fails on the note: in a run that leaves one
    payment and one order-management order unclaimed, the two orphan
    outcomes carry the same note, so no reading of the note tells the source
    of the orphan. *)
Lemma orphan_note_does_not_identify_source :
  matches (computeMatches [] [stranger_payment] [stranger_easyecom]) =
    [razorpayOrphan stranger_payment; easyecomOrphan stranger_easyecom] /\
  discrepancyNotes (razorpayOrphan stranger_payment) =
    discrepancyNotes (easyecomOrphan stranger_easyecom) /\
  ~ exists sourceOf : option string -> Platform,
      sourceOf (discrepancyNotes (razorpayOrphan stranger_payment)) = Razorpay /\
      sourceOf (discrepancyNotes (easyecomOrphan stranger_easyecom)) = Easyecom.
Proof.
  split; [vm_compute; reflexivity|]. split; [reflexivity|].
  intros (sourceOf & Ha & Hb). cbn in Ha, Hb. congruence.
Qed.

(** ** Contested secondary records *)

(** C1, as the specification states it, fails: two orders that both fit the one
    payment both reference it; the later one is not left without. *)
Lemma later_primary_references_claimed_payment :
  razorpayPaymentId <$> matches (computeMatches [sample_order; second_order] [sample_payment] [])
    = [Some "pay_1"; Some "pay_1"] /\
  ~ firstComeClaiming [sample_order; second_order] [sample_payment] [].
Proof.
  split; [vm_compute; reflexivity|].
  intros H.
  destruct (H sample_payment 0 1 sample_order second_order) as (_ & Hlater & _).
  - left.
  - reflexivity.
  - reflexivity.
  - lia.
  - vm_compute. reflexivity.
  - vm_compute. reflexivity.
  - intros k ok Hk. lia.
  - vm_compute in Hlater. discriminate.
Qed.

Lemma referenced_orphan_payment (os : list ShopifyOrder) (ps : list RazorpayPayment)
    (es : list EasyecomOrder) (id : string) :
  referenced razorpayPaymentId (orphanOutcomes (matches (computeMatches os ps es))) id ->
  id ∉ matchedRazorpayIds (orderOutcomes os ps es).
Proof.
  unfold referenced. rewrite orphanOutcomes_computeMatches, Exists_exists.
  intros (m & [Hm|Hm]%elem_of_app & Hid).
  - apply list_elem_of_fmap in Hm as (p & -> & Hp).
    apply list_elem_of_filter in Hp as [Hp _]. cbn in Hid. congruence.
  - apply easyecomOrphans_orphan in Hm as (_ & Hnone & _). congruence.
Qed.

Lemma referenced_orphan_easyecom (os : list ShopifyOrder) (ps : list RazorpayPayment)
    (es : list EasyecomOrder) (id : string) :
  referenced easyecomOrderId (orphanOutcomes (matches (computeMatches os ps es))) id ->
  id ∉ matchedEasyecomIds (orderOutcomes os ps es).
Proof.
  unfold referenced. rewrite orphanOutcomes_computeMatches, Exists_exists.
  intros (m & [Hm|Hm]%elem_of_app & Hid).
  - apply razorpayOrphans_orphan in Hm as (_ & Hnone & _). congruence.
  - apply list_elem_of_fmap in Hm as (e & -> & He).
    apply list_elem_of_filter in He as [He _]. cbn in Hid. congruence.
Qed.

(** C1, as the code has it. Nothing is claimed while the orders are
    matched: the outcome of every order is [findMatches] of that order
    against the full lists of candidates, whatever the orders before it
    matched, so one secondary record may be referenced by several
    primary outcomes. A secondary id (not the empty string) that a primary
    outcome references is the id of no orphan outcome. *)
Theorem primaries_match_independently
    (os : list ShopifyOrder) (ps : list RazorpayPayment) (es : list EasyecomOrder)
    (i : nat) (o : ShopifyOrder) (id : string) :
  os !! i = Some o ->
  id <> "" ->
  let outcomes := matches (computeMatches os ps es) in
  outcomes !! i = Some (findMatches o ps es) /\
  (referenced razorpayPaymentId (primaryOutcomes outcomes) id ->
   ~ referenced razorpayPaymentId (orphanOutcomes outcomes) id) /\
  (referenced easyecomOrderId (primaryOutcomes outcomes) id ->
   ~ referenced easyecomOrderId (orphanOutcomes outcomes) id).
Proof.
  intros Ho Hid outcomes. subst outcomes.
  rewrite primaryOutcomes_computeMatches. split; [|split].
  - destruct (computeMatches_closed os ps es) as (-> & _ & _).
    rewrite lookup_app_l.
    + unfold orderOutcomes. by rewrite list_lookup_fmap, Ho.
    + unfold orderOutcomes. rewrite length_fmap. by eapply lookup_lt_Some.
  - intros Href Horphan%referenced_orphan_payment.
    apply Horphan, elem_of_matchedRazorpayIds. done.
  - intros Href Horphan%referenced_orphan_easyecom.
    apply Horphan, elem_of_matchedEasyecomIds. done.
Qed.

Lemma primaries_match_independently_witness :
  let outcomes := matches (computeMatches [sample_order; second_order] [sample_payment] []) in
  outcomes !! 1 = Some (findMatches second_order [sample_payment] []) /\
  (referenced razorpayPaymentId (primaryOutcomes outcomes) "pay_1" ->
   ~ referenced razorpayPaymentId (orphanOutcomes outcomes) "pay_1") /\
  (referenced easyecomOrderId (primaryOutcomes outcomes) "pay_1" ->
   ~ referenced easyecomOrderId (orphanOutcomes outcomes) "pay_1").
Proof.
  apply (primaries_match_independently [sample_order; second_order] [sample_payment] []
           1 second_order "pay_1").
  - reflexivity.
  - discriminate.
Defined.

(** ** The range of a run *)

(** C4, as the specification states it, fails: a call whose start lies after its end
    is not rejected; it creates the log entry, syncs and loads the three
    platforms for that range, stores the outcomes and completes. *)
Lemma reversed_range_is_not_rejected :
  (10 >= 5)%Z /\
  (reconcile sample_env 1 10 5 emptyWorld).1 = inr "RUN_1" /\
  log_status <$> reconciliationLog (reconcile sample_env 1 10 5 emptyWorld).2 = [COMPLETED] /\
  take 7 (calls (reconcile sample_env 1 10 5 emptyWorld).2) =
    [CreateLog "RUN_1"; Sync Shopify 10 5; Sync Razorpay 10 5; Sync Easyecom 10 5;
     GetLocal Shopify 10 5; GetLocal Razorpay 10 5; GetLocal Easyecom 10 5] /\
  ~ rejectedBeforeIO sample_env 1 10 5 emptyWorld.
Proof.
  split; [lia|]. repeat split; try (vm_compute; reflexivity).
  intros [message H]. vm_compute in H. discriminate.
Qed.

Lemma saveAll_resolves (env : Collaborators) (ms : list MatchResult) (w : World) :
  (forall rows row, reconciliation_create env rows row = None) ->
  exists w', saveAll env ms w = (inr (), w') /\
    reconciliation w' = reconciliation w ++ ms /\
    reconciliationLog w' = reconciliationLog w /\
    calls w' = calls w ++ (CreateReconciliation <$> ms).
Proof.
  intros Hok. pose proof (saveAll_spec env ms w) as Hs.
  destruct (saveAll env ms w) as [[message|[]] w'].
  - destruct Hs as (k & row & _ & Hfail & _). rewrite Hok in Hfail. discriminate.
  - exists w'. done.
Qed.

(** C4, as the code has it. [reconcile] does not look at the order of its
    two dates: for every [startDate] and [endDate], whenever no collaborator
    call fails, it creates the log entry first, syncs and loads the three
    platforms for the given range, stores the outcomes, completes the log
    entry and returns the run id. *)
Theorem range_is_not_validated
    (env : Collaborators) (now startDate endDate : Z) (w : World) :
  shopify_syncOrders env startDate endDate = None ->
  razorpay_syncPayments env startDate endDate = None ->
  easyecom_syncOrders env startDate endDate = None ->
  (forall rows row, reconciliation_create env rows row = None) ->
  exists w',
    reconcile env now startDate endDate w = (inr ("RUN_" +:+ pretty now), w') /\
    calls w' =
      calls w ++
      [CreateLog ("RUN_" +:+ pretty now);
       Sync Shopify startDate endDate; Sync Razorpay startDate endDate;
       Sync Easyecom startDate endDate;
       GetLocal Shopify startDate endDate; GetLocal Razorpay startDate endDate;
       GetLocal Easyecom startDate endDate] ++
      (CreateReconciliation <$> matches (runOf env startDate endDate)) ++
      [UpdateLog (length (reconciliationLog w))] /\
    reconciliationLog w' =
      reconciliationLog w ++
      [completedEntry ("RUN_" +:+ pretty now) (runOf env startDate endDate)].
Proof.
  intros Hs1 Hs2 Hs3 Hsave.
  unfold reconcile, runOf. set (st := computeMatches _ _ _). run_M.
  rewrite Hs1, Hs2, Hs3. run_M.
  match goal with |- context [saveAll env ?ms ?w0] =>
    destruct (saveAll_resolves env ms w0 Hsave) as (w1 & -> & Hrows & Hlog & Hcalls)
  end.
  cbn [reconciliation reconciliationLog calls] in Hrows, Hlog, Hcalls. run_M.
  eexists. split; [reflexivity|]. cbn [reconciliation reconciliationLog calls].
  rewrite Hcalls, Hlog. split.
  - by rewrite <- !app_assoc.
  - rewrite <- (Nat.add_0_r (length (reconciliationLog w))), alter_app_r. done.
Qed.

Lemma range_is_not_validated_witness :
  exists w',
    reconcile sample_env 1 10 5 emptyWorld = (inr ("RUN_" +:+ pretty 1%Z), w') /\
    calls w' =
      calls emptyWorld ++
      [CreateLog ("RUN_" +:+ pretty 1%Z);
       Sync Shopify 10 5; Sync Razorpay 10 5; Sync Easyecom 10 5;
       GetLocal Shopify 10 5; GetLocal Razorpay 10 5; GetLocal Easyecom 10 5] ++
      (CreateReconciliation <$> matches (runOf sample_env 10 5)) ++
      [UpdateLog (length (reconciliationLog emptyWorld))] /\
    reconciliationLog w' =
      reconciliationLog emptyWorld ++
      [completedEntry ("RUN_" +:+ pretty 1%Z) (runOf sample_env 10 5)].
Proof.
  apply (range_is_not_validated sample_env 1 10 5 emptyWorld).
  - reflexivity.
  - reflexivity.
  - reflexivity.
  - intros rows row. reflexivity.
Defined.

(** ** Failed runs *)


(** C5 at a failing input. The second of two [create] calls rejects: the
    call throws, the run is marked FAILED, and the outcome stored before the
    failure stays in the table and in the report. *)
Theorem failed_run_keeps_stored_outcomes :
  (reconcile failing_env 1 0 10 emptyWorld).1 = inl "connection lost" /\
  log_status <$> reconciliationLog (reconcile failing_env 1 0 10 emptyWorld).2 = [FAILED] /\
  length (matches (runOf failing_env 0 10)) = 2 /\
  reconciliation (reconcile failing_env 1 0 10 emptyWorld).2 = [razorpayOrphan stranger_payment] /\
  (getReport (reconcile failing_env 1 0 10 emptyWorld).2).2 = [razorpayOrphan stranger_payment] /\
  reconciliation (reconcile failing_env 1 0 10 emptyWorld).2 <> reconciliation emptyWorld.
Proof.
  repeat split; try (vm_compute; reflexivity).
  vm_compute. discriminate.
Qed.

(** * Further properties of the engine *)

(** ** What the selectors return *)

Lemma selectStep_invariant {A : Type} (f : A -> Q) (l : list A) (best : option A * Q) (x : A) :
  bestSoFar f l best -> bestSoFar f (l ++ [x]) (selectStep f best x).
Proof.
  destruct best as [r c]. intros (Hc & Hmax & Hr). unfold selectStep. cbn [fst snd] in *.
  destruct (Qlt_bool c (f x)) eqn:E; reflect_Q; unfold bestSoFar; cbn [fst snd].
  - split; [lra|]. split.
    + intros y [Hy| ->%list_elem_of_singleton]%elem_of_app; [|lra].
      specialize (Hmax y Hy). lra.
    + exists (length l). split; [by rewrite lookup_app_r, Nat.sub_diag by lia|].
      split; [done|]. split; [lra|].
      intros j y Hj Hy. rewrite lookup_app_l in Hy by done.
      apply list_elem_of_lookup_2 in Hy. specialize (Hmax y Hy). lra.
  - apply Qnot_lt_le in E. split; [done|]. split.
    + intros y [Hy| ->%list_elem_of_singleton]%elem_of_app; [by apply Hmax|done].
    + destruct r as [x0|]; [|done].
      destruct Hr as (i & Hi & Hfx & Hpos & Hfirst).
      exists i. split; [by apply lookup_app_l_Some|]. split; [done|]. split; [done|].
      intros j y Hj Hy. apply (Hfirst j y Hj).
      rewrite lookup_app_l in Hy; [done|]. apply lookup_lt_Some in Hi. lia.
Qed.

Lemma selector_invariant {A : Type} (f : A -> Q) (l : list A) :
  bestSoFar f l (fold_left (selectStep f) l (None, 0%Q)).
Proof.
  induction l as [|x l IH] using rev_ind.
  - cbn. unfold bestSoFar. cbn. split; [lra|]. split; [|done].
    intros y Hy. by apply elem_of_nil in Hy.
  - rewrite fold_left_app. cbn [fold_left]. by apply selectStep_invariant.
Qed.

Lemma matchRazorpayPayment_fold (o : ShopifyOrder) (ps : list RazorpayPayment) :
  matchRazorpayPayment o ps = fold_left (selectStep (razorpayConfidence o)) ps (None, 0%Q).
Proof.
  unfold matchRazorpayPayment. generalize (@None RazorpayPayment, 0%Q).
  induction ps as [|p ps IH]; intros best; [done|].
  cbn [fold_left]. rewrite IH. f_equal. by destruct best.
Qed.

Lemma matchEasyecomOrder_fold (o : ShopifyOrder) (es : list EasyecomOrder) :
  matchEasyecomOrder o es = fold_left (selectStep (easyecomConfidence o)) es (None, 0%Q).
Proof.
  unfold matchEasyecomOrder. generalize (@None EasyecomOrder, 0%Q).
  induction es as [|e es IH]; intros best; [done|].
  cbn [fold_left]. rewrite IH. f_equal. by destruct best.
Qed.

(** X1. What either selector returns, when it returns a record, is one of
    the candidates; the confidence returned is that record's own, it is
    above 0 and no candidate scores higher; among the candidates of that
    highest score the first in input order is the one returned. *)
Theorem selectors_return_the_first_best
    (o : ShopifyOrder) (ps : list RazorpayPayment) (es : list EasyecomOrder) :
  (forall p c, matchRazorpayPayment o ps = (Some p, c) ->
     c = razorpayConfidence o p /\
     (0 < c)%Q /\
     (forall q, q ∈ ps -> (razorpayConfidence o q <= c)%Q) /\
     exists i, ps !! i = Some p /\
               forall j q, j < i -> ps !! j = Some q -> (razorpayConfidence o q < c)%Q) /\
  (forall e c, matchEasyecomOrder o es = (Some e, c) ->
     c = easyecomConfidence o e /\
     (0 < c)%Q /\
     (forall q, q ∈ es -> (easyecomConfidence o q <= c)%Q) /\
     exists i, es !! i = Some e /\
               forall j q, j < i -> es !! j = Some q -> (easyecomConfidence o q < c)%Q).
Proof.
  split.
  - intros p c Hsel. pose proof (selector_invariant (razorpayConfidence o) ps) as Hinv.
    rewrite <- matchRazorpayPayment_fold, Hsel in Hinv.
    destruct Hinv as (_ & Hmax & i & Hi & Hc & Hpos & Hfirst). cbn [fst snd] in *.
    subst c. eauto 10.
  - intros e c Hsel. pose proof (selector_invariant (easyecomConfidence o) es) as Hinv.
    rewrite <- matchEasyecomOrder_fold, Hsel in Hinv.
    destruct Hinv as (_ & Hmax & i & Hi & Hc & Hpos & Hfirst). cbn [fst snd] in *.
    subst c. eauto 10.
Qed.

Lemma selectors_return_the_first_best_witness :
  (exists i, [stranger_payment; sample_payment; sample_payment] !! i = Some sample_payment /\
             forall j q, j < i ->
               [stranger_payment; sample_payment; sample_payment] !! j = Some q ->
               (razorpayConfidence sample_order q <
                  razorpayConfidence sample_order sample_payment)%Q) /\
  (exists i, [stranger_easyecom; sample_easyecom] !! i = Some sample_easyecom /\
             forall j q, j < i ->
               [stranger_easyecom; sample_easyecom] !! j = Some q ->
               (easyecomConfidence sample_order q <
                  easyecomConfidence sample_order sample_easyecom)%Q).
Proof.
  destruct (selectors_return_the_first_best sample_order
              [stranger_payment; sample_payment; sample_payment]
              [stranger_easyecom; sample_easyecom]) as [Hp He].
  split.
  - apply (Hp sample_payment (razorpayConfidence sample_order sample_payment)).
    vm_compute. reflexivity.
  - apply (He sample_easyecom (easyecomConfidence sample_order sample_easyecom)).
    vm_compute. reflexivity.
Defined.

Lemma selector_some_iff {A : Type} (f : A -> Q) (l : list A) :
  (fold_left (selectStep f) l (None, 0%Q)).1 <> None <-> exists x, x ∈ l /\ (0 < f x)%Q.
Proof.
  destruct (selector_invariant f l) as (_ & Hmax & Hr).
  destruct (fold_left (selectStep f) l (None, 0%Q)) as [[x|] c]; cbn [fst snd] in *.
  - destruct Hr as (i & Hi & _ & Hpos & _). split; [|done].
    intros _. exists x. split; [|done]. by eapply list_elem_of_lookup_2.
  - split; [done|]. intros (x & Hx & Hpos). specialize (Hmax x Hx). subst c. lra.
Qed.

(** X2. Either selector returns a match exactly when some candidate
    scores above 0 against the order. *)
Theorem selectors_match_iff_positive_candidate
    (o : ShopifyOrder) (ps : list RazorpayPayment) (es : list EasyecomOrder) :
  ((matchRazorpayPayment o ps).1 <> None <->
     exists p, p ∈ ps /\ (0 < razorpayConfidence o p)%Q) /\
  ((matchEasyecomOrder o es).1 <> None <->
     exists e, e ∈ es /\ (0 < easyecomConfidence o e)%Q).
Proof.
  rewrite matchRazorpayPayment_fold, matchEasyecomOrder_fold.
  split; apply selector_some_iff.
Qed.

(** ** Candidates inside the time window *)






(** ** Bounds of an outcome *)

Lemma Math_max_upper (a : Q) (l : list Q) (x : Q) :
  x ∈ a :: l -> (x <= Math_max a l)%Q.
Proof.
  unfold Math_max. revert a x. induction l as [|y l IH]; intros a x Hx.
  - apply list_elem_of_singleton in Hx as ->. cbn. lra.
  - cbn [fold_left].
    assert (Qmax a y <= fold_left Qmax l (Qmax a y))%Q as Hm by (apply IH; left).
    pose proof (Q.le_max_l a y). pose proof (Q.le_max_r a y).
    apply elem_of_cons in Hx as [->|Hx]; [lra|].
    apply elem_of_cons in Hx as [->|Hx]; [lra|].
    apply IH. by right.
Qed.

Lemma Math_min_lower (a : Q) (l : list Q) (x : Q) :
  x ∈ a :: l -> (Math_min a l <= x)%Q.
Proof.
  unfold Math_min. revert a x. induction l as [|y l IH]; intros a x Hx.
  - apply list_elem_of_singleton in Hx as ->. cbn. lra.
  - cbn [fold_left].
    assert (fold_left Qmin l (Qmin a y) <= Qmin a y)%Q as Hm by (apply IH; left).
    pose proof (Q.le_min_l a y). pose proof (Q.le_min_r a y).
    apply elem_of_cons in Hx as [->|Hx]; [lra|].
    apply elem_of_cons in Hx as [->|Hx]; [lra|].
    apply IH. by right.
Qed.

(** The confidence either selector returns lies between 0 and 100. *)
Lemma matchRazorpayPayment_bounds (o : ShopifyOrder) (ps : list RazorpayPayment) :
  (0 <= (matchRazorpayPayment o ps).2 <= 100)%Q.
Proof.
  destruct (selector_invariant (razorpayConfidence o) ps) as (Hc & _ & Hr).
  rewrite <- matchRazorpayPayment_fold in *.
  destruct (matchRazorpayPayment o ps) as [[p|] c]; cbn [fst snd] in *.
  - destruct Hr as (_ & _ & -> & _). apply razorpayConfidence_score.
  - subst c. lra.
Qed.

Lemma matchEasyecomOrder_bounds (o : ShopifyOrder) (es : list EasyecomOrder) :
  (0 <= (matchEasyecomOrder o es).2 <= 100)%Q.
Proof.
  destruct (selector_invariant (easyecomConfidence o) es) as (Hc & _ & Hr).
  rewrite <- matchEasyecomOrder_fold in *.
  destruct (matchEasyecomOrder o es) as [[e|] c]; cbn [fst snd] in *.
  - destruct Hr as (_ & _ & -> & _). apply easyecomConfidence_score.
  - subst c. lra.
Qed.

(** X4. Every outcome [findMatches] produces has a confidence between 0
    and 100 and a present, non-negative amount difference. *)
Theorem findMatches_bounds
    (o : ShopifyOrder) (ps : list RazorpayPayment) (es : list EasyecomOrder) :
  (0 <= matchConfidence (findMatches o ps es) <= 100)%Q /\
  exists d, amountDifference (findMatches o ps es) = Some d /\ (0 <= d)%Q.
Proof.
  pose proof (matchRazorpayPayment_bounds o ps) as Hp.
  pose proof (matchEasyecomOrder_bounds o es) as He.
  unfold findMatches. cbn [matchConfidence amountDifference]. split.
  - destruct (matchRazorpayPayment o ps) as [[p|] c1],
             (matchEasyecomOrder o es) as [[e|] c2]; cbn [fst snd] in *; cbn.
    + change (inject_Z 2) with 2%Q.
      assert (((0 + c1 + c2) / 2 == (c1 + c2) * (1 # 2))%Q) as -> by (field; discriminate).
      lra.
    + change (inject_Z 1) with 1%Q.
      assert (((0 + c1) / 1 == c1)%Q) as -> by (field; discriminate). lra.
    + change (inject_Z 1) with 1%Q.
      assert (((0 + c2) / 1 == c2)%Q) as -> by (field; discriminate). lra.
    + split; discriminate.
  - eexists. split; [reflexivity|].
    set (pushed := _ ++ _).
    pose proof (Math_max_upper (totalPrice o) pushed (totalPrice o)) as Hmax.
    pose proof (Math_min_lower (totalPrice o) pushed (totalPrice o)) as Hmin.
    assert (totalPrice o ∈ totalPrice o :: pushed) as Hin by left.
    specialize (Hmax Hin). specialize (Hmin Hin). lra.
Qed.

(** ** Statuses and notes *)

(** What a status tells about the two numbers it was decided from. *)
Lemma determineStatus_inv (c d : Q) :
  match (determineStatus c d).1 with
  | MATCHED => (80 <= c)%Q /\ (d < 1)%Q
  | PARTIAL_MATCH => (50 <= c)%Q /\ (d < 10)%Q /\ ~ ((80 <= c)%Q /\ (d < 1)%Q)
  | DISCREPANCY => (10 <= d)%Q
  | UNMATCHED => (d < 10)%Q /\ ~ ((50 <= c)%Q /\ (d < 10)%Q)
  | UNDER_REVIEW | RESOLVED => False
  end.
Proof.
  unfold determineStatus.
  destruct (Qle_bool 80 c) eqn:E1, (Qlt_bool d 1) eqn:E2;
    destruct (Qle_bool 50 c) eqn:E3, (Qlt_bool d 10) eqn:E4;
    destruct (Qle_bool 10 d) eqn:E5; cbn; reflect_Q;
    repeat split; try tauto; try lra.
Qed.

Lemma determineStatus_notes (c d : Q) :
  (determineStatus c d).2 = None <-> (determineStatus c d).1 = MATCHED.
Proof.
  unfold determineStatus.
  destruct (Qle_bool 80 c && Qlt_bool d 1); [done|].
  destruct (Qle_bool 50 c && Qlt_bool d 10); [done|].
  by destruct (Qle_bool 10 d).
Qed.

(** X5. Every outcome of a run, orphan or not, has one of the four
    statuses MATCHED, PARTIAL_MATCH, DISCREPANCY and UNMATCHED (never
    UNDER_REVIEW or RESOLVED), and carries a note exactly when its status is
    not MATCHED. *)
Theorem outcomes_have_engine_status_and_notes
    (os : list ShopifyOrder) (ps : list RazorpayPayment) (es : list EasyecomOrder)
    (m : MatchResult) :
  m ∈ matches (computeMatches os ps es) ->
  status m ∈ [MATCHED; PARTIAL_MATCH; DISCREPANCY; UNMATCHED] /\
  (discrepancyNotes m = None <-> status m = MATCHED).
Proof.
  destruct (computeMatches_closed os ps es) as (-> & _ & _).
  intros [Hm|[Hm|Hm]%elem_of_app]%elem_of_app.
  - apply list_elem_of_fmap in Hm as (o & -> & _).
    unfold findMatches. cbn [status discrepancyNotes]. split.
    + match goal with |- context [determineStatus ?c ?d] =>
        pose proof (determineStatus_inv c d) as Hinv;
        destruct (determineStatus c d).1 end; try done; repeat constructor.
    + apply determineStatus_notes.
  - apply list_elem_of_fmap in Hm as (p & -> & _). cbn. split; [repeat constructor|done].
  - apply list_elem_of_fmap in Hm as (e & -> & _). cbn. split; [repeat constructor|done].
Qed.

Lemma outcomes_have_engine_status_and_notes_witness :
  status (razorpayOrphan stranger_payment) ∈ [MATCHED; PARTIAL_MATCH; DISCREPANCY; UNMATCHED] /\
  (discrepancyNotes (razorpayOrphan stranger_payment) = None <->
   status (razorpayOrphan stranger_payment) = MATCHED).
Proof.
  apply (outcomes_have_engine_status_and_notes [sample_order]
           [sample_payment; stranger_payment] [sample_easyecom]).
  vm_compute. right. left.
Defined.

(** X6. The classification is monotone: with a confidence at least as high
    and an amount difference at most as large, a MATCHED verdict stays
    MATCHED and a PARTIAL_MATCH one stays PARTIAL_MATCH or becomes MATCHED;
    with a larger difference, at any confidence, DISCREPANCY stays. *)
Theorem classification_is_monotone (c c' d d' : Q) :
  (c' <= c)%Q -> (d <= d')%Q ->
  ((determineStatus c' d').1 = MATCHED -> (determineStatus c d).1 = MATCHED) /\
  ((determineStatus c' d').1 = PARTIAL_MATCH ->
     (determineStatus c d).1 = MATCHED \/ (determineStatus c d).1 = PARTIAL_MATCH) /\
  (forall c0, (determineStatus c0 d).1 = DISCREPANCY -> (determineStatus c d').1 = DISCREPANCY).
Proof.
  intros Hc Hd.
  pose proof (determineStatus_inv c' d') as H'.
  pose proof (determineStatus_inv c d) as H.
  split; [|split].
  - intros E. rewrite E in H'.
    destruct (determineStatus c d).1; try done; exfalso; lra.
  - intros E. rewrite E in H'.
    destruct (determineStatus c d).1; try tauto; exfalso; lra.
  - intros c0 E. pose proof (determineStatus_inv c0 d) as H0. rewrite E in H0.
    apply determineStatus_discrepancy. lra.
Qed.

Lemma classification_is_monotone_witness :
  ((determineStatus 85 (1 # 2)).1 = MATCHED -> (determineStatus 90 0).1 = MATCHED) /\
  ((determineStatus 85 (1 # 2)).1 = PARTIAL_MATCH ->
     (determineStatus 90 0).1 = MATCHED \/ (determineStatus 90 0).1 = PARTIAL_MATCH) /\
  (forall c0, (determineStatus c0 0).1 = DISCREPANCY ->
     (determineStatus 90 (1 # 2)).1 = DISCREPANCY).
Proof.
  apply (classification_is_monotone 90 85 0 (1 # 2)).
  - vm_compute. discriminate.
  - vm_compute. discriminate.
Defined.

(** ** What a high score takes *)

(** X7. A payment scores 80 or more against an order only if both the
    e-mails agree (present on both sides, equal up to case) and the amount
    lies within the 1% tolerance; an order-management order does so only if
    its marketplace order id is the order's Shopify id or number and the
    amount lies within the tolerance. The time signal alone never lifts a
    candidate that high. *)
Theorem high_score_needs_identity_and_amount
    (o : ShopifyOrder) (p : RazorpayPayment) (e : EasyecomOrder) :
  ((80 <= razorpayConfidence o p)%Q ->
     truthy (so_email o) = true /\ truthy (rp_email p) = true /\
     toLowerCase <$> so_email o = toLowerCase <$> rp_email p /\
     (Qabs (totalPrice o - amount p) <= totalPrice o * (1 # 100))%Q) /\
  ((80 <= easyecomConfidence o e)%Q ->
     truthy (marketplaceOrderId e) = true /\
     (marketplaceOrderId e = Some (shopifyOrderId o) \/
      marketplaceOrderId e = Some (shopifyOrderNumber o)) /\
     (Qabs (totalPrice o - totalAmount e) <= totalPrice o * (1 # 100))%Q).
Proof.
  split.
  - unfold razorpayConfidence.
    pose proof (hoursDiff_nonneg (so_createdAt o) (rp_createdAt p)) as Hge.
    set (h := hoursDiff (so_createdAt o) (rp_createdAt p)) in *.
    assert (0 <= h / 24)%Q as Hq.
    { apply Qle_shift_div_l; [reflexivity|]. lra. }
    set (q := (h / 24)%Q) in *.
    destruct (truthy (so_email o)) eqn:E1, (truthy (rp_email p)) eqn:E2;
      case_bool_decide as E3;
      destruct (Qle_bool (Qabs (totalPrice o - amount p)) (totalPrice o * (1 # 100))) eqn:E4;
      destruct (Qle_bool h 24); cbv zeta; cbn [andb]; intros H80; reflect_Q;
      try (exfalso; clear -H80 Hq; lra); done.
  - unfold easyecomConfidence.
    pose proof (hoursDiff_nonneg (so_createdAt o) (eo_createdAt e)) as Hge.
    set (h := hoursDiff (so_createdAt o) (eo_createdAt e)) in *.
    assert (0 <= h / 48)%Q as Hq.
    { apply Qle_shift_div_l; [reflexivity|]. lra. }
    set (q := (h / 48)%Q) in *.
    destruct (truthy (marketplaceOrderId e)) eqn:E1;
      case_bool_decide as E2; case_bool_decide as E3;
      destruct (Qle_bool (Qabs (totalPrice o - totalAmount e)) (totalPrice o * (1 # 100))) eqn:E4;
      destruct (Qle_bool h 48); cbv zeta; cbn [andb orb]; intros H80; reflect_Q;
      try (exfalso; clear -H80 Hq; lra); auto.
Qed.

(** ** Amounts of an outcome *)

Lemma Qmax_minus_Qmin (a b : Q) : (Qmax a b - Qmin a b == Qabs (a - b))%Q.
Proof.
  destruct (Qlt_le_dec a b) as [Hlt|Hle].
  - rewrite Q.max_r, Q.min_l by lra. rewrite Qabs_neg by lra. ring.
  - rewrite Q.max_l, Q.min_r by lra. rewrite Qabs_pos by lra. ring.
Qed.

Lemma spread_bounds (a : Q) (l : list Q) (x y : Q) :
  x ∈ a :: l -> y ∈ a :: l -> (Qabs (x - y) <= Math_max a l - Math_min a l)%Q.
Proof.
  intros Hx Hy.
  pose proof (Math_max_upper a l x Hx). pose proof (Math_max_upper a l y Hy).
  pose proof (Math_min_lower a l x Hx). pose proof (Math_min_lower a l y Hy).
  apply Qabs_case; intros; lra.
Qed.

(** X8. An outcome is MATCHED only if at least one secondary record was
    matched, and then the order's amount and the amounts of the matched
    records lie less than 1 apart from one another. *)
Theorem matched_outcome_amounts_agree
    (o : ShopifyOrder) (ps : list RazorpayPayment) (es : list EasyecomOrder) :
  status (findMatches o ps es) = MATCHED ->
  (is_Some (razorpayPaymentId (findMatches o ps es)) \/
   is_Some (easyecomOrderId (findMatches o ps es))) /\
  (forall p, (matchRazorpayPayment o ps).1 = Some p ->
     (Qabs (totalPrice o - amount p) < 1)%Q) /\
  (forall e, (matchEasyecomOrder o es).1 = Some e ->
     (Qabs (totalPrice o - totalAmount e) < 1)%Q) /\
  (forall p e, (matchRazorpayPayment o ps).1 = Some p ->
     (matchEasyecomOrder o es).1 = Some e ->
     (Qabs (amount p - totalAmount e) < 1)%Q).
Proof.
  unfold findMatches. cbn [status razorpayPaymentId easyecomOrderId].
  match goal with |- context [determineStatus ?c ?d] =>
    pose proof (determineStatus_inv c d) as Hinv end.
  intros E. rewrite E in Hinv. clear E. destruct Hinv as [H80 Hd].
  destruct (matchRazorpayPayment o ps) as [[p|] c1],
           (matchEasyecomOrder o es) as [[e|] c2]; cbn [fst snd fmap option_fmap option_map] in *.
  - split; [left; by eexists|].
    pose proof (spread_bounds (totalPrice o) ([amount p] ++ [totalAmount e])) as Hs.
    repeat split.
    + intros ? [= <-]. eapply Qle_lt_trans; [apply Hs|exact Hd]; set_unfold; tauto.
    + intros ? [= <-]. eapply Qle_lt_trans; [apply Hs|exact Hd]; set_unfold; tauto.
    + intros ? ? [= <-] [= <-]. eapply Qle_lt_trans; [apply Hs|exact Hd]; set_unfold; tauto.
  - split; [left; by eexists|].
    pose proof (spread_bounds (totalPrice o) ([amount p] ++ [])) as Hs.
    repeat split; try done.
    intros ? [= <-]. eapply Qle_lt_trans; [apply Hs|exact Hd]; set_unfold; tauto.
  - split; [right; by eexists|].
    pose proof (spread_bounds (totalPrice o) ([] ++ [totalAmount e])) as Hs.
    repeat split; try done.
    intros ? [= <-]. eapply Qle_lt_trans; [apply Hs|exact Hd]; set_unfold; tauto.
  - exfalso. change (0 <? 0 + 0)%Z with false in H80. cbv iota in H80. clear -H80. lra.
Qed.

Lemma matched_outcome_amounts_agree_witness :
  (is_Some (razorpayPaymentId (findMatches sample_order [sample_payment] [])) \/
   is_Some (easyecomOrderId (findMatches sample_order [sample_payment] []))) /\
  (forall p, (matchRazorpayPayment sample_order [sample_payment]).1 = Some p ->
     (Qabs (totalPrice sample_order - amount p) < 1)%Q) /\
  (forall e, (matchEasyecomOrder sample_order []).1 = Some e ->
     (Qabs (totalPrice sample_order - totalAmount e) < 1)%Q) /\
  (forall p e, (matchRazorpayPayment sample_order [sample_payment]).1 = Some p ->
     (matchEasyecomOrder sample_order []).1 = Some e ->
     (Qabs (amount p - totalAmount e) < 1)%Q).
Proof.
  apply (matched_outcome_amounts_agree sample_order [sample_payment] []).
  vm_compute. reflexivity.
Defined.

(** X9. When a single source was matched, the outcome's confidence is the
    confidence of the record matched (the mean is taken over the matches
    found, not over the two sources) and its amount difference is the
    distance between the order's amount and that record's. *)
Theorem single_source_outcome
    (o : ShopifyOrder) (ps : list RazorpayPayment) (es : list EasyecomOrder) :
  (forall p c, matchRazorpayPayment o ps = (Some p, c) ->
     (matchEasyecomOrder o es).1 = None ->
     razorpayPaymentId (findMatches o ps es) = Some (rp_id p) /\
     easyecomOrderId (findMatches o ps es) = None /\
     (matchConfidence (findMatches o ps es) == razorpayConfidence o p)%Q /\
     exists d, amountDifference (findMatches o ps es) = Some d /\
               (d == Qabs (totalPrice o - amount p))%Q) /\
  (forall e c, (matchRazorpayPayment o ps).1 = None ->
     matchEasyecomOrder o es = (Some e, c) ->
     razorpayPaymentId (findMatches o ps es) = None /\
     easyecomOrderId (findMatches o ps es) = Some (eo_id e) /\
     (matchConfidence (findMatches o ps es) == easyecomConfidence o e)%Q /\
     exists d, amountDifference (findMatches o ps es) = Some d /\
               (d == Qabs (totalPrice o - totalAmount e))%Q).
Proof.
  split.
  - intros p c Hp He.
    pose proof (selector_invariant (razorpayConfidence o) ps) as Hinv.
    rewrite <- matchRazorpayPayment_fold, Hp in Hinv.
    destruct Hinv as (_ & _ & _ & _ & Hc & _). cbn [fst snd] in Hc. subst c.
    unfold findMatches. rewrite Hp, He.
    cbn [fst snd razorpayPaymentId easyecomOrderId matchConfidence amountDifference
         fmap option_fmap option_map].
    split; [done|]. split; [done|]. split.
    + generalize (razorpayConfidence o p). intros c.
      change (0 <? 1 + 0)%Z with true. cbv iota. change (inject_Z (1 + 0)) with 1%Q. field.
    + eexists. split; [reflexivity|]. unfold Math_max, Math_min. cbn [app fold_left].
      apply Qmax_minus_Qmin.
  - intros e c Hp He.
    pose proof (selector_invariant (easyecomConfidence o) es) as Hinv.
    rewrite <- matchEasyecomOrder_fold, He in Hinv.
    destruct Hinv as (_ & _ & _ & _ & Hc & _). cbn [fst snd] in Hc. subst c.
    unfold findMatches. rewrite Hp, He.
    cbn [fst snd razorpayPaymentId easyecomOrderId matchConfidence amountDifference
         fmap option_fmap option_map].
    split; [done|]. split; [done|]. split.
    + generalize (easyecomConfidence o e). intros c.
      change (0 <? 0 + 1)%Z with true. cbv iota. change (inject_Z (0 + 1)) with 1%Q. field.
    + eexists. split; [reflexivity|]. unfold Math_max, Math_min. cbn [app fold_left].
      apply Qmax_minus_Qmin.
Qed.

Lemma single_source_outcome_witness :
  (matchConfidence (findMatches sample_order [sample_payment] []) ==
     razorpayConfidence sample_order sample_payment)%Q /\
  (matchConfidence (findMatches sample_order [] [sample_easyecom]) ==
     easyecomConfidence sample_order sample_easyecom)%Q.
Proof.
  split.
  - apply (proj1 (single_source_outcome sample_order [sample_payment] [])
             sample_payment (razorpayConfidence sample_order sample_payment)).
    + vm_compute. reflexivity.
    + reflexivity.
  - apply (proj2 (single_source_outcome sample_order [] [sample_easyecom])
             sample_easyecom (easyecomConfidence sample_order sample_easyecom)).
    + reflexivity.
    + vm_compute. reflexivity.
Defined.

(** ** Which records the outcomes of a run refer to *)

Lemma matchRazorpayPayment_elem (o : ShopifyOrder) (ps : list RazorpayPayment)
    (p : RazorpayPayment) :
  (matchRazorpayPayment o ps).1 = Some p -> p ∈ ps.
Proof.
  intros Hsel. destruct (selector_invariant (razorpayConfidence o) ps) as (_ & _ & Hr).
  rewrite <- matchRazorpayPayment_fold, Hsel in Hr.
  destruct Hr as (i & Hi & _). by eapply list_elem_of_lookup_2.
Qed.

Lemma matchEasyecomOrder_elem (o : ShopifyOrder) (es : list EasyecomOrder)
    (e : EasyecomOrder) :
  (matchEasyecomOrder o es).1 = Some e -> e ∈ es.
Proof.
  intros Hsel. destruct (selector_invariant (easyecomConfidence o) es) as (_ & _ & Hr).
  rewrite <- matchEasyecomOrder_fold, Hsel in Hr.
  destruct Hr as (i & Hi & _). by eapply list_elem_of_lookup_2.
Qed.

(** X10. The outcomes of a run refer to the loaded records and to nothing
    else: every loaded payment and every loaded order-management order is
    referenced by at least one outcome (a primary one or its own orphan),
    and every id an outcome carries is that of a loaded order, payment or
    order-management order. *)
Theorem outcomes_cover_the_loaded_records
    (os : list ShopifyOrder) (ps : list RazorpayPayment) (es : list EasyecomOrder) :
  (forall p, p ∈ ps ->
     referenced razorpayPaymentId (matches (computeMatches os ps es)) (rp_id p)) /\
  (forall e, e ∈ es ->
     referenced easyecomOrderId (matches (computeMatches os ps es)) (eo_id e)) /\
  (forall m id, m ∈ matches (computeMatches os ps es) ->
     (mr_shopifyOrderId m = Some id -> exists o, o ∈ os /\ so_id o = id) /\
     (razorpayPaymentId m = Some id -> exists p, p ∈ ps /\ rp_id p = id) /\
     (easyecomOrderId m = Some id -> exists e, e ∈ es /\ eo_id e = id)).
Proof.
  destruct (computeMatches_closed os ps es) as (-> & _ & _).
  unfold referenced. split; [|split].
  - intros p Hp. rewrite !Exists_app.
    destruct (decide (rp_id p ∈ matchedRazorpayIds (orderOutcomes os ps es))) as [Hin|Hout].
    + left. by apply elem_of_matchedRazorpayIds in Hin as [_ Href].
    + right. left. apply Exists_exists. exists (razorpayOrphan p). split; [|done].
      apply list_elem_of_fmap. exists p. split; [done|]. by apply list_elem_of_filter.
  - intros e He. rewrite !Exists_app.
    destruct (decide (eo_id e ∈ matchedEasyecomIds (orderOutcomes os ps es))) as [Hin|Hout].
    + left. by apply elem_of_matchedEasyecomIds in Hin as [_ Href].
    + right. right. apply Exists_exists. exists (easyecomOrphan e). split; [|done].
      apply list_elem_of_fmap. exists e. split; [done|]. by apply list_elem_of_filter.
  - intros m id [Hm|[Hm|Hm]%elem_of_app]%elem_of_app.
    + apply list_elem_of_fmap in Hm as (o & -> & Ho).
      unfold findMatches. cbn [mr_shopifyOrderId razorpayPaymentId easyecomOrderId].
      split; [|split].
      * intros [= <-]. eauto.
      * destruct (matchRazorpayPayment o ps).1 as [p|] eqn:E; [|done].
        intros [= <-]. exists p. split; [|done]. by eapply matchRazorpayPayment_elem.
      * destruct (matchEasyecomOrder o es).1 as [e|] eqn:E; [|done].
        intros [= <-]. exists e. split; [|done]. by eapply matchEasyecomOrder_elem.
    + apply list_elem_of_fmap in Hm as (p & -> & [_ Hp]%list_elem_of_filter).
      cbn. repeat split; try done. intros [= <-]. eauto.
    + apply list_elem_of_fmap in Hm as (e & -> & [_ He]%list_elem_of_filter).
      cbn. repeat split; try done. intros [= <-]. eauto.
Qed.

(** X11. The outcomes are stored in a fixed order: one outcome per order,
    in loader order, then the orphans of the payments in loader order, then
    those of the order-management orders in loader order. *)
Theorem outcomes_keep_loader_order
    (os : list ShopifyOrder) (ps : list RazorpayPayment) (es : list EasyecomOrder) :
  exists orphansA orphansB,
    sublist orphansA ps /\ sublist orphansB es /\
    mr_shopifyOrderId <$> matches (computeMatches os ps es) =
      (Some ∘ so_id <$> os) ++ replicate (length orphansA + length orphansB) None /\
    razorpayPaymentId <$> drop (length os) (matches (computeMatches os ps es)) =
      (Some ∘ rp_id <$> orphansA) ++ replicate (length orphansB) None /\
    easyecomOrderId <$> drop (length os) (matches (computeMatches os ps es)) =
      replicate (length orphansA) None ++ (Some ∘ eo_id <$> orphansB).
Proof.
  destruct (computeMatches_closed os ps es) as (-> & _ & _).
  set (a := filter _ ps). set (b := filter _ es).
  exists a, b. split; [apply sublist_filter|]. split; [apply sublist_filter|].
  assert (length (orderOutcomes os ps es) = length os) as Hlen
    by (unfold orderOutcomes; by rewrite length_fmap).
  rewrite <- Hlen, drop_app_length, !fmap_app.
  assert (forall l : list RazorpayPayment,
            mr_shopifyOrderId <$> (razorpayOrphan <$> l) = replicate (length l) None /\
            razorpayPaymentId <$> (razorpayOrphan <$> l) = Some ∘ rp_id <$> l /\
            easyecomOrderId <$> (razorpayOrphan <$> l) = replicate (length l) None) as HA.
  { induction l as [|x l (IH1 & IH2 & IH3)]; [done|]. cbn. by rewrite IH1, IH2, IH3. }
  assert (forall l : list EasyecomOrder,
            mr_shopifyOrderId <$> (easyecomOrphan <$> l) = replicate (length l) None /\
            razorpayPaymentId <$> (easyecomOrphan <$> l) = replicate (length l) None /\
            easyecomOrderId <$> (easyecomOrphan <$> l) = Some ∘ eo_id <$> l) as HB.
  { induction l as [|x l (IH1 & IH2 & IH3)]; [done|]. cbn. by rewrite IH1, IH2, IH3. }
  destruct (HA a) as (-> & -> & ->). destruct (HB b) as (-> & -> & ->).
  rewrite replicate_add. repeat split; try done.
  f_equal. unfold orderOutcomes. rewrite <- list_fmap_compose. done.
Qed.

(** ** What a call leaves in the two tables *)






(** X14. When a platform sync rejects, the call throws one of the rejected
    syncs' messages after having started all three syncs; it loads nothing,
    stores no outcome, and marks the run FAILED. *)
Theorem failed_sync_aborts_before_loading
    (env : Collaborators) (now startDate endDate : Z) (w : World) :
  shopify_syncOrders env startDate endDate <> None \/
  razorpay_syncPayments env startDate endDate <> None \/
  easyecom_syncOrders env startDate endDate <> None ->
  exists message w',
    reconcile env now startDate endDate w = (inl message, w') /\
    (shopify_syncOrders env startDate endDate = Some message \/
     razorpay_syncPayments env startDate endDate = Some message \/
     easyecom_syncOrders env startDate endDate = Some message) /\
    calls w' =
      calls w ++
      [CreateLog ("RUN_" +:+ pretty now);
       Sync Shopify startDate endDate; Sync Razorpay startDate endDate;
       Sync Easyecom startDate endDate;
       UpdateManyLogs ("RUN_" +:+ pretty now)] /\
    reconciliation w' = reconciliation w /\
    log_status <$> last (reconciliationLog w') = Some FAILED.
Proof.
  intros Hfail. unfold reconcile. run_M.
  destruct (shopify_syncOrders env startDate endDate) as [m1|]; run_M.
  { eexists m1, _. split; [reflexivity|]. cbn [calls reconciliation reconciliationLog].
    rewrite <- !app_assoc, fmap_app, list_fmap_singleton, last_snoc. cbn.
    rewrite decide_True by done. auto. }
  destruct (razorpay_syncPayments env startDate endDate) as [m2|]; run_M.
  { eexists m2, _. split; [reflexivity|]. cbn [calls reconciliation reconciliationLog].
    rewrite <- !app_assoc, fmap_app, list_fmap_singleton, last_snoc. cbn.
    rewrite decide_True by done. auto 6. }
  destruct (easyecom_syncOrders env startDate endDate) as [m3|]; run_M.
  { eexists m3, _. split; [reflexivity|]. cbn [calls reconciliation reconciliationLog].
    rewrite <- !app_assoc, fmap_app, list_fmap_singleton, last_snoc. cbn.
    rewrite decide_True by done. auto 6. }
  exfalso. tauto.
Qed.

Lemma failed_sync_aborts_before_loading_witness :
  exists message w',
    reconcile offline_env 1 0 10 emptyWorld = (inl message, w') /\
    (shopify_syncOrders offline_env 0 10 = Some message \/
     razorpay_syncPayments offline_env 0 10 = Some message \/
     easyecom_syncOrders offline_env 0 10 = Some message) /\
    calls w' =
      calls emptyWorld ++
      [CreateLog ("RUN_" +:+ pretty 1%Z);
       Sync Shopify 0 10; Sync Razorpay 0 10; Sync Easyecom 0 10;
       UpdateManyLogs ("RUN_" +:+ pretty 1%Z)] /\
    reconciliation w' = reconciliation emptyWorld /\
    log_status <$> last (reconciliationLog w') = Some FAILED.
Proof.
  apply (failed_sync_aborts_before_loading offline_env 1 0 10 emptyWorld).
  right. left. discriminate.
Defined.

(** X15. Nothing is replaced or de-duplicated: two completed runs over the
    same window and the same loaded records store the run's outcomes
    twice, and the report counts them twice. *)
Theorem rerun_stores_outcomes_again
    (env : Collaborators) (now1 now2 startDate endDate : Z) (w w1 w2 : World)
    (run1 run2 : string) :
  reconcile env now1 startDate endDate w = (inr run1, w1) ->
  reconcile env now2 startDate endDate w1 = (inr run2, w2) ->
  reconciliation w2 =
    reconciliation w ++ matches (runOf env startDate endDate)
                     ++ matches (runOf env startDate endDate) /\
  total (getReport w2).1 =
    length (reconciliation w) + 2 * length (matches (runOf env startDate endDate)).
Proof.
  intros (_ & Hrows1 & _)%reconcile_completed (_ & Hrows2 & _)%reconcile_completed.
  rewrite Hrows2, Hrows1, <- app_assoc. split; [done|].
  unfold getReport. cbn [fst total]. rewrite Hrows2, Hrows1, !length_app. lia.
Qed.

Lemma rerun_stores_outcomes_again_witness :
  reconciliation (reconcile sample_env 2 0 10 (reconcile sample_env 1 0 10 emptyWorld).2).2 =
    reconciliation emptyWorld ++ matches (runOf sample_env 0 10)
                              ++ matches (runOf sample_env 0 10) /\
  total (getReport (reconcile sample_env 2 0 10 (reconcile sample_env 1 0 10 emptyWorld).2).2).1 =
    length (reconciliation emptyWorld) + 2 * length (matches (runOf sample_env 0 10)).
Proof.
  apply (rerun_stores_outcomes_again sample_env 1 2 0 10 emptyWorld
           (reconcile sample_env 1 0 10 emptyWorld).2
           (reconcile sample_env 2 0 10 (reconcile sample_env 1 0 10 emptyWorld).2).2
           "RUN_1" "RUN_2").
  - vm_compute. reflexivity.
  - vm_compute. reflexivity.
Defined.

(** ** The report *)

Lemma countStatus_total (rows : list MatchResult) :
  length rows =
    countStatus MATCHED rows + countStatus PARTIAL_MATCH rows + countStatus UNMATCHED rows +
    countStatus DISCREPANCY rows + countStatus UNDER_REVIEW rows + countStatus RESOLVED rows.
Proof.
  unfold countStatus. induction rows as [|r rows IH]; [done|].
  rewrite !filter_cons. cbn [length]. rewrite IH.
  destruct (status r); repeat case_decide; try done; cbn [length]; lia.
Qed.

(** X16. The summary of the report counts every stored row in [total], but
    its five buckets leave the RESOLVED rows out: the buckets add up to the
    total less the number of RESOLVED rows. *)
Theorem report_buckets_leave_resolved_out (w : World) :
  total (getReport w).1 =
    matched (getReport w).1 + partialMatch (getReport w).1 + unmatched (getReport w).1 +
    discrepancies (getReport w).1 + underReview (getReport w).1 +
    countStatus RESOLVED (reconciliation w) /\
  (getReport w).2 = reconciliation w.
Proof.
  unfold getReport.
  cbn [fst snd total matched partialMatch unmatched discrepancies underReview].
  split; [|done]. apply countStatus_total.
Qed.

Lemma outcome_status_not_manual (os : list ShopifyOrder) (ps : list RazorpayPayment)
    (es : list EasyecomOrder) (m : MatchResult) :
  m ∈ matches (computeMatches os ps es) ->
  status m <> UNDER_REVIEW /\ status m <> RESOLVED.
Proof.
  destruct (computeMatches_closed os ps es) as (-> & _ & _).
  intros [Hm|[Hm|Hm]%elem_of_app]%elem_of_app.
  - apply list_elem_of_fmap in Hm as (o & -> & _).
    unfold findMatches. cbn [status].
    match goal with |- context [determineStatus ?c ?d] =>
      pose proof (determineStatus_inv c d) as Hinv;
      destruct (determineStatus c d).1 end; done.
  - by apply list_elem_of_fmap in Hm as (p & -> & _).
  - by apply list_elem_of_fmap in Hm as (e & -> & _).
Qed.

Lemma countStatus_not_MATCHED (rows : list MatchResult) :
  length (filter (fun m => status m <> MATCHED) rows) =
    countStatus PARTIAL_MATCH rows + countStatus UNMATCHED rows +
    countStatus DISCREPANCY rows + countStatus UNDER_REVIEW rows + countStatus RESOLVED rows.
Proof.
  pose proof (countStatus_total rows). pose proof (count_split rows). lia.
Qed.

(** X17. After a completed run on an empty table of outcomes the report
    agrees with the run's log entry: [total] is the processed count,
    [matched] the matched count, the three buckets [partialMatch],
    [unmatched] and [discrepancies] add up to the log's unmatched count,
    and [underReview] is 0. *)
Theorem report_agrees_with_log_entry
    (env : Collaborators) (now startDate endDate : Z) (w w' : World) (run : string) :
  reconcile env now startDate endDate w = (inr run, w') ->
  reconciliation w = [] ->
  exists entry,
    last (reconciliationLog w') = Some entry /\
    runId entry = run /\
    total (getReport w').1 = recordsProcessed entry /\
    matched (getReport w').1 = recordsMatched entry /\
    partialMatch (getReport w').1 + unmatched (getReport w').1 +
      discrepancies (getReport w').1 = recordsUnmatched entry /\
    underReview (getReport w').1 = 0.
Proof.
  intros (_ & Hrows & Hlog)%reconcile_completed Hempty.
  exists (completedEntry run (runOf env startDate endDate)).
  rewrite Hlog, last_snoc. rewrite Hempty in Hrows. cbn [app] in Hrows.
  unfold getReport. rewrite Hrows.
  cbn [fst total matched partialMatch unmatched discrepancies underReview completedEntry
       runId recordsProcessed recordsMatched recordsUnmatched].
  unfold runOf.
  set (os := shopify_getLocalOrders env startDate endDate).
  set (ps := razorpay_getLocalPayments env startDate endDate).
  set (es := easyecom_getLocalOrders env startDate endDate).
  destruct (counters_computeMatches os ps es) as (-> & ->).
  assert (countStatus UNDER_REVIEW (matches (computeMatches os ps es)) = 0 /\
          countStatus RESOLVED (matches (computeMatches os ps es)) = 0) as [Hu Hr].
  { unfold countStatus. rewrite !filter_none; [done| |].
    - intros m Hm. by apply outcome_status_not_manual in Hm as [_ ?].
    - intros m Hm. by apply outcome_status_not_manual in Hm as [? _]. }
  rewrite countStatus_not_MATCHED, Hu, Hr. repeat split; try done. lia.
Qed.

Lemma report_agrees_with_log_entry_witness :
  exists entry,
    last (reconciliationLog (reconcile contested_env 1 0 10 emptyWorld).2) = Some entry /\
    runId entry = "RUN_1" /\
    total (getReport (reconcile contested_env 1 0 10 emptyWorld).2).1 = recordsProcessed entry /\
    matched (getReport (reconcile contested_env 1 0 10 emptyWorld).2).1 = recordsMatched entry /\
    partialMatch (getReport (reconcile contested_env 1 0 10 emptyWorld).2).1 +
      unmatched (getReport (reconcile contested_env 1 0 10 emptyWorld).2).1 +
      discrepancies (getReport (reconcile contested_env 1 0 10 emptyWorld).2).1
      = recordsUnmatched entry /\
    underReview (getReport (reconcile contested_env 1 0 10 emptyWorld).2).1 = 0.
Proof.
  apply (report_agrees_with_log_entry contested_env 1 0 10 emptyWorld
           (reconcile contested_env 1 0 10 emptyWorld).2 "RUN_1").
  - vm_compute. reflexivity.
  - reflexivity.
Defined.

(** * The Razorpay service *)

Lemma fetchAllPayments_serves (remote : list RazorpayService.RazorpayPaymentData)
    (api : RazorpayService.Query -> string + list RazorpayService.RazorpayPaymentData)
    (fromTimestamp toTimestamp : Z) :
  RazorpayService.serves remote api ->
  forall fuel skip acc,
    length (drop skip remote) / 100 < fuel ->
    RazorpayService.fetchAllPayments api fromTimestamp toTimestamp fuel skip acc =
      Some (inr (acc ++ drop skip remote)).
Proof.
  intros Hserves. induction fuel as [|fuel IH]; intros skip acc Hfuel; [lia|].
  cbn [RazorpayService.fetchAllPayments]. unfold RazorpayService.fetchPayments.
  rewrite Hserves.
  cbn [RazorpayService.count RazorpayService.skip RazorpayService.q_count
       RazorpayService.q_skip].
  assert (match skip with S n => S n | 0 => 0 end = skip) as -> by by destruct skip.
  set (rest := drop skip remote) in *.
  destruct (decide (length (take 100 rest) = 0)) as [Hnil|Hsome].
  - rewrite length_take in Hnil.
    assert (rest = []) as -> by (apply length_zero_iff_nil; lia).
    by rewrite app_nil_r.
  - cbv zeta. destruct (decide (length (take 100 rest) < 100)) as [Hshort|Hfull].
    + rewrite length_take in Hshort. by rewrite take_ge by lia.
    + rewrite length_take in Hfull.
      rewrite IH.
      * rewrite <- app_assoc. unfold rest. rewrite <- drop_drop. fold rest.
        by rewrite take_drop.
      * rewrite <- drop_drop. fold rest. rewrite length_drop.
        assert (length rest = 1 * 100 + (length rest - 100)) as Hsplit by lia.
        rewrite Hsplit, Nat.div_add_l in Hfuel by lia. lia.
Qed.

Lemma pagination_aux (remote : list RazorpayService.RazorpayPaymentData)
    (api : RazorpayService.Query -> string + list RazorpayService.RazorpayPaymentData)
    (fromTimestamp toTimestamp : Z) (fuel : nat) :
  RazorpayService.serves remote api ->
  length remote / 100 < fuel ->
  RazorpayService.fetchAllPayments api fromTimestamp toTimestamp fuel 0 [] =
    Some (inr remote).
Proof.
  intros Hserves Hfuel.
  by rewrite (fetchAllPayments_serves remote api _ _ Hserves fuel 0 []).
Qed.

(** X18. Against an account that serves its payments in slices of the
    requested size, the pagination loop of [syncPayments] collects every
    payment exactly once and in order, also when their number is a multiple
    of the page size; it needs one request more than there are full
    pages. *)
Theorem pagination_collects_every_payment
    (remote : list RazorpayService.RazorpayPaymentData)
    (api : RazorpayService.Query -> string + list RazorpayService.RazorpayPaymentData)
    (fromTimestamp toTimestamp : Z) (fuel : nat) :
  RazorpayService.serves remote api ->
  length remote / 100 < fuel ->
  RazorpayService.fetchAllPayments api fromTimestamp toTimestamp fuel 0 [] =
    Some (inr remote).
Proof.
  intros Hserves Hfuel.
  by rewrite (fetchAllPayments_serves remote api _ _ Hserves fuel 0 []).
Qed.

Lemma pagination_collects_every_payment_witness :
  RazorpayService.fetchAllPayments
    (RazorpayService.slices (RazorpayService.payment <$> seq 0 200)) 1700000000 1700086400
    3 0 [] =
    Some (inr (RazorpayService.payment <$> seq 0 200)).
Proof.
  apply (pagination_collects_every_payment (RazorpayService.payment <$> seq 0 200)
           (RazorpayService.slices (RazorpayService.payment <$> seq 0 200))
           1700000000 1700086400 3).
  - intros q. reflexivity.
  - vm_compute. lia.
Defined.

(** The table after the save loop, when no upsert is rejected: the last
    payment of an id is the one stored. *)
Lemma saveAllPayments_lookup
    (rejects : gmap string RazorpayService.Row -> RazorpayService.Row -> option string)
    (l : list RazorpayService.RazorpayPaymentData) (n : nat)
    (table : gmap string RazorpayService.Row) :
  (forall t r, rejects t r = None) ->
  exists table',
    RazorpayService.saveAllPayments rejects l n table = (inr (n + length l), table') /\
    forall k, table' !! k =
      match last (filter (fun d => RazorpayService.id d = k) l) with
      | Some d => Some (RazorpayService.toRow d)
      | None => table !! k
      end.
Proof.
  intros Hok. revert n table. induction l as [|d l IH]; intros n table.
  - exists table. cbn. split; [f_equal; f_equal; lia|done].
  - cbn [RazorpayService.saveAllPayments]. unfold RazorpayService.savePayment.
    rewrite Hok.
    destruct (IH (S n) (<[RazorpayService.id d := RazorpayService.toRow d]> table))
      as (table' & -> & Hlook).
    exists table'. split; [cbn; f_equal; f_equal; lia|].
    intros k. rewrite Hlook, filter_cons.
    destruct (decide (RazorpayService.id d = k)) as [<-|Hne].
    + destruct (filter _ l) as [|x xs] eqn:E.
      * cbn. by rewrite lookup_insert_eq.
      * rewrite last_cons_cons. destruct (last (x :: xs)) eqn:E2; [done|].
        by apply last_None in E2.
    + destruct (last (filter _ l)); [done|]. by rewrite lookup_insert_ne.
Qed.

(** X19. A sync against such an account during which no upsert is rejected
    returns the number of payments fetched and leaves, for every Razorpay
    id, the row of the last fetched payment of that id, with the amount
    converted from paise (divided by 100) and the creation time from seconds
    to milliseconds; rows of ids that were not fetched stay as they were. *)
Theorem sync_stores_every_fetched_payment
    (remote : list RazorpayService.RazorpayPaymentData)
    (api : RazorpayService.Query -> string + list RazorpayService.RazorpayPaymentData)
    (rejects : gmap string RazorpayService.Row -> RazorpayService.Row -> option string)
    (fuel : nat) (startDate endDate : Z) (table : gmap string RazorpayService.Row) :
  RazorpayService.serves remote api ->
  (forall t r, rejects t r = None) ->
  length remote / 100 < fuel ->
  exists table',
    RazorpayService.syncPayments api rejects fuel startDate endDate table =
      Some (inr (length remote), table') /\
    (forall d, last (filter (fun x => RazorpayService.id x = RazorpayService.id d) remote)
                 = Some d ->
       exists row, table' !! RazorpayService.id d = Some row /\
         RazorpayService.razorpayId row = RazorpayService.id d /\
         RazorpayService.row_amount row = (RazorpayService.amount d / 100)%Q /\
         RazorpayService.row_createdAt row = (RazorpayService.created_at d * 1000)%Z) /\
    (forall k, (forall d, d ∈ remote -> RazorpayService.id d <> k) ->
       table' !! k = table !! k).
Proof.
  intros Hserves Hok Hfuel. unfold RazorpayService.syncPayments.
  rewrite (pagination_aux remote api _ _ fuel Hserves Hfuel).
  destruct (saveAllPayments_lookup rejects remote 0 table Hok) as (table' & Hsave & Hlook).
  exists table'. split; [by rewrite Hsave|]. split.
  - intros d Hlast. exists (RazorpayService.toRow d). by rewrite Hlook, Hlast.
  - intros k Hk. rewrite Hlook, filter_none; [done|].
    intros d Hd. by apply Hk.
Qed.

Lemma sync_stores_every_fetched_payment_witness :
  exists table',
    RazorpayService.syncPayments
      (RazorpayService.slices (RazorpayService.payment <$> seq 0 3))
      RazorpayService.neverRejects 1 1700000000000 1700086400000 ∅ =
      Some (inr (length (RazorpayService.payment <$> seq 0 3)), table') /\
    (forall d,
       last (filter (fun x => RazorpayService.id x = RazorpayService.id d)
                    (RazorpayService.payment <$> seq 0 3)) = Some d ->
       exists row, table' !! RazorpayService.id d = Some row /\
         RazorpayService.razorpayId row = RazorpayService.id d /\
         RazorpayService.row_amount row = (RazorpayService.amount d / 100)%Q /\
         RazorpayService.row_createdAt row = (RazorpayService.created_at d * 1000)%Z) /\
    (forall k,
       (forall d, d ∈ RazorpayService.payment <$> seq 0 3 -> RazorpayService.id d <> k) ->
       table' !! k = (∅ : gmap string RazorpayService.Row) !! k).
Proof.
  apply (sync_stores_every_fetched_payment (RazorpayService.payment <$> seq 0 3)
           (RazorpayService.slices (RazorpayService.payment <$> seq 0 3))
           RazorpayService.neverRejects 1 1700000000000 1700086400000 ∅).
  - intros q. reflexivity.
  - intros t r. reflexivity.
  - vm_compute. lia.
Defined.

(** X20. Syncing is idempotent: a second sync of the same payments, be it
    for the same window or for another, leaves the table as the first one
    left it. *)
Theorem sync_twice_is_sync_once
    (remote : list RazorpayService.RazorpayPaymentData)
    (api : RazorpayService.Query -> string + list RazorpayService.RazorpayPaymentData)
    (rejects : gmap string RazorpayService.Row -> RazorpayService.Row -> option string)
    (fuel : nat) (startDate endDate startDate' endDate' : Z)
    (table : gmap string RazorpayService.Row) :
  RazorpayService.serves remote api ->
  (forall t r, rejects t r = None) ->
  length remote / 100 < fuel ->
  exists table',
    RazorpayService.syncPayments api rejects fuel startDate endDate table =
      Some (inr (length remote), table') /\
    RazorpayService.syncPayments api rejects fuel startDate' endDate' table' =
      Some (inr (length remote), table').
Proof.
  intros Hserves Hok Hfuel. unfold RazorpayService.syncPayments.
  rewrite !(pagination_aux remote api _ _ fuel Hserves Hfuel).
  destruct (saveAllPayments_lookup rejects remote 0 table Hok) as (table' & Hsave & Hlook).
  destruct (saveAllPayments_lookup rejects remote 0 table' Hok) as (table'' & Hsave' & Hlook').
  exists table'. rewrite Hsave, Hsave'. split; [done|].
  f_equal. f_equal. apply map_eq. intros k. rewrite Hlook', Hlook.
  by destruct (last (filter _ remote)).
Qed.

Lemma sync_twice_is_sync_once_witness :
  exists table',
    RazorpayService.syncPayments
      (RazorpayService.slices (RazorpayService.payment <$> seq 0 3))
      RazorpayService.neverRejects 1 1700000000000 1700086400000 ∅ =
      Some (inr (length (RazorpayService.payment <$> seq 0 3)), table') /\
    RazorpayService.syncPayments
      (RazorpayService.slices (RazorpayService.payment <$> seq 0 3))
      RazorpayService.neverRejects 1 1600000000000 1700086400000 table' =
      Some (inr (length (RazorpayService.payment <$> seq 0 3)), table').
Proof.
  apply (sync_twice_is_sync_once (RazorpayService.payment <$> seq 0 3)
           (RazorpayService.slices (RazorpayService.payment <$> seq 0 3))
           RazorpayService.neverRejects 1
           1700000000000 1700086400000 1600000000000 1700086400000 ∅).
  - intros q. reflexivity.
  - intros t r. reflexivity.
  - vm_compute. lia.
Defined.

Lemma fetchAllPayments_fails
    (api : RazorpayService.Query -> string + list RazorpayService.RazorpayPaymentData)
    (fromTimestamp toTimestamp : Z) (k : nat) (message : string) :
  (forall q j, j < k -> RazorpayService.q_skip q = 100 * j ->
     exists page, api q = inr page /\ 100 <= length page) ->
  (forall q, RazorpayService.q_skip q = 100 * k -> api q = inl message) ->
  forall fuel j acc,
    j <= k -> k - j < fuel ->
    RazorpayService.fetchAllPayments api fromTimestamp toTimestamp fuel (100 * j) acc =
      Some (inl message).
Proof.
  intros Hfull Hfail. induction fuel as [|fuel IH]; intros j acc Hj Hfuel; [lia|].
  cbn [RazorpayService.fetchAllPayments]. unfold RazorpayService.fetchPayments.
  match goal with |- context [api ?q] => set (query := q) end.
  assert (RazorpayService.q_skip query = 100 * j) as Hskip.
  { subst query. cbn [RazorpayService.q_skip RazorpayService.skip].
    by destruct (100 * j). }
  destruct (decide (j = k)) as [->|Hne].
  - by rewrite (Hfail query Hskip).
  - destruct (Hfull query j) as (page & -> & Hlen); [lia|done|].
    rewrite decide_False by lia. cbv zeta. rewrite decide_False by lia.
    replace (100 * j + 100) with (100 * S j) by lia.
    apply IH; lia.
Qed.

(** X21. When the request for a page fails after any number of full pages,
    the sync throws that request's error and stores nothing: the pages
    fetched before are dropped and the table is left as it was. *)
Theorem failed_page_stores_nothing
    (api : RazorpayService.Query -> string + list RazorpayService.RazorpayPaymentData)
    (rejects : gmap string RazorpayService.Row -> RazorpayService.Row -> option string)
    (fuel : nat) (startDate endDate : Z) (table : gmap string RazorpayService.Row)
    (k : nat) (message : string) :
  (forall q j, j < k -> RazorpayService.q_skip q = 100 * j ->
     exists page, api q = inr page /\ 100 <= length page) ->
  (forall q, RazorpayService.q_skip q = 100 * k -> api q = inl message) ->
  k < fuel ->
  RazorpayService.syncPayments api rejects fuel startDate endDate table =
    Some (inl message, table).
Proof.
  intros Hfull Hfail Hfuel. unfold RazorpayService.syncPayments.
  change 0 with (100 * 0) at 1.
  rewrite (fetchAllPayments_fails api _ _ k message Hfull Hfail fuel 0 []) by lia.
  done.
Qed.

Lemma failed_page_stores_nothing_witness :
  RazorpayService.syncPayments RazorpayService.flaky RazorpayService.neverRejects
    5 1700000000000 1700086400000 ∅ =
    Some (inl "timeout of 30000ms exceeded", ∅).
Proof.
  apply (failed_page_stores_nothing RazorpayService.flaky RazorpayService.neverRejects
           5 1700000000000 1700086400000 ∅ 1 "timeout of 30000ms exceeded").
  - intros q j Hj Hskip. exists (RazorpayService.payment <$> seq 0 100).
    unfold RazorpayService.flaky. rewrite Hskip.
    assert (j = 0) as -> by lia. split; [reflexivity|]. vm_compute. lia.
  - intros q Hskip. unfold RazorpayService.flaky. rewrite Hskip. reflexivity.
  - lia.
Defined.

(** * The Link header of the Shopify service *)

Example extractNextPageInfo_two_links :
  ShopifyService.extractNextPageInfo
    (Some ("<https://shop.example/admin/api/2025-10/orders.json?limit=250&page_info=abc>; rel="
           +:+ ShopifyService.quote +:+ "previous" +:+ ShopifyService.quote +:+
           ", <https://shop.example/admin/api/2025-10/orders.json?limit=250&page_info=xyz>; "
           +:+ ShopifyService.relNext)) = Some "xyz".
Proof. vm_compute. reflexivity. Qed.


Lemma append_String (c : ascii) (a b : string) : String c a +:+ b = String c (a +:+ b).
Proof. reflexivity. Qed.

Lemma append_empty (b : string) : "" +:+ b = b.
Proof. reflexivity. Qed.

Lemma append_assoc (a b c : string) : (a +:+ b) +:+ c = a +:+ b +:+ c.
Proof.
  induction a as [|d a IH]; [done|]. by rewrite !append_String, IH.
Qed.

Lemma string_length_app (a b : string) :
  String.length (a +:+ b) = String.length a + String.length b.
Proof.
  induction a as [|c a IH]; [done|]. rewrite append_String. cbn. by rewrite IH.
Qed.

Lemma startsWith_app (pattern s : string) :
  ShopifyService.startsWith pattern (pattern +:+ s) = true.
Proof.
  induction pattern as [|a pattern IH]; [by destruct s|].
  rewrite append_String. cbn [ShopifyService.startsWith].
  by rewrite Ascii.eqb_refl, IH.
Qed.

Lemma startsWith_long (pattern a b : string) :
  String.length pattern <= String.length a ->
  ShopifyService.startsWith pattern (a +:+ b) = ShopifyService.startsWith pattern a.
Proof.
  revert a. induction pattern as [|c pattern IH]; intros a Hlen.
  - by destruct a, b.
  - destruct a as [|d a]; cbn in Hlen; [lia|].
    rewrite append_String. cbn [ShopifyService.startsWith]. rewrite IH by lia. done.
Qed.

Lemma includes_app (pattern a b : string) :
  ShopifyService.includes pattern (a +:+ pattern +:+ b) = true.
Proof.
  induction a as [|c a IH].
  - rewrite append_empty.
    assert (ShopifyService.startsWith pattern (pattern +:+ b) = true) as H
      by apply startsWith_app.
    destruct (pattern +:+ b); cbn [ShopifyService.includes]; by rewrite H.
  - rewrite append_String. cbn [ShopifyService.includes]. rewrite IH. apply orb_true_r.
Qed.

Lemma free_app (bad : ascii -> bool) (a b : string) :
  ShopifyService.free bad (a +:+ b) = ShopifyService.free bad a && ShopifyService.free bad b.
Proof.
  induction a as [|c a IH]; [done|].
  rewrite append_String. cbn [ShopifyService.free]. rewrite IH. by rewrite andb_assoc.
Qed.

Lemma split_free (separator : ascii) (s : string) :
  ShopifyService.free (fun c => Ascii.eqb c separator) s = true ->
  ShopifyService.split separator s = [s].
Proof.
  induction s as [|c s IH]; [done|]. cbn [ShopifyService.free ShopifyService.split].
  intros [Hc Hs]%andb_true_iff. apply negb_true_iff in Hc. rewrite Hc, IH; done.
Qed.

Lemma takeValue_app (v rest : string) :
  ShopifyService.free (fun c => Ascii.eqb c "&" || Ascii.eqb c ">") v = true ->
  ShopifyService.takeValue (v +:+ String ">" rest) = v.
Proof.
  induction v as [|c v IH]; [done|].
  rewrite append_String. cbn [ShopifyService.free ShopifyService.takeValue].
  intros [Hc Hv]%andb_true_iff. apply negb_true_iff in Hc. rewrite Hc, IH; done.
Qed.

Lemma dropChars_app (n : nat) (a b : string) :
  n <= String.length a ->
  ShopifyService.dropChars n (a +:+ b) = ShopifyService.dropChars n a +:+ b.
Proof.
  revert a. induction n as [|n IH]; intros a Hlen; [done|].
  destruct a as [|c a]; cbn in Hlen; [lia|].
  rewrite append_String. cbn [ShopifyService.dropChars]. apply IH. lia.
Qed.

Lemma dropChars_nonempty (n : nat) (a : string) :
  n < String.length a -> ShopifyService.dropChars n a <> "".
Proof.
  revert a. induction n as [|n IH]; intros a Hlen.
  - destruct a; cbn in *; [lia|done].
  - destruct a as [|c a]; cbn in Hlen; [lia|]. cbn [ShopifyService.dropChars]. apply IH. lia.
Qed.

Lemma takeValue_empty_app (x b : string) :
  x <> "" -> ShopifyService.takeValue x = "" -> ShopifyService.takeValue (x +:+ b) = "".
Proof.
  destruct x as [|c x]; [done|]. intros _.
  rewrite append_String. cbn [ShopifyService.takeValue].
  by destruct (Ascii.eqb c "&" || Ascii.eqb c ">").
Qed.

(** The match of [page_info=] in a link whose part before the parameter
    holds no match of its own. *)
Lemma matchPageInfo_found (url cursor rest : string) :
  ShopifyService.matchPageInfo (url +:+ "page_info") = None ->
  cursor <> "" ->
  ShopifyService.free (fun c => Ascii.eqb c "&" || Ascii.eqb c ">") cursor = true ->
  ShopifyService.matchPageInfo (url +:+ "page_info=" +:+ cursor +:+ String ">" rest)
    = Some cursor.
Proof.
  intros Hurl Hne Hfree. induction url as [|c url IH].
  - rewrite append_empty.
    change ("page_info=" +:+ cursor +:+ String ">" rest)
      with (String "p" ("age_info=" +:+ cursor +:+ String ">" rest)).
    cbn [ShopifyService.matchPageInfo].
    change (ShopifyService.startsWith "page_info="
              (String "p" ("age_info=" +:+ cursor +:+ String ">" rest))) with true.
    cbv iota.
    change (ShopifyService.dropChars 10 (String "p" ("age_info=" +:+ cursor +:+ String ">" rest)))
      with (cursor +:+ String ">" rest).
    rewrite takeValue_app by done. by destruct cursor.
  - rewrite append_String in Hurl |- *.
    cbn [ShopifyService.matchPageInfo] in Hurl |- *.
    set (T := "=" +:+ cursor +:+ String ">" rest).
    assert (url +:+ "page_info=" +:+ cursor +:+ String ">" rest = (url +:+ "page_info") +:+ T)
      as HX by (rewrite (append_assoc url); reflexivity).
    rewrite HX.
    assert (ShopifyService.startsWith "page_info=" (String c ((url +:+ "page_info") +:+ T)) =
            ShopifyService.startsWith "page_info=" (String c (url +:+ "page_info"))) as ->.
    { rewrite <- append_String. apply startsWith_long.
      cbn [String.length]. rewrite string_length_app. cbn. lia. }
    destruct (ShopifyService.startsWith "page_info=" (String c (url +:+ "page_info"))) eqn:Hstart.
    + destruct url as [|d url].
      { exfalso. rewrite append_empty in Hstart. cbn in Hstart.
        by rewrite andb_false_r in Hstart. }
      destruct (ShopifyService.takeValue
                  (ShopifyService.dropChars 10 (String c (String d url +:+ "page_info"))))
        eqn:Hvalue; [|done].
      rewrite <- (append_String c), dropChars_app.
      2:{ cbn [String.length]. rewrite string_length_app. cbn. lia. }
      rewrite takeValue_empty_app; [| |done].
      * rewrite <- HX. by apply IH.
      * apply dropChars_nonempty. cbn [String.length]. rewrite string_length_app. cbn. lia.
    + rewrite <- HX. by apply IH.
Qed.

Lemma free_weaken (bad1 bad2 : ascii -> bool) (s : string) :
  (forall c, bad1 c = true -> bad2 c = true) ->
  ShopifyService.free bad2 s = true -> ShopifyService.free bad1 s = true.
Proof.
  intros Hbad. induction s as [|c s IH]; [done|]. cbn [ShopifyService.free].
  intros [Hc Hs]%andb_true_iff. rewrite IH by done. rewrite andb_true_r.
  apply negb_true_iff in Hc. apply negb_true_iff.
  destruct (bad1 c) eqn:E; [|done]. apply Hbad in E. congruence.
Qed.

Lemma nextLink_truthy (url cursor : string) :
  truthy (Some (ShopifyService.nextLink url cursor)) = true.
Proof. unfold ShopifyService.nextLink. by destruct url. Qed.

Lemma firstNextPageInfo_nextLink (url cursor : string) :
  ShopifyService.free (fun c => Ascii.eqb c ",") url = true ->
  ShopifyService.matchPageInfo (url +:+ "page_info") = None ->
  cursor <> "" ->
  ShopifyService.free
    (fun c => Ascii.eqb c "&" || Ascii.eqb c ">" || Ascii.eqb c ",") cursor = true ->
  ShopifyService.firstNextPageInfo
    (ShopifyService.split "," (ShopifyService.nextLink url cursor)) = Some cursor.
Proof.
  intros Hurl Hnone Hne Hcursor.
  assert (ShopifyService.free (fun c => Ascii.eqb c ",") cursor = true) as Hcomma.
  { eapply free_weaken; [|exact Hcursor]. intros c Hc. cbv beta in *. rewrite Hc.
    apply orb_true_r. }
  assert (ShopifyService.free (fun c => Ascii.eqb c "&" || Ascii.eqb c ">") cursor = true)
    as Hvalue.
  { eapply free_weaken; [|exact Hcursor]. intros c Hc. cbv beta in *. by rewrite Hc. }
  rewrite split_free.
  2:{ unfold ShopifyService.nextLink. rewrite !free_app, Hurl, Hcomma. reflexivity. }
  cbn [ShopifyService.firstNextPageInfo].
  assert (ShopifyService.includes ShopifyService.relNext (ShopifyService.nextLink url cursor)
            = true) as ->.
  { unfold ShopifyService.nextLink.
    rewrite <- (append_assoc "page_info="), <- (append_assoc url),
            <- (append_assoc _ ">; " ShopifyService.relNext).
    replace ShopifyService.relNext with (ShopifyService.relNext +:+ "") at 2 by reflexivity.
    apply includes_app. }
  unfold ShopifyService.nextLink.
  change (">; " +:+ ShopifyService.relNext) with (String ">" ("; " +:+ ShopifyService.relNext)).
  by rewrite matchPageInfo_found.
Qed.

(** X22. Round trip of the cursor: from the Link header of a page with a
    next page, built from a URL without comma and without a [page_info]
    parameter of its own and from a non-empty cursor free of [&], [>] and
    comma, [extractNextPageInfo] returns that cursor. *)
Theorem next_page_cursor_round_trip (url cursor : string) :
  ShopifyService.free (fun c => Ascii.eqb c ",") url = true ->
  ShopifyService.matchPageInfo (url +:+ "page_info") = None ->
  cursor <> "" ->
  ShopifyService.free
    (fun c => Ascii.eqb c "&" || Ascii.eqb c ">" || Ascii.eqb c ",") cursor = true ->
  ShopifyService.extractNextPageInfo (Some (ShopifyService.nextLink url cursor)) = Some cursor.
Proof.
  intros Hurl Hnone Hne Hcursor.
  unfold ShopifyService.extractNextPageInfo.
  rewrite nextLink_truthy.
  by apply firstNextPageInfo_nextLink.
Qed.

Lemma next_page_cursor_round_trip_witness :
  ShopifyService.extractNextPageInfo
    (Some (ShopifyService.nextLink
             "<https://shop.example/admin/api/2025-10/orders.json?limit=250&"
             "eyJsYXN0X2lkIjo0MDkwfQ")) = Some "eyJsYXN0X2lkIjo0MDkwfQ".
Proof.
  apply (next_page_cursor_round_trip
           "<https://shop.example/admin/api/2025-10/orders.json?limit=250&"
           "eyJsYXN0X2lkIjo0MDkwfQ").
  - vm_compute. reflexivity.
  - vm_compute. reflexivity.
  - discriminate.
  - vm_compute. reflexivity.
Defined.

Lemma split_head (separator : ascii) (s : string) :
  exists piece pieces rest,
    ShopifyService.split separator s = piece :: pieces /\ s = piece +:+ rest.
Proof.
  induction s as [|c s (piece & pieces & rest & Hsplit & Hs)].
  - by exists "", [], "".
  - cbn [ShopifyService.split]. destruct (Ascii.eqb c separator).
    + by exists "", (ShopifyService.split separator s), (String c s).
    + rewrite Hsplit. exists (String c piece), pieces, rest.
      split; [done|]. by rewrite append_String, <- Hs.
Qed.

Lemma startsWith_app_r (pattern a b : string) :
  ShopifyService.startsWith pattern a = true ->
  ShopifyService.startsWith pattern (a +:+ b) = true.
Proof.
  revert a. induction pattern as [|c pattern IH]; intros a; [by destruct (a +:+ b)|].
  destruct a as [|d a]; [done|]. rewrite append_String. cbn [ShopifyService.startsWith].
  intros [-> H]%andb_true_iff. by rewrite IH.
Qed.

Lemma includes_tail (pattern : string) (c : ascii) (s : string) :
  ShopifyService.includes pattern s = true ->
  ShopifyService.includes pattern (String c s) = true.
Proof. intros H. cbn [ShopifyService.includes]. rewrite H. apply orb_true_r. Qed.

(** A piece of a split string holds no text the string does not hold. *)
Lemma includes_piece (pattern : string) (separator : ascii) (s piece : string) :
  piece ∈ ShopifyService.split separator s ->
  ShopifyService.includes pattern piece = true ->
  ShopifyService.includes pattern s = true.
Proof.
  revert piece. induction s as [|c s IH]; intros piece Hin Hinc.
  - cbn in Hin. by apply list_elem_of_singleton in Hin as ->.
  - cbn [ShopifyService.split] in Hin. destruct (Ascii.eqb c separator).
    + apply elem_of_cons in Hin as [->|Hin].
      * cbn in Hinc. rewrite orb_false_r in Hinc.
        destruct pattern; [done|discriminate].
      * apply includes_tail. by eapply IH.
    + destruct (split_head separator s) as (x & xs & rest & Hsplit & Hs).
      rewrite Hsplit in Hin, IH.
      apply elem_of_cons in Hin as [->|Hin].
      * cbn [ShopifyService.includes] in Hinc.
        apply orb_true_iff in Hinc as [Hstart|Hin].
        -- cbn [ShopifyService.includes]. rewrite Hs, <- append_String.
           by rewrite startsWith_app_r.
        -- apply includes_tail. eapply IH; [left|done].
      * apply includes_tail. eapply IH; [by right|done].
Qed.

Lemma firstNextPageInfo_none (links : list string) :
  (forall link, link ∈ links -> ShopifyService.includes ShopifyService.relNext link = false) ->
  ShopifyService.firstNextPageInfo links = None.
Proof.
  induction links as [|link links IH]; intros Hnone; [done|].
  cbn [ShopifyService.firstNextPageInfo]. rewrite Hnone by left.
  apply IH. intros l Hl. apply Hnone. by right.
Qed.

(** X23. A missing or empty Link header, and a header that does not hold
    the text [rel="next"] (the header of a last page, which names the
    previous page only), give no cursor. *)
Theorem header_without_next_gives_no_cursor (linkHeader : option string) :
  (forall header, linkHeader = Some header ->
     ShopifyService.includes ShopifyService.relNext header = false) ->
  ShopifyService.extractNextPageInfo linkHeader = None.
Proof.
  intros Hno. unfold ShopifyService.extractNextPageInfo.
  destruct linkHeader as [header|]; [|done].
  destruct (truthy (Some header)); [|done].
  apply firstNextPageInfo_none. intros link Hlink.
  destruct (ShopifyService.includes ShopifyService.relNext link) eqn:E; [|done].
  rewrite <- (Hno header eq_refl). symmetry. by eapply includes_piece.
Qed.

Lemma header_without_next_gives_no_cursor_witness :
  ShopifyService.extractNextPageInfo
    (Some ("<https://shop.example/admin/api/2025-10/orders.json?limit=250&page_info=abc>; rel="
           +:+ ShopifyService.quote +:+ "previous" +:+ ShopifyService.quote)) = None.
Proof.
  apply (header_without_next_gives_no_cursor
    (Some ("<https://shop.example/admin/api/2025-10/orders.json?limit=250&page_info=abc>; rel="
           +:+ ShopifyService.quote +:+ "previous" +:+ ShopifyService.quote))).
  intros header [= <-]. vm_compute. reflexivity.
Defined.

(** * The pages of the Shopify service *)

(** X24. A page with fewer orders than the limit ends the pagination,
    whatever its Link header says: the call returns the orders of that page
    after one request. *)
Theorem short_page_ends_the_pagination
    (get : ShopifyService.Query -> string + ShopifyService.Response)
    (params : ShopifyService.FetchParams) (fuel : nat) (response : ShopifyService.Response) :
  (forall q, ShopifyService.page_info q = None -> get q = inr response) ->
  length (default [] (ShopifyService.orders response)) <
    match ShopifyService.limit params with Some (S n) => S n | _ => 250 end ->
  ShopifyService.fetchOrders get params (S fuel) =
    Some (inr (default [] (ShopifyService.orders response))).
Proof.
  intros Hget Hshort. unfold ShopifyService.fetchOrders.
  cbn [ShopifyService.fetchPages]. unfold ShopifyService.queryParams.
  cbn [truthy]. rewrite Hget by done.
  cbn [ShopifyService.q_limit]. cbv zeta.
  rewrite decide_True by done. done.
Qed.

Lemma short_page_ends_the_pagination_witness :
  ShopifyService.fetchOrders
    (fun _ => inr (ShopifyService.pageOf "<https://shop.example/orders.json?"
                     (ShopifyService.order <$> seq 0 3) (Some "abc")))
    {| ShopifyService.createdAtMin := Some 0%Z; ShopifyService.createdAtMax := Some 10%Z;
       ShopifyService.limit := None; ShopifyService.status := None |} 1 =
    Some (inr (default [] (ShopifyService.orders
                 (ShopifyService.pageOf "<https://shop.example/orders.json?"
                    (ShopifyService.order <$> seq 0 3) (Some "abc"))))).
Proof.
  apply (short_page_ends_the_pagination
           (fun _ => inr (ShopifyService.pageOf "<https://shop.example/orders.json?"
                            (ShopifyService.order <$> seq 0 3) (Some "abc")))
           {| ShopifyService.createdAtMin := Some 0%Z; ShopifyService.createdAtMax := Some 10%Z;
              ShopifyService.limit := None; ShopifyService.status := None |} 0).
  - intros q Hq. reflexivity.
  - vm_compute. lia.
Defined.

Lemma serveCursor_app (url : string)
    (pre suf : list (string * list ShopifyService.ShopifyOrderData)) (cursor : string) :
  cursor ∉ pre.*1 ->
  ShopifyService.serveCursor url (pre ++ suf) cursor = ShopifyService.serveCursor url suf cursor.
Proof.
  induction pre as [|[c page] pre IH]; intros Hnot; [done|].
  cbn [app ShopifyService.serveCursor]. rewrite fmap_cons in Hnot. cbn in Hnot.
  apply not_elem_of_cons in Hnot as [Hne Hnot].
  rewrite decide_False by done. by apply IH.
Qed.

Lemma fetchPages_cursor (url : string) (first : list ShopifyService.ShopifyOrderData)
    (more : list (string * list ShopifyService.ShopifyOrderData))
    (baseParams : ShopifyService.Query) :
  ShopifyService.free (fun c => Ascii.eqb c ",") url = true ->
  ShopifyService.matchPageInfo (url +:+ "page_info") = None ->
  Forall ShopifyService.cursorOk more.*1 ->
  NoDup more.*1 ->
  Forall (fun page => ShopifyService.q_limit baseParams <= length page)
         (take (length more) (first :: more.*2)) ->
  forall suf pre cursor page allOrders fuel,
    more = pre ++ (cursor, page) :: suf ->
    length suf < fuel ->
    ShopifyService.fetchPages (ShopifyService.shop url first more) baseParams fuel
      allOrders (Some cursor) =
      Some (inr (allOrders ++ page ++ concat suf.*2)).
Proof.
  intros Hurl Hnone Hok Hnd Hfull.
  induction suf as [|[c' page'] suf IH]; intros pre cursor page allOrders fuel Hmore Hfuel;
    (destruct fuel as [|fuel]; [lia|]).
  all: assert (ShopifyService.cursorOk cursor) as [Hne Hfree].
  1,3: rewrite Forall_forall in Hok; apply Hok; rewrite Hmore, fmap_app, fmap_cons;
       apply elem_of_app; right; left.
  all: assert (cursor ∉ pre.*1) as Hfresh.
  1,3: rewrite Hmore, fmap_app, fmap_cons in Hnd;
       apply NoDup_app in Hnd as (_ & Hdisj & _); intros Hin; apply (Hdisj _ Hin); left.
  all: cbn [ShopifyService.fetchPages]; unfold ShopifyService.queryParams;
    assert (truthy (Some cursor) = true) as -> by (by destruct cursor);
    unfold ShopifyService.shop at 1; cbn [ShopifyService.page_info];
    rewrite Hmore at 1; rewrite serveCursor_app by done;
    cbn [ShopifyService.serveCursor]; rewrite decide_True by done;
    cbn [head fmap option_fmap option_map ShopifyService.pageOf ShopifyService.orders
         ShopifyService.link default from_option id]; cbv zeta.
  - cbn [ShopifyService.extractNextPageInfo truthy].
    destruct (decide (length page < ShopifyService.q_limit baseParams));
      cbn [truthy concat fmap list_fmap]; by rewrite app_nil_r.
  - rewrite decide_False.
    2:{ rewrite Forall_forall in Hfull. apply Nat.le_ngt, Hfull.
        apply (list_elem_of_lookup_2 _ (S (length pre))).
        rewrite lookup_take_lt by (rewrite Hmore, length_app; cbn; lia).
        change ((first :: more.*2) !! S (length pre)) with (more.*2 !! length pre).
        rewrite Hmore, fmap_app, lookup_app_r by (by rewrite length_fmap).
        by rewrite length_fmap, Nat.sub_diag. }
    assert (ShopifyService.cursorOk c') as [Hne' Hfree'].
    { rewrite Forall_forall in Hok. apply Hok. rewrite Hmore, fmap_app, !fmap_cons.
      apply elem_of_app. right. right. left. }
    unfold ShopifyService.extractNextPageInfo. rewrite nextLink_truthy.
    rewrite firstNextPageInfo_nextLink by done.
    cbn [fst]. assert (truthy (Some c') = true) as -> by (by destruct c').
    rewrite (IH (pre ++ [(cursor, page)]) c' page').
    + change (list_fmap _ _ snd ((c', page') :: suf)) with (page' :: suf.*2).
      cbn [concat]. by rewrite <- !app_assoc.
    + by rewrite <- app_assoc.
    + cbn in Hfuel. lia.
Qed.

(** X25. Against a shop that serves a first page and further pages under
    distinct cursors, each full page naming the cursor of the next one in
    its Link header, [fetchOrders] returns the orders of all pages, in
    order, provided every page but the last holds at least [limit]
    orders. *)
Theorem cursor_pages_are_collected
    (url : string) (first : list ShopifyService.ShopifyOrderData)
    (more : list (string * list ShopifyService.ShopifyOrderData))
    (params : ShopifyService.FetchParams) (fuel : nat) :
  ShopifyService.free (fun c => Ascii.eqb c ",") url = true ->
  ShopifyService.matchPageInfo (url +:+ "page_info") = None ->
  Forall ShopifyService.cursorOk more.*1 ->
  NoDup more.*1 ->
  Forall (fun page =>
            match ShopifyService.limit params with Some (S n) => S n | _ => 250 end
              <= length page)
         (take (length more) (first :: more.*2)) ->
  length more < fuel ->
  ShopifyService.fetchOrders (ShopifyService.shop url first more) params fuel =
    Some (inr (first ++ concat more.*2)).
Proof.
  intros Hurl Hnone Hok Hnd Hfull Hfuel. unfold ShopifyService.fetchOrders.
  set (baseParams := {| ShopifyService.q_limit := _ |}).
  destruct fuel as [|fuel]; [lia|].
  cbn [ShopifyService.fetchPages]. unfold ShopifyService.queryParams. cbn [truthy].
  unfold ShopifyService.shop at 1. cbn [ShopifyService.page_info baseParams].
  cbn [ShopifyService.pageOf ShopifyService.orders ShopifyService.link default from_option id].
  cbv zeta. destruct more as [|[cursor page] suf].
  - cbn [head fmap option_fmap option_map ShopifyService.extractNextPageInfo truthy].
    destruct (decide (length first < ShopifyService.q_limit baseParams));
      cbn [truthy concat fmap list_fmap]; by rewrite app_nil_r.
  - rewrite decide_False.
    2:{ apply Nat.le_ngt. apply Forall_cons_1 in Hfull as [Hfirst _]. exact Hfirst. }
    cbn [head fmap option_fmap option_map fst].
    assert (ShopifyService.cursorOk cursor) as [Hne Hfree].
    { by apply Forall_cons_1 in Hok as [? _]. }
    unfold ShopifyService.extractNextPageInfo. rewrite nextLink_truthy.
    rewrite firstNextPageInfo_nextLink by done.
    assert (truthy (Some cursor) = true) as -> by (by destruct cursor).
    rewrite (fetchPages_cursor url first ((cursor, page) :: suf) baseParams
               Hurl Hnone Hok Hnd Hfull suf [] cursor page).
    + change (list_fmap _ _ snd ((cursor, page) :: suf)) with (page :: suf.*2).
      cbn [concat]. by rewrite app_nil_l.
    + done.
    + cbn in Hfuel. lia.
Qed.

Lemma cursor_pages_are_collected_witness :
  ShopifyService.fetchOrders
    (ShopifyService.shop "<https://shop.example/admin/api/2025-10/orders.json?limit=2&"
       (ShopifyService.order <$> [1; 2])
       [("eyJhIjoxfQ", ShopifyService.order <$> [3; 4]);
        ("eyJhIjoyfQ", ShopifyService.order <$> [5])])
    {| ShopifyService.createdAtMin := Some 0%Z; ShopifyService.createdAtMax := Some 10%Z;
       ShopifyService.limit := Some 2; ShopifyService.status := None |} 3 =
    Some (inr ((ShopifyService.order <$> [1; 2]) ++
               concat [("eyJhIjoxfQ", ShopifyService.order <$> [3; 4]);
                       ("eyJhIjoyfQ", ShopifyService.order <$> [5])].*2)).
Proof.
  apply (cursor_pages_are_collected
           "<https://shop.example/admin/api/2025-10/orders.json?limit=2&"
           (ShopifyService.order <$> [1; 2])
           [("eyJhIjoxfQ", ShopifyService.order <$> [3; 4]);
            ("eyJhIjoyfQ", ShopifyService.order <$> [5])]
           {| ShopifyService.createdAtMin := Some 0%Z; ShopifyService.createdAtMax := Some 10%Z;
              ShopifyService.limit := Some 2; ShopifyService.status := None |} 3).
  - vm_compute. reflexivity.
  - vm_compute. reflexivity.
  - repeat constructor; vm_compute; congruence.
  - apply (bool_decide_unpack _). vm_compute. exact I.
  - repeat constructor.
  - cbn. lia.
Defined.

(** * The Easyecom service *)

Lemma tryEndpoints_Some
    (post : string -> EasyecomService.HttpError + EasyecomService.AuthResponse)
    (now : Z) (endpoints : list string) (client client' : EasyecomService.Client)
    (tok : string) :
  EasyecomService.tryEndpoints post now endpoints client = (Some tok, client') ->
  exists i endpoint response,
    endpoints !! i = Some endpoint /\
    post endpoint = inr response /\
    EasyecomService.tokenOf response = Some tok /\
    truthy (Some tok) = true /\
    (forall j e, j < i -> endpoints !! j = Some e -> EasyecomService.givesNoToken post e) /\
    client' =
      {| EasyecomService.authToken := Some tok;
         EasyecomService.tokenExpiry := Some (now + 7776000000)%Z;
         EasyecomService.requests :=
           EasyecomService.requests client ++ (EasyecomService.Post <$> take (S i) endpoints) |}.
Proof.
  revert client client'. induction endpoints as [|endpoint rest IH]; intros client client';
    [done|].
  cbn [EasyecomService.tryEndpoints].
  assert (forall c'' : EasyecomService.Client,
            EasyecomService.givesNoToken post endpoint ->
            EasyecomService.tryEndpoints post now rest
              (EasyecomService.sent (EasyecomService.Post endpoint) client) = (Some tok, c'') ->
            exists i e r,
              (endpoint :: rest) !! i = Some e /\ post e = inr r /\
              EasyecomService.tokenOf r = Some tok /\ truthy (Some tok) = true /\
              (forall j e0, j < i -> (endpoint :: rest) !! j = Some e0 ->
                 EasyecomService.givesNoToken post e0) /\
              c'' = {| EasyecomService.authToken := Some tok;
                       EasyecomService.tokenExpiry := Some (now + 7776000000)%Z;
                       EasyecomService.requests :=
                         EasyecomService.requests client ++
                         (EasyecomService.Post <$> take (S i) (endpoint :: rest)) |}) as Hnext.
  { intros c'' Hno (i & e & r & Hi & Hp & Ht & Htr & Hbefore & ->)%IH.
    exists (S i), e, r. repeat split; try done.
    - intros [|j] e0 Hj Hl; cbn in Hl; [by injection Hl as <-|].
      apply (Hbefore j); [lia|done].
    - cbn. by rewrite <- app_assoc. }
  destruct (post endpoint) as [error|response] eqn:Hpost.
  - intros H. apply Hnext; [|done]. intros r Hr. congruence.
  - destruct (truthy (EasyecomService.tokenOf response)) eqn:Htruthy.
    + intros [= Htok <-]. exists 0, endpoint, response.
      rewrite Htok in *. repeat split; try done. intros j e Hj. lia.
    + intros H. apply Hnext; [|done]. intros r Hr. congruence.
Qed.

Lemma tryEndpoints_None
    (post : string -> EasyecomService.HttpError + EasyecomService.AuthResponse)
    (now : Z) (endpoints : list string) (client client' : EasyecomService.Client) :
  EasyecomService.tryEndpoints post now endpoints client = (None, client') ->
  (forall e, e ∈ endpoints -> EasyecomService.givesNoToken post e) /\
  client' =
    {| EasyecomService.authToken := EasyecomService.authToken client;
       EasyecomService.tokenExpiry := EasyecomService.tokenExpiry client;
       EasyecomService.requests :=
         EasyecomService.requests client ++ (EasyecomService.Post <$> endpoints) |}.
Proof.
  revert client client'. induction endpoints as [|endpoint rest IH]; intros client client'.
  - cbn. intros [= <-]. split; [by intros e ?%elem_of_nil|].
    destruct client. cbn. by rewrite app_nil_r.
  - cbn [EasyecomService.tryEndpoints].
    assert (EasyecomService.givesNoToken post endpoint ->
            EasyecomService.tryEndpoints post now rest
              (EasyecomService.sent (EasyecomService.Post endpoint) client) = (None, client') ->
            (forall e, e ∈ endpoint :: rest -> EasyecomService.givesNoToken post e) /\
            client' =
              {| EasyecomService.authToken := EasyecomService.authToken client;
                 EasyecomService.tokenExpiry := EasyecomService.tokenExpiry client;
                 EasyecomService.requests :=
                   EasyecomService.requests client ++
                   (EasyecomService.Post <$> endpoint :: rest) |}) as Hnext.
    { intros Hno (Hall & ->)%IH. split.
      - intros e [->|He]%elem_of_cons; [done|by apply Hall].
      - cbn. by rewrite <- app_assoc. }
    destruct (post endpoint) as [error|response] eqn:Hpost.
    + intros H. apply Hnext; [|done]. intros r Hr. congruence.
    + destruct (truthy (EasyecomService.tokenOf response)) eqn:Htruthy.
      * destruct (EasyecomService.tokenOf response); [|done]. intros [=].
      * intros H. apply Hnext; [|done]. intros r Hr. congruence.
Qed.

(** X26. A token obtained at time t0 is kept with the expiry t0 + 90 days;
    until then [getValidToken] returns it without sending any request, and
    from that instant on it authenticates again. *)
Theorem token_is_reused_until_it_expires
    (post : string -> EasyecomService.HttpError + EasyecomService.AuthResponse)
    (email : string) (t0 : Z) (client client1 : EasyecomService.Client) (tok : string) :
  EasyecomService.authenticate post email t0 client = (inr tok, client1) ->
  EasyecomService.authToken client1 = Some tok /\
  EasyecomService.tokenExpiry client1 = Some (t0 + 7776000000)%Z /\
  (forall t, (t < t0 + 7776000000)%Z ->
     EasyecomService.getValidToken post email t client1 = (inr tok, client1)) /\
  (forall t, (t0 + 7776000000 <= t)%Z ->
     EasyecomService.getValidToken post email t client1 =
       EasyecomService.authenticate post email t client1).
Proof.
  unfold EasyecomService.authenticate.
  destruct (EasyecomService.tryEndpoints post t0 EasyecomService.authEndpoints client)
    as [[tok'|] client'] eqn:E; intros [= <- <-].
  apply tryEndpoints_Some in E as (i & e & r & _ & _ & _ & Htruthy & _ & ->).
  cbn [EasyecomService.authToken EasyecomService.tokenExpiry].
  split; [done|]. split; [done|].
  unfold EasyecomService.getValidToken.
  cbn [EasyecomService.authToken EasyecomService.tokenExpiry]. rewrite Htruthy. split.
  - intros t Ht. by rewrite bool_decide_true.
  - intros t Ht. rewrite bool_decide_false by lia. done.
Qed.

Lemma token_is_reused_until_it_expires_witness :
  EasyecomService.authToken EasyecomService.signedIn = Some "jwt-2" /\
  EasyecomService.tokenExpiry EasyecomService.signedIn = Some (1000 + 7776000000)%Z /\
  (forall t, (t < 1000 + 7776000000)%Z ->
     EasyecomService.getValidToken (EasyecomService.revokedPost "jwt-2") "ops@example.com" t
       EasyecomService.signedIn = (inr "jwt-2", EasyecomService.signedIn)) /\
  (forall t, (1000 + 7776000000 <= t)%Z ->
     EasyecomService.getValidToken (EasyecomService.revokedPost "jwt-2") "ops@example.com" t
       EasyecomService.signedIn =
     EasyecomService.authenticate (EasyecomService.revokedPost "jwt-2") "ops@example.com" t
       EasyecomService.signedIn).
Proof.
  apply (token_is_reused_until_it_expires (EasyecomService.revokedPost "jwt-2")
           "ops@example.com" 1000 EasyecomService.signedOut).
  vm_compute. reflexivity.
Defined.

(** X27. [authenticate] asks the three endpoints in their order and stops
    at the first that answers with a token (the property [token], or else
    [access_token]); an endpoint that fails, with any status, or answers
    without a token is passed over.  When none gives a token it throws the
    fixed error, which carries no response status, after three requests,
    and leaves the cached token and expiry as they were. *)
Theorem authenticate_asks_the_endpoints_in_order
    (post : string -> EasyecomService.HttpError + EasyecomService.AuthResponse)
    (email : string) (now : Z) (client : EasyecomService.Client) :
  match EasyecomService.authenticate post email now client with
  | (inr tok, client') =>
      exists i endpoint response,
        EasyecomService.authEndpoints !! i = Some endpoint /\
        post endpoint = inr response /\
        EasyecomService.tokenOf response = Some tok /\
        (forall j e, j < i -> EasyecomService.authEndpoints !! j = Some e ->
           EasyecomService.givesNoToken post e) /\
        EasyecomService.requests client' =
          EasyecomService.requests client ++
          (EasyecomService.Post <$> take (S i) EasyecomService.authEndpoints)
  | (inl error, client') =>
      (forall e, e ∈ EasyecomService.authEndpoints -> EasyecomService.givesNoToken post e) /\
      error = {| EasyecomService.message := EasyecomService.authenticationFailed email;
                 EasyecomService.responseStatus := None |} /\
      EasyecomService.requests client' =
        EasyecomService.requests client ++
        [EasyecomService.Post "/access/token"; EasyecomService.Post "/token";
         EasyecomService.Post "/api/token"] /\
      EasyecomService.authToken client' = EasyecomService.authToken client /\
      EasyecomService.tokenExpiry client' = EasyecomService.tokenExpiry client
  end.
Proof.
  unfold EasyecomService.authenticate.
  destruct (EasyecomService.tryEndpoints post now EasyecomService.authEndpoints client)
    as [[tok|] client'] eqn:E.
  - apply tryEndpoints_Some in E as (i & e & r & Hi & Hp & Ht & _ & Hbefore & ->).
    exists i, e, r. by repeat split.
  - apply tryEndpoints_None in E as (Hall & ->). by repeat split.
Qed.

(** X28. When the server answers 401 to the cached token, [fetchOrders]
    drops the token, signs in again and repeats the request once with the
    new token: with a server that hands out a new token at the first
    endpoint and serves it, the call returns the orders after the requests
    GET, POST, GET, and keeps the new token with a new expiry. *)
Theorem revoked_token_is_replaced_and_the_request_repeated
    (post : string -> EasyecomService.HttpError + EasyecomService.AuthResponse)
    (get : string -> EasyecomService.Query ->
           EasyecomService.HttpError + option (list EasyecomService.EasyecomOrderData))
    (email : string) (now expiry : Z) (params : EasyecomService.FetchParams)
    (client : EasyecomService.Client) (stale fresh : string)
    (error : EasyecomService.HttpError) (response : EasyecomService.AuthResponse)
    (data : option (list EasyecomService.EasyecomOrderData)) :
  EasyecomService.authToken client = Some stale ->
  EasyecomService.tokenExpiry client = Some expiry ->
  (now < expiry)%Z ->
  truthy (Some stale) = true ->
  (forall q, get stale q = inl error) ->
  EasyecomService.responseStatus error = Some 401 ->
  post "/access/token" = inr response ->
  EasyecomService.tokenOf response = Some fresh ->
  truthy (Some fresh) = true ->
  (forall q, get fresh q = inr data) ->
  exists q,
    EasyecomService.fetchOrders post get email now params client =
      (inr (default [] data),
       {| EasyecomService.authToken := Some fresh;
          EasyecomService.tokenExpiry := Some (now + 7776000000)%Z;
          EasyecomService.requests :=
            EasyecomService.requests client ++
            [EasyecomService.Get stale q; EasyecomService.Post "/access/token";
             EasyecomService.Get fresh q] |}).
Proof.
  intros Htok Hexp Hnow Hstale Hget401 H401 Hpost Hfresh Htruthy Hget.
  unfold EasyecomService.fetchOrders.
  set (q := {| EasyecomService.q_limit := _ |}). exists q.
  unfold EasyecomService.request at 1.
  unfold EasyecomService.getAuthHeaders, EasyecomService.getValidToken.
  rewrite Htok, Hexp, Hstale, bool_decide_true by done. cbn [andb].
  rewrite Hget401, H401. cbn [EasyecomService.sent EasyecomService.authToken].
  rewrite bool_decide_true by done. rewrite Htok, Hstale. cbn [andb].
  unfold EasyecomService.request, EasyecomService.getAuthHeaders,
    EasyecomService.getValidToken, EasyecomService.authenticate.
  cbn [EasyecomService.authToken EasyecomService.tokenExpiry EasyecomService.authEndpoints
       EasyecomService.tryEndpoints].
  rewrite Hpost, Hfresh, Htruthy. rewrite Hget.
  unfold EasyecomService.sent.
  cbn [EasyecomService.authToken EasyecomService.tokenExpiry EasyecomService.requests].
  rewrite <- !app_assoc. reflexivity.
Qed.

Lemma revoked_token_is_replaced_and_the_request_repeated_witness :
  exists q,
    EasyecomService.fetchOrders (EasyecomService.revokedPost "jwt-3")
      (EasyecomService.revokedGet "jwt-2" []) "ops@example.com" 5000
      {| EasyecomService.startDate := Some "2025-10-01";
         EasyecomService.endDate := Some "2025-10-08";
         EasyecomService.limit := Some 100; EasyecomService.offset := Some 0 |}
      EasyecomService.signedIn =
      (inr (default [] (Some [])),
       {| EasyecomService.authToken := Some "jwt-3";
          EasyecomService.tokenExpiry := Some (5000 + 7776000000)%Z;
          EasyecomService.requests :=
            EasyecomService.requests EasyecomService.signedIn ++
            [EasyecomService.Get "jwt-2" q; EasyecomService.Post "/access/token";
             EasyecomService.Get "jwt-3" q] |}).
Proof.
  apply (revoked_token_is_replaced_and_the_request_repeated
           (EasyecomService.revokedPost "jwt-3") (EasyecomService.revokedGet "jwt-2" [])
           "ops@example.com" 5000 (1000 + 7776000000)
           {| EasyecomService.startDate := Some "2025-10-01";
              EasyecomService.endDate := Some "2025-10-08";
              EasyecomService.limit := Some 100; EasyecomService.offset := Some 0 |}
           EasyecomService.signedIn "jwt-2" "jwt-3"
           {| EasyecomService.message := "Request failed with status code 401";
              EasyecomService.responseStatus := Some 401 |}
           {| EasyecomService.token := Some "jwt-3"; EasyecomService.access_token := None |}
           (Some [])).
  - reflexivity.
  - reflexivity.
  - vm_compute. reflexivity.
  - reflexivity.
  - intros q. reflexivity.
  - reflexivity.
  - reflexivity.
  - reflexivity.
  - reflexivity.
  - intros q. reflexivity.
Defined.

(** * The callers of [reconcile] *)




(** X30. A request that does not give both dates is served from the
    lookback alone: a lone [startDate] or [endDate] is ignored without an
    error. When in addition [lookbackDays] is absent or 0, the route leaves
    the tables as a tick of the scheduler at the same clock readings does. *)
Theorem lone_date_is_ignored
    (host : ReconciliationRoutes.Host) (env : Collaborators) (endNow startNow runNow : Z)
    (body : ReconciliationRoutes.RunBody) (w : World) :
  truthy (ReconciliationRoutes.startDate body) &&
    truthy (ReconciliationRoutes.endDate body) = false ->
  ReconciliationRoutes.run host env endNow startNow runNow body w =
    ReconciliationRoutes.run host env endNow startNow runNow
      {| ReconciliationRoutes.startDate := None; ReconciliationRoutes.endDate := None;
         ReconciliationRoutes.lookbackDays := ReconciliationRoutes.lookbackDays body |} w /\
  (ReconciliationRoutes.truthyDays (ReconciliationRoutes.lookbackDays body) = false ->
   (ReconciliationRoutes.run host env endNow startNow runNow body w).2 =
     Scheduler.tick host env endNow startNow runNow w).
Proof.
  intros Hdates.
  assert (ReconciliationRoutes.range host endNow startNow body =
          ReconciliationRoutes.range host endNow startNow
            {| ReconciliationRoutes.startDate := None; ReconciliationRoutes.endDate := None;
               ReconciliationRoutes.lookbackDays := ReconciliationRoutes.lookbackDays body |})
    as Hrange.
  { unfold ReconciliationRoutes.range.
    cbn [ReconciliationRoutes.startDate ReconciliationRoutes.endDate
         ReconciliationRoutes.lookbackDays].
    destruct (ReconciliationRoutes.startDate body) as [s|],
             (ReconciliationRoutes.endDate body) as [e|]; try reflexivity.
    by rewrite Hdates. }
  split.
  - unfold ReconciliationRoutes.run. by rewrite Hrange.
  - intros Hdays. unfold ReconciliationRoutes.run, Scheduler.tick. rewrite Hrange.
    unfold ReconciliationRoutes.range.
    cbn [ReconciliationRoutes.startDate ReconciliationRoutes.endDate
         ReconciliationRoutes.lookbackDays].
    rewrite Hdays.
    destruct (ReconciliationRoutes.setDateBack host startNow
                (ReconciliationRoutes.configLookbackDays host)) as [start|]; [|done].
    by destruct (reconcile env runNow start endNow w) as [[message|run] w1].
Qed.

Lemma lone_date_is_ignored_witness :
  ReconciliationRoutes.run ReconciliationRoutes.utc sample_env 1760000000000
    1760000000001 1760000000002
    {| ReconciliationRoutes.startDate := Some "2025-10-01";
       ReconciliationRoutes.endDate := None;
       ReconciliationRoutes.lookbackDays := Some 0%Z |} emptyWorld =
    ReconciliationRoutes.run ReconciliationRoutes.utc sample_env 1760000000000
      1760000000001 1760000000002
      {| ReconciliationRoutes.startDate := None; ReconciliationRoutes.endDate := None;
         ReconciliationRoutes.lookbackDays := Some 0%Z |} emptyWorld /\
  (ReconciliationRoutes.truthyDays (Some 0%Z) = false ->
   (ReconciliationRoutes.run ReconciliationRoutes.utc sample_env 1760000000000
      1760000000001 1760000000002
      {| ReconciliationRoutes.startDate := Some "2025-10-01";
         ReconciliationRoutes.endDate := None;
         ReconciliationRoutes.lookbackDays := Some 0%Z |} emptyWorld).2 =
     Scheduler.tick ReconciliationRoutes.utc sample_env 1760000000000
       1760000000001 1760000000002 emptyWorld).
Proof.
  apply (lone_date_is_ignored ReconciliationRoutes.utc sample_env 1760000000000
           1760000000001 1760000000002
           {| ReconciliationRoutes.startDate := Some "2025-10-01";
              ReconciliationRoutes.endDate := None;
              ReconciliationRoutes.lookbackDays := Some 0%Z |} emptyWorld).
  reflexivity.
Defined.
